(** * Torch: operator-splitting time integrator

    A shallow embedding of the composite stepper ([Torch::calculateTimeStep],
    [Torch::subStep], [Torch::hydroStep], [Torch::fullStep],
    [Torch::checkValues]), of the helpers that name the snapshot files
    ([stepIDFromFilename], [formatSuffix]) and of the thermodynamics
    integrator ([Thermodynamics::initialiseMinTempField], [softLanding],
    [preTimeStepCalculations], [integrate], [updateColDen], [rayTrace],
    [calculateTimeStep], [updateSourceTerms]).

    Numbers.  The arithmetic of the integrators is carried out over the
    rationals [Q]: a C++ [double] is idealised as an exact number, and
    equalities that need an arithmetic law are stated with [==].  Two places
    of the source depend on IEEE special values and are modelled as such:
    the quotient [|0.1*U[PRE]/T[RATE]|], whose divisor is zero for every cell
    in thermal equilibrium (type [xdouble]), and [Torch::checkValues], which
    looks for NaN and infinities and therefore reads cells of binary64
    floats ([PrimFloat]).  The functions of <cmath> that have no rational
    counterpart ([exp], [log], [pow], [sqrt]) are parameters.

    Two more places of [Thermodynamics::integrate] leave the rationals in
    the source: the reciprocal [1.0 / rate2dpre], infinite for
    [rate2dpre = 0], and the conversions to [int] that count the
    micro-steps of the sub-cycling loop, which the source applies to
    quotients rounded to binary64.  The model computes both over the exact
    rationals; the comments at [subcycleSteps] and [integrateCell] say
    where the source differs, and the theorems on the single step and on
    the pressure floor assume [rate2dpre <> 0]. *)

From Stdlib Require Import ZArith QArith Qabs Qround Lqa Lia Bool String.
From Stdlib Require Import PrimFloat.
From Stdlib Require Import List.
From Stdlib Require Import Ascii Decimal DecimalString DecimalPos.
From stdpp Require Import base list.

Set Warnings "-inexact-float".

Local Open Scope Q_scope.
Local Open Scope string_scope.

(** The character '\n' as a string. *)
Definition nl : string := String (Ascii.ascii_of_nat 10) EmptyString.

(** ** Numbers *)

Module Num.

(** [a < b] on doubles, as a boolean. *)
Definition ltb (a b : Q) : bool := negb (Qle_bool b a).
Definition leb (a b : Q) : bool := Qle_bool a b.
Definition eqb (a b : Q) : bool := Qeq_bool a b.

(** [std::min(a, b)] is [(b < a) ? b : a], [std::max(a, b)] is
    [(a < b) ? b : a]. *)
Definition std_min (a b : Q) : Q := if ltb b a then b else a.
Definition std_max (a b : Q) : Q := if ltb a b then b else a.

(** [(int)x]: conversion of a double to [int] truncates toward zero.  The
    [int] is not bounded here; a double outside the range of [int] is
    undefined behaviour in C++. *)
Definition to_int (x : Q) : Z := Z.quot (Qnum x) (Zpos (Qden x)).

(** The value of [std::abs(a / b)] for finite [a] and [b]: IEEE division
    by zero gives an infinity, or NaN for [0/0]. *)
Inductive xdouble := Fin (q : Q) | PInf | NaN.

Definition abs_div (a b : Q) : xdouble :=
  if eqb b 0 then (if eqb a 0 then NaN else PInf) else Fin (Qabs (a / b)).

(** [std::min(dt, dti)] and [dt > dti] with a [dti] that may be infinite
    or NaN: every comparison with NaN is false. *)
Definition xmin (dt : Q) (dti : xdouble) : Q :=
  match dti with Fin d => std_min dt d | PInf | NaN => dt end.

Definition xgtb (dt : Q) (dti : xdouble) : bool :=
  match dti with Fin d => ltb d dt | PInf | NaN => false end.

End Num.

(** ** Cells

    Modelled from the spec: the headers that declare the enumerations and
    the classes GridCell, Grid, Star, Constants and MPIW are not part of the
    sources.  [UID] indexes the primitive, conservative and source-term
    vectors {DEN, PRE, VEL0, VEL1, VEL2, HII, ADV}, [TID] the thermodynamic
    values {COL_DEN, DCOL_DEN, RATE, HEAT}; [HID] has the heating
    diagnostics that Thermodynamics.cpp names.  The records below have the
    members that the sources read or write.  An array indexed by an
    enumeration is a total function on it. *)

Inductive UID := DEN | PRE | VEL (idim : nat) | HII | ADV.
Inductive TID := COL_DEN | DCOL_DEN | RATE | HEAT.
Inductive HID :=
  FUVH | IRH | CRH | IMLC | NMLC | CEHI | CIEC | NMC | TOT | RHII | EUVH.

#[global] Instance UID_eq_dec : EqDecision UID.
Proof. solve_decision. Defined.
#[global] Instance TID_eq_dec : EqDecision TID.
Proof. solve_decision. Defined.
#[global] Instance HID_eq_dec : EqDecision HID.
Proof. solve_decision. Defined.

(** The indices [0 .. UID::N - 1]. *)
Definition UID_all : list UID := [DEN; PRE; VEL 0; VEL 1; VEL 2; HII; ADV].

(** [a[k] = v]. *)
Definition upd {K V} `{EqDecision K} (a : K -> V) (k : K) (v : V) : K -> V :=
  fun j => if decide (j = k) then v else a j.

Record GridCell (D : Type) := mkGridCell {
  xc : nat -> D;
  ds : D;
  c_Q : UID -> D;
  c_U : UID -> D;
  c_W : UID -> D;
  c_UDOT : UID -> D;
  c_GRAV : nat -> D;
  c_T : TID -> D;
  c_H : HID -> D;
  neighbourIDs : nat -> Z;
  neighbourWeights : nat -> D;
  T_min : D;
  heatCapacityRatio : D
}.

Arguments mkGridCell {D}.
Arguments xc {D}. Arguments ds {D}. Arguments c_Q {D}. Arguments c_U {D}.
Arguments c_W {D}. Arguments c_UDOT {D}. Arguments c_GRAV {D}.
Arguments c_T {D}. Arguments c_H {D}. Arguments neighbourIDs {D}.
Arguments neighbourWeights {D}. Arguments T_min {D}.
Arguments heatCapacityRatio {D}.

Definition set_T {D} (c : GridCell D) (t : TID -> D) : GridCell D :=
  mkGridCell (xc c) (ds c) (c_Q c) (c_U c) (c_W c) (c_UDOT c) (c_GRAV c)
             t (c_H c) (neighbourIDs c) (neighbourWeights c) (T_min c)
             (heatCapacityRatio c).

Definition set_H {D} (c : GridCell D) (h : HID -> D) : GridCell D :=
  mkGridCell (xc c) (ds c) (c_Q c) (c_U c) (c_W c) (c_UDOT c) (c_GRAV c)
             (c_T c) h (neighbourIDs c) (neighbourWeights c) (T_min c)
             (heatCapacityRatio c).

Definition set_UDOT {D} (c : GridCell D) (u : UID -> D) : GridCell D :=
  mkGridCell (xc c) (ds c) (c_Q c) (c_U c) (c_W c) u (c_GRAV c)
             (c_T c) (c_H c) (neighbourIDs c) (neighbourWeights c) (T_min c)
             (heatCapacityRatio c).

Definition set_T_min {D} (c : GridCell D) (t : D) : GridCell D :=
  mkGridCell (xc c) (ds c) (c_Q c) (c_U c) (c_W c) (c_UDOT c) (c_GRAV c)
             (c_T c) (c_H c) (neighbourIDs c) (neighbourWeights c) t
             (heatCapacityRatio c).

(** ** Grid, star and message passing *)

Record Grid := mkGrid {
  cells : list (GridCell Q);
  dx : nat -> Q;
  orderedIndices : string -> list nat;
  left0 : nat -> nat;
  right0 : nat -> nat;
  currentTime : Q;
  deltatime : Q
}.

Definition set_cells (g : Grid) (cs : list (GridCell Q)) : Grid :=
  mkGrid cs (dx g) (orderedIndices g) (left0 g) (right0 g)
         (currentTime g) (deltatime g).

(** [grid.getOrderedIndices(name)]. *)
Definition getOrderedIndices (g : Grid) (name : string) : list nat :=
  orderedIndices g name.

Inductive Location := HERE | LEFT | RIGHT | NONE.

#[global] Instance Location_eq_dec : EqDecision Location.
Proof. solve_decision. Defined.

Record Star := mkStar {
  on : bool;
  core : Location;
  star_xc : nat -> Q;
  photonRate : Q;
  massLossRate : Q;
  windVelocity : Q
}.

(** The process-wide MPI handle.  [incoming src] is the payload that a
    blocking receive from rank [src] delivers. *)
Record MPIW := mkMPIW {
  rank : Z;
  nProcessors : Z;
  incoming : Z -> list Q
}.

(** Modelled from the spec: the class PartitionManager is not part of the
    sources.  It holds two typed scalar queues; [addSendItem] and
    [getRecvItem] work on them in order, [sendData] and [recvData] exchange
    the queued payload with a peer, [resetBuffer] clears both queues.
    [sent] records the messages that left this rank. *)
Record PartitionManager := mkPartition {
  sendBuf : list Q;
  recvBuf : list Q;
  sent : list (Z * list Q)
}.

Definition resetBuffer (p : PartitionManager) : PartitionManager :=
  mkPartition [] [] (sent p).

Definition addSendItem (v : Q) (p : PartitionManager) : PartitionManager :=
  mkPartition (sendBuf p ++ [v]) (recvBuf p) (sent p).

Definition getRecvItem (p : PartitionManager) : Q * PartitionManager :=
  match recvBuf p with
  | [] => (0, p)
  | v :: rest => (v, mkPartition (sendBuf p) rest (sent p))
  end.

Definition sendData (destination : Z) (p : PartitionManager)
  : PartitionManager :=
  mkPartition (sendBuf p) (recvBuf p) (sent p ++ [(destination, sendBuf p)]).

Definition recvData (mpi : MPIW) (source : Z) (p : PartitionManager)
  : PartitionManager :=
  mkPartition (sendBuf p) (incoming mpi source) (sent p).

Record Constants := mkConstants {
  nd : nat;
  pi : Q;
  hydrogenMass : Q;
  specificGasConstant : Q;
  boltzmannConst : Q;
  dustExtinctionCrossSection : Q;
  dfloor : Q;
  pfloor : Q;
  tfloor : Q
}.

Record Fluid := mkFluid {
  grid : Grid;
  star : Star;
  partition : PartitionManager;
  fluid_consts : Constants;
  fluid_massFractionH : Q
}.

Definition set_grid (f : Fluid) (g : Grid) : Fluid :=
  mkFluid g (star f) (partition f) (fluid_consts f) (fluid_massFractionH f).

Definition set_partition (f : Fluid) (p : PartitionManager) : Fluid :=
  mkFluid (grid f) (star f) p (fluid_consts f) (fluid_massFractionH f).

(** Modelled from the spec: Fluid::calcTemperature is not part of the
    sources.  T = PRE / (mu_inv * R_specific * DEN) with
    mu_inv = X_H*(HII + 1) + (1 - X_H)*1/4. *)
Definition calcTemperature (f : Fluid) (hii pre den : Q) : Q :=
  let mu_inv :=
    fluid_massFractionH f * (hii + 1) + (1 - fluid_massFractionH f) * 0.25 in
  pre / (mu_inv * specificGasConstant (fluid_consts f) * den).

(** [grid.getCell(id)] followed by writes to that cell: the cell store is
    updated in place at [id]. *)
Definition modifyCell (id : nat) (f : GridCell Q -> GridCell Q) (g : Grid)
  : Grid :=
  set_cells g (alter f id (cells g)).

(** The loop
    [for (int cellID : grid.getOrderedIndices(name)) {
       GridCell& cell = grid.getCell(cellID); ... }]
    where [body f cell] is the value of [cell] after the loop body has run
    in the fluid [f]. *)
Definition forCells (body : Fluid -> GridCell Q -> GridCell Q)
    (ids : list nat) (f : Fluid) : Fluid :=
  foldl (fun f cellID => set_grid f (modifyCell cellID (body f) (grid f)))
        f ids.

(** ** Thermodynamics *)

(** The functions of <cmath> used by the rate formulas. *)
Record Cmath := mkCmath {
  std_exp : Q -> Q;
  std_log : Q -> Q;
  std_log10 : Q -> Q;
  std_sqrt : Q -> Q;
  std_pow : Q -> Q -> Q
}.

(** The members of class Thermodynamics.  The two spline tables are held as
    their [interpolate] functions. *)
Record Thermo := mkThermo {
  m_consts : Constants;
  m_isSubcycling : bool;
  m_thermoHII_Switch : Q;
  m_heatingAmplification : Q;
  m_massFractionH : Q;
  m_minTempInitialState : bool;
  m_z0 : Q;
  m_T1 : Q; m_T2 : Q; m_T3 : Q; m_T4 : Q;
  m_imlc : Q; m_nmlc : Q;
  m_ciec_minT : Q; m_ciec : Q;
  m_cxhi_damp : Q;
  m_n0 : Q; m_nmc : Q;
  m_fuvh_a : Q; m_fuvh_b : Q; m_fuvh_c : Q;
  m_irh_a : Q; m_irh_b : Q;
  m_crh : Q;
  m_T_min : Q;
  m_collisionalExcitationHI_CoolingRates : Q -> Q;
  m_recombinationHII_CoolingRates : Q -> Q
}.

Module Thermodynamics.

Section Rates.

Variable libm : Cmath.
Variable self : Thermo.

Definition fluxFUV (Q_FUV dist_sqrd : Q) : Q :=
  if negb (Num.eqb dist_sqrd 0)
  then Q_FUV / (1.2e7 * 4 * pi (m_consts self) * dist_sqrd)
  else 0.

Definition ionisedMetalLineCooling (ne T : Q) : Q :=
  m_imlc self * m_z0 self * ne * ne
  * std_exp libm (- m_T1 self / T - (m_T2 self / T) * (m_T2 self / T)).

Definition neutralMetalLineCooling (ne nn T : Q) : Q :=
  m_nmlc self * m_z0 self * ne * nn
  * std_exp libm (- m_T3 self / T - (m_T4 self / T) * (m_T4 self / T)).

Definition collisionalIonisationEquilibriumCooling (ne T : Q) : Q :=
  if Num.ltb (m_ciec_minT self) T then
    let cie_rate :=
      m_ciec self * ne * ne * m_z0 self
      * std_exp libm (- 0.63 * std_log libm T)
      * (1.0 - std_exp libm (- std_pow libm (1.0e-5 * T) 1.63)) in
    let smoothing := Num.std_min 1.0 ((T - 5.0e4) / 2.0e4) in
    cie_rate * smoothing
  else 0.

Definition neutralMolecularLineCooling (nH HIIFRAC T : Q) : Q :=
  let T0 := 70.0 + 220.0 * std_pow libm (nH / m_n0 self) 0.2 in
  m_nmc self * (1.0 - HIIFRAC) * (1.0 - HIIFRAC) * std_pow libm nH 1.6
  * std_sqrt libm T * std_exp libm (- T0 / T).

Definition collisionalExcitationHI (nH HIIFRAC T : Q) : Q :=
  let rate :=
    m_collisionalExcitationHI_CoolingRates self (std_log10 libm T) in
  HIIFRAC * (1.0 - HIIFRAC) * nH * nH
  * std_exp libm
      ((2.302585093 * rate)
       - ((T / m_cxhi_damp self) * (T / m_cxhi_damp self))).

Definition recombinationHII (nH HIIFRAC T : Q) : Q :=
  let rate := m_recombinationHII_CoolingRates self T in
  HIIFRAC * HIIFRAC * nH * nH * boltzmannConst (m_consts self) * T * rate.

Definition farUltraVioletHeating (nH Av_FUV F_FUV : Q) : Q :=
  m_fuvh_a self * nH * F_FUV * std_exp libm (- 1.9 * Av_FUV)
  / (m_fuvh_b self
     + m_fuvh_c self * F_FUV * std_exp libm (- 1.9 * Av_FUV) / nH).

Definition infraRedHeating (nH Av_FUV F_FUV : Q) : Q :=
  m_irh_a self * nH * F_FUV * std_exp libm (- 0.05 * Av_FUV)
  * std_exp libm (- 2.0 * std_log libm (1.0 + m_irh_b self / nH)).

Definition cosmicRayHeating (nH : Q) : Q := m_crh self * nH.

(** [Thermodynamics::softLanding]. *)
Definition softLanding (rate T T_min : Q) : Q :=
  if Num.ltb rate 0.0 then
    if Num.leb T T_min then 0
    else if Num.leb T (T_min + 200) then rate * (T - T_min) / 200
    else rate
  else rate.

(** The heating term minus the five cooling terms evaluated at temperature
    [T]: lines 255-259 of preTimeStepCalculations and 315-319 of
    integrate. *)
Definition subtractCooling (rate ne nn nH HIIFRAC T : Q) : Q :=
  let rate := rate - ionisedMetalLineCooling ne T in
  let rate := rate - neutralMetalLineCooling ne nn T in
  let rate := rate - collisionalExcitationHI nH HIIFRAC T in
  let rate := rate - collisionalIonisationEquilibriumCooling ne T in
  let rate := rate - neutralMolecularLineCooling nH HIIFRAC T in
  rate.

End Rates.

Section Integrator.

Variable libm : Cmath.
Variable self : Thermo.
Variable mpihandler : MPIW.

(** [grid.getCell(id).T[k]] for a neighbour index; an index outside the
    cell store (undefined behaviour in the source) reads as 0. *)
Definition neighbourT (g : Grid) (id : Z) (k : TID) : Q :=
  match cells g !! Z.to_nat id with
  | Some c => c_T c k
  | None => 0
  end.

(** [colden[i]] and [w_raga[i]] after the first loop of updateColDen. *)
Definition colden (g : Grid) (cell : GridCell Q) (i : nat) : Q :=
  if negb (Z.eqb (neighbourIDs cell i) (-1))
  then neighbourT g (neighbourIDs cell i) COL_DEN
       + neighbourT g (neighbourIDs cell i) DCOL_DEN
  else 0.0.

Definition w_raga (g : Grid) (cell : GridCell Q) (i : nat) : Q :=
  if Num.eqb (colden g cell i) 0 then 0
  else neighbourWeights cell i / colden g cell i.

Definition sum_w (g : Grid) (cell : GridCell Q) : Q :=
  w_raga g cell 0 + w_raga g cell 1 + w_raga g cell 2 + w_raga g cell 3.

(** The second loop of updateColDen, [for (i = 0; i < 4 && sum_w != 0; ++i)]:
    [sum_w] does not change in the loop, so the body runs four times or not
    at all.  The result is the final [w_raga] array and [newcolden]. *)
Definition renormalise (g : Grid) (cell : GridCell Q) : (nat -> Q) * Q :=
  if negb (Num.eqb (sum_w g cell) 0) then
    foldl (fun '(w, newcolden) i =>
             let w := upd w i (w i / sum_w g cell) in
             (w, newcolden + w i * colden g cell i))
          (w_raga g cell, 0.0) [0; 1; 2; 3]%nat
  else (w_raga g cell, 0.0).

(** [Thermodynamics::updateColDen]: the new value of [cell]. *)
Definition updateColDen (g : Grid) (cell : GridCell Q) (dist2 : Q)
  : GridCell Q :=
  if Num.ltb (0.95 * 0.95) dist2 then
    let newcolden := snd (renormalise g cell) in
    let T := upd (c_T cell) COL_DEN newcolden in
    let T := upd T DCOL_DEN
                 ((c_Q cell DEN / hydrogenMass (m_consts self)) * ds cell) in
    set_T cell T
  else
    let T := upd (c_T cell) COL_DEN 0 in
    let T := upd T DCOL_DEN
                 ((c_Q cell DEN / hydrogenMass (m_consts self)) * ds cell) in
    set_T cell T.

(** The squared distance of a cell from the star, in cells. *)
Definition starDist2 (f : Fluid) (cell : GridCell Q) : Q :=
  foldl (fun dist2 i =>
           dist2 + (xc cell i - star_xc (star f) i)
                   * (xc cell i - star_xc (star f) i))
        0 (seq 0 (nd (m_consts self))).

(** One pass of rayTrace over a causal ordering. *)
Definition sweepColDen (f : Fluid) (ids : list nat) : Fluid :=
  forCells (fun f cell => updateColDen (grid f) cell (starDist2 f cell))
           ids f.

(** The ghost cells of a partition boundary take the received column
    densities, two items per ghost. *)
Definition recvGhosts (f : Fluid) (ids : list nat) : Fluid :=
  foldl (fun f ghostID =>
           let '(a, p) := getRecvItem (partition f) in
           let '(b, p) := getRecvItem p in
           set_partition
             (set_grid f
                (modifyCell ghostID
                   (fun ghost =>
                      set_T ghost (upd (upd (c_T ghost) COL_DEN a) DCOL_DEN b))
                   (grid f)))
             p)
        f ids.

(** The column densities next to a partition boundary are queued;
    [inner] is [grid.right(0, ghost)] or [grid.left(0, ghost)]. *)
Definition queueColDen (f : Fluid) (inner : nat -> nat) (ids : list nat)
  : Fluid :=
  foldl (fun f ghostID =>
           let p := addSendItem (neighbourT (grid f) (Z.of_nat (inner ghostID))
                                            COL_DEN) (partition f) in
           let p := addSendItem (neighbourT (grid f) (Z.of_nat (inner ghostID))
                                            DCOL_DEN) p in
           set_partition f p)
        f ids.

(** [Thermodynamics::rayTrace]. *)
Definition rayTrace (f : Fluid) : Fluid :=
  let f := set_partition f (resetBuffer (partition f)) in
  let f :=
    if negb (bool_decide (core (star f) = HERE)) then
      let source :=
        if bool_decide (core (star f) = LEFT)
        then (rank mpihandler - 1)%Z else (rank mpihandler + 1)%Z in
      let f := set_partition f (recvData mpihandler source (partition f)) in
      recvGhosts f
        (getOrderedIndices (grid f)
           (if bool_decide (core (star f) = LEFT)
            then "LeftPartitionCells" else "RightPartitionCells"))
    else f in
  let f := sweepColDen f (getOrderedIndices (grid f) "CausalWind") in
  let f := sweepColDen f (getOrderedIndices (grid f) "CausalNonWind") in
  let f :=
    if negb (Z.eqb (rank mpihandler) 0 || bool_decide (core (star f) = LEFT))
    then
      let f := queueColDen f (right0 (grid f))
                 (getOrderedIndices (grid f) "LeftPartitionCells") in
      set_partition f (sendData (rank mpihandler - 1)%Z (partition f))
    else f in
  let f :=
    if negb (Z.eqb (rank mpihandler) (nProcessors mpihandler - 1)
             || bool_decide (core (star f) = RIGHT))
    then
      let f := queueColDen f (left0 (grid f))
                 (getOrderedIndices (grid f) "RightPartitionCells") in
      set_partition f (sendData (rank mpihandler + 1)%Z (partition f))
    else f in
  f.

(** The body of the cell loop of preTimeStepCalculations. *)
Definition preTimeStepCell (f : Fluid) (cell : GridCell Q) : GridCell Q :=
  if Num.ltb (c_Q cell ADV) (m_thermoHII_Switch self) then
    set_T cell (upd (c_T cell) RATE 0)
  else
    let nH :=
      m_massFractionH self * c_Q cell DEN / hydrogenMass (m_consts self) in
    let HIIFRAC := c_Q cell HII in
    let ne := nH * HIIFRAC in
    let nn := nH * (1.0 - HIIFRAC) in
    let T := calcTemperature f (c_Q cell HII) (c_Q cell PRE) (c_Q cell DEN) in
    let rsqrd :=
      if on (star f) then
        foldl (fun rsqrd id =>
                 rsqrd + (xc cell id - star_xc (star f) id)
                         * (xc cell id - star_xc (star f) id)
                         * dx (grid f) id * dx (grid f) id)
              0 (seq 0 (nd (m_consts self)))
      else 0 in
    let F_FUV :=
      if on (star f) then fluxFUV self (0.5 * photonRate (star f)) rsqrd
      else 0 in
    let tau := c_T cell COL_DEN in
    let Av_FUV :=
      1.086 * dustExtinctionCrossSection (m_consts self) * tau in
    let rate := 0 in
    let rate := rate + farUltraVioletHeating libm self nH Av_FUV F_FUV in
    let rate := rate + infraRedHeating libm self nH Av_FUV F_FUV in
    let rate := rate + cosmicRayHeating self nH in
    let cell := set_T cell (upd (c_T cell) HEAT rate) in
    let rate := subtractCooling libm self rate ne nn nH HIIFRAC T in
    let rate := softLanding rate T (T_min cell) in
    set_T cell (upd (c_T cell) RATE (m_heatingAmplification self * rate)).

(** [Thermodynamics::preTimeStepCalculations]. *)
Definition preTimeStepCalculations (f : Fluid) : Fluid :=
  let f := if on (star f) then rayTrace f else f in
  forCells preTimeStepCell (getOrderedIndices (grid f) "CausalNonWind") f.

(** The block "Fix pressure and temperature and heating rate" (lines
    298-302 and again 326-330): the new [(pressure, subcycleT)]. *)
Definition fixPressure (cell : GridCell Q) (temp2pre pre2temp : Q)
    (pressure subcycleT : Q) : Q * Q :=
  if Num.ltb pressure (pfloor (m_consts self))
     || Num.ltb subcycleT (T_min cell)
  then
    let pfloor :=
      Num.std_max (T_min cell * temp2pre) (pfloor (m_consts self)) in
    (pfloor, pfloor * pre2temp)
  else (pressure, subcycleT).

(** [int nsteps = dtdti - (int)dtdti > 0 ? (int)(dtdti + 1.0)
                                        : (int)(dtdti + 0.5)].
    The quotient [dtdti] is the exact one here.  The source holds it in a
    double, rounded after each of [0.10 * U[PRE]], [/ T[RATE]] and
    [dt / dti], so that a quotient that is an integer, or within a rounding
    error of one, can give a count that differs by one. *)
Definition subcycleSteps (dtdti : Q) : Z :=
  if Num.ltb 0 (dtdti - inject_Z (Num.to_int dtdti))
  then Num.to_int (dtdti + 1.0)
  else Num.to_int (dtdti + 0.5).

(** The body of the sub-cycling loop. *)
Definition subcycleStep (cell : GridCell Q) (ne nn nH HIIFRAC : Q)
    (temp2pre pre2temp rate2dpre : Q) (st : Q * Q) : Q * Q :=
  let '(pressure, subcycleT) := st in
  let subcycleRate := c_T cell HEAT in
  let subcycleRate :=
    subtractCooling libm self subcycleRate ne nn nH HIIFRAC subcycleT in
  let subcycleRate :=
    m_heatingAmplification self
    * softLanding subcycleRate subcycleT (T_min cell) in
  let pressure := pressure + subcycleRate * rate2dpre in
  let subcycleT := pressure * pre2temp in
  fixPressure cell temp2pre pre2temp pressure subcycleT.

(** [dt / dti] where [dt > dti] has been tested, so that [dti] is finite.
    A [dti] of zero (U[PRE] = 0) makes the quotient infinite and its
    conversion to [int] undefined in the source; no statement below
    covers that case. *)
Definition xdiv (dt : Q) (dti : Num.xdouble) : Q :=
  match dti with Num.Fin d => dt / d | Num.PInf | Num.NaN => 0 end.

(** The body of the cell loop of integrate.  For [rate2dpre = 0] (a time
    step of zero, or a heat capacity ratio of one) the source computes
    [dpre2rate = 1.0 / 0], an infinity, and writes an infinity or NaN to
    T[RATE] and H[TOT]; a rational has no such value, and the model is not
    the source in that case. *)
Definition integrateCell (dt : Q) (cell : GridCell Q) : GridCell Q :=
  if Num.ltb (c_Q cell ADV) (m_thermoHII_Switch self) then
    let cell := set_H cell (fun _ => 0) in
    set_T cell (upd (c_T cell) RATE 0)
  else
    let nH :=
      m_massFractionH self * c_Q cell DEN / hydrogenMass (m_consts self) in
    let HIIFRAC := c_Q cell HII in
    let ne := nH * HIIFRAC in
    let nn := nH * (1.0 - HIIFRAC) in
    let dti := Num.abs_div (0.10 * c_U cell PRE) (c_T cell RATE) in
    let mu_inv :=
      m_massFractionH self * (c_Q cell HII + 1.0)
      + (1.0 - m_massFractionH self) * 0.25 in
    let pre2temp :=
      1.0 / (mu_inv * specificGasConstant (m_consts self) * c_Q cell DEN) in
    let temp2pre :=
      mu_inv * specificGasConstant (m_consts self) * c_Q cell DEN in
    let rate2dpre := Num.xmin dt dti * (heatCapacityRatio cell - 1.0) in
    let dpre2rate := 1.0 / rate2dpre in
    let pressure := c_Q cell PRE + c_T cell RATE * rate2dpre in
    let subcycleT := pressure * pre2temp in
    let st := fixPressure cell temp2pre pre2temp pressure subcycleT in
    let st :=
      if Num.xgtb dt dti then
        let dtdti := xdiv dt dti in
        let nsteps := subcycleSteps dtdti in
        let dti := dt / inject_Z nsteps in
        let nsteps := (nsteps - 1)%Z in
        Nat.iter (Z.to_nat nsteps)
          (subcycleStep cell ne nn nH HIIFRAC temp2pre pre2temp rate2dpre) st
      else st in
    let pressure := fst st in
    let cell :=
      set_T cell (upd (c_T cell) RATE ((pressure - c_Q cell PRE) * dpre2rate))
    in
    set_H cell (upd (c_H cell) TOT (c_T cell RATE)).

(** [Thermodynamics::integrate]. *)
Definition integrate (dt : Q) (f : Fluid) : Fluid :=
  if negb (m_isSubcycling self) then f
  else
    forCells (fun _ => integrateCell dt)
             (getOrderedIndices (grid f) "CausalNonWind") f.

(** [Thermodynamics::calculateTimeStep]. *)
Definition calculateTimeStep (dt_max : Q) (f : Fluid) : Q :=
  foldl (fun dt cell =>
           if negb (Num.eqb (c_T cell RATE) 0) then
             let frac := if m_isSubcycling self then 1.0 else 0.1 in
             let dti := Qabs (frac * c_U cell PRE / c_T cell RATE) in
             if Num.ltb dti dt then dti else dt
           else dt)
        dt_max (cells (grid f)).

(** The body of the cell loop of updateSourceTerms. *)
Definition updateSourceTermsCell (cell : GridCell Q) : GridCell Q :=
  let cell :=
    set_UDOT cell (upd (c_UDOT cell) PRE (c_UDOT cell PRE + c_T cell RATE)) in
  set_T cell (upd (upd (c_T cell) HEAT 0) RATE 0).

(** [Thermodynamics::updateSourceTerms]. *)
Definition updateSourceTerms (dt : Q) (f : Fluid) : Fluid :=
  forCells (fun _ => updateSourceTermsCell)
           (getOrderedIndices (grid f) "CausalNonWind") f.

(** [Thermodynamics::initialiseMinTempField].  Modelled from the spec:
    [getIterable(name)] visits the cells of the ordering [name]. *)
Definition initialiseMinTempField (f : Fluid) : Fluid :=
  if m_minTempInitialState self then
    forCells (fun f cell =>
                set_T_min cell
                  (calcTemperature f (c_Q cell HII) (c_Q cell PRE)
                                   (c_Q cell DEN)))
             (getOrderedIndices (grid f) "GridCells") f
  else
    forCells (fun _ cell => set_T_min cell (m_T_min self))
             (getOrderedIndices (grid f) "GridCells") f.

End Integrator.

End Thermodynamics.

(** ** The composite stepper *)

(** The capability shared by Hydrodynamics, Radiation and Thermodynamics;
    of the three classes only Thermodynamics is part of the sources.
    calculateTimeStep is taken to read the fluid without changing it, as
    that of Thermodynamics does. *)
Module Integrator.

Record t (F : Type) := mk {
  getComponentName : string;
  preTimeStepCalculations : F -> F;
  calculateTimeStep : Q -> F -> Q;
  integrate : Q -> F -> F;
  updateSourceTerms : Q -> F -> F
}.

Arguments mk {F}.
Arguments getComponentName {F}.
Arguments preTimeStepCalculations {F}.
Arguments calculateTimeStep {F}.
Arguments integrate {F}.
Arguments updateSourceTerms {F}.

End Integrator.

(** The thermodynamics integrator as a value of that capability. *)
Definition thermodynamicsIntegrator (libm : Cmath) (self : Thermo)
    (mpihandler : MPIW) : Integrator.t Fluid :=
  Integrator.mk "Thermodynamics"
    (Thermodynamics.preTimeStepCalculations libm self mpihandler)
    (Thermodynamics.calculateTimeStep self)
    (Thermodynamics.integrate libm self)
    (Thermodynamics.updateSourceTerms).

Module Torch.

Inductive ComponentID := HYDRO | THERMO | RAD.

(** The sources hold two revisions of Torch.cpp.  They agree on
    calculateTimeStep (up to what is printed), subStep, hydroStep and
    fullStep, and differ in how checkValues ends the run. *)
Inductive Revision := Part000 | Part001.

Inductive SeverityType := ERROR | WARNING | NOTICE | INFO | DEBUG.

(** What is written to the standard output. *)
Inductive Output :=
| Text (s : string)
| CellInfo (cell : GridCell float)
| Ratios (thyd trad ttherm : Q).

(** The operations of class Fluid used by the stepper; the class is not
    part of the sources.  [getGridCells] is
    [getGrid().getIterable("GridCells")] as checkValues reads it. *)
Record FluidOps (F : Type) := mkFluidOps {
  globalQfromU : F -> F;
  globalUfromQ : F -> F;
  globalWfromU : F -> F;
  globalUfromW : F -> F;
  fixPrimitives : F -> F;
  fixSolution : F -> F;
  advSolution : Q -> F -> F;
  getGridCells : F -> list (GridCell float);
  setDeltatime : Q -> F -> F
}.

Arguments globalQfromU {F}. Arguments globalUfromQ {F}.
Arguments globalWfromU {F}. Arguments globalUfromW {F}.
Arguments fixPrimitives {F}. Arguments fixSolution {F}.
Arguments advSolution {F}. Arguments getGridCells {F}.
Arguments setDeltatime {F}.

Section Stepper.

Context {F : Type}.

(** One call of subStep, as recorded in the ghost field [substeps]. *)
Record SubStepCall := mkCall {
  call_dt : Q;
  call_hasCalculatedHeatFlux : bool;
  call_comp : Integrator.t F
}.

(** The members of class Torch that the stepper uses.  [first_time] is the
    static local of calculateTimeStep.  [consulted] and [substeps] are ghost
    fields: the components whose calculateTimeStep has been called, and the
    calls of subStep, both in order. *)
Record State := mkState {
  fluid : F;
  debug : bool;
  radiation_on : bool;
  cooling_on : bool;
  tmax : Q;
  dt_max : Q;
  stepCounter : Z;
  activeComponents : list ComponentID;
  m_isQuitting : bool;
  first_time : bool;
  logger : list (SeverityType * string);
  stdout : list Output;
  consulted : list ComponentID;
  substeps : list SubStepCall
}.

Definition set_fluid (t : State) (f : F) : State :=
  mkState f (debug t) (radiation_on t) (cooling_on t) (tmax t) (dt_max t)
          (stepCounter t) (activeComponents t) (m_isQuitting t) (first_time t)
          (logger t) (stdout t) (consulted t) (substeps t).

Definition set_stepCounter (t : State) (n : Z) : State :=
  mkState (fluid t) (debug t) (radiation_on t) (cooling_on t) (tmax t)
          (dt_max t) n (activeComponents t) (m_isQuitting t) (first_time t)
          (logger t) (stdout t) (consulted t) (substeps t).

Definition set_isQuitting (t : State) (b : bool) : State :=
  mkState (fluid t) (debug t) (radiation_on t) (cooling_on t) (tmax t)
          (dt_max t) (stepCounter t) (activeComponents t) b (first_time t)
          (logger t) (stdout t) (consulted t) (substeps t).

Definition set_first_time (t : State) (b : bool) : State :=
  mkState (fluid t) (debug t) (radiation_on t) (cooling_on t) (tmax t)
          (dt_max t) (stepCounter t) (activeComponents t) (m_isQuitting t) b
          (logger t) (stdout t) (consulted t) (substeps t).

Definition log (t : State) (sev : SeverityType) (msg : string) : State :=
  mkState (fluid t) (debug t) (radiation_on t) (cooling_on t) (tmax t)
          (dt_max t) (stepCounter t) (activeComponents t) (m_isQuitting t)
          (first_time t) (logger t ++ [(sev, msg)]) (stdout t) (consulted t)
          (substeps t).

Definition print (t : State) (out : list Output) : State :=
  mkState (fluid t) (debug t) (radiation_on t) (cooling_on t) (tmax t)
          (dt_max t) (stepCounter t) (activeComponents t) (m_isQuitting t)
          (first_time t) (logger t) (stdout t ++ out) (consulted t)
          (substeps t).

Definition consult (t : State) (c : ComponentID) : State :=
  mkState (fluid t) (debug t) (radiation_on t) (cooling_on t) (tmax t)
          (dt_max t) (stepCounter t) (activeComponents t) (m_isQuitting t)
          (first_time t) (logger t) (stdout t) (consulted t ++ [c])
          (substeps t).

Definition record (t : State) (c : SubStepCall) : State :=
  mkState (fluid t) (debug t) (radiation_on t) (cooling_on t) (tmax t)
          (dt_max t) (stepCounter t) (activeComponents t) (m_isQuitting t)
          (first_time t) (logger t) (stdout t) (consulted t)
          (substeps t ++ [c]).

(** A member function either returns, or throws std::runtime_error, or
    calls exit; the state reached is kept in each case. *)
Inductive Outcome (A : Type) :=
| Ok (a : A) (t : State)
| Thrown (what : string) (t : State)
| Exited (status : Z) (t : State).

Arguments Ok {A}. Arguments Thrown {A}. Arguments Exited {A}.

Definition M (A : Type) : Type := State -> Outcome A.

Definition ret {A} (a : A) : M A := fun t => Ok a t.

Definition bind {A B} (m : M A) (k : A -> M B) : M B :=
  fun t =>
    match m t with
    | Ok a t' => k a t'
    | Thrown what t' => Thrown what t'
    | Exited status t' => Exited status t'
    end.

Declare Scope torch_scope.
Delimit Scope torch_scope with torch.

Notation "x <- m ;; k" := (bind m (fun x => k))
  (at level 100, m at next level, k at level 200, right associativity)
  : torch_scope.
Notation "m ;;; k" := (bind m (fun _ => k))
  (at level 100, k at level 200, right associativity) : torch_scope.

Definition modify (g : State -> State) : M unit := fun t => Ok tt (g t).


Definition onFluid (g : F -> F) : M unit :=
  modify (fun t => set_fluid t (g (fluid t))).

Definition final {A} (o : Outcome A) : State :=
  match o with Ok _ t | Thrown _ t | Exited _ t => t end.

(** A [for] loop over the values [l] of its index. *)
Fixpoint forM (l : list nat) (body : nat -> M unit) : M unit :=
  match l with
  | [] => ret tt
  | i :: l' => bind (body i) (fun _ => forM l' body)
  end.

Variable rev : Revision.
Variable ops : FluidOps F.
Variable hydrodynamics radiation thermodynamics : Integrator.t F.

(** [MPIW::Instance().minimum(x)]: the minimum over all ranks of their
    values of [x]. *)
Variable minimum : Q -> Q.
(** [MPIW::Instance().getRank()]. *)
Variable getRank : Z.

(** [Torch::calculateTimeStep].  The call of inputOutput.reduceToPrint,
    which only reports [dt], is left out. *)
Definition calculateTimeStep : M Q := fun t =>
  let '(dt, t) :=
    if first_time t then
      (dt_max t * 1.0e-20, set_first_time t false)
    else
      let dt_hydro :=
        Integrator.calculateTimeStep hydrodynamics (dt_max t) (fluid t) in
      let t := consult t HYDRO in
      let dt_rad := dt_hydro in
      let dt_thermo := dt_hydro in
      let '(dt_rad, t) :=
        if radiation_on t
        then (Integrator.calculateTimeStep radiation (dt_max t) (fluid t),
              consult t RAD)
        else (dt_rad, t) in
      let '(dt_thermo, t) :=
        if cooling_on t
        then (Integrator.calculateTimeStep thermodynamics (dt_max t) (fluid t),
              consult t THERMO)
        else (dt_thermo, t) in
      let dt := Num.std_min (Num.std_min dt_hydro dt_rad) dt_thermo in
      let t :=
        if debug t then
          let thyd := minimum (100.0 * dt_hydro / tmax t) in
          let trad := minimum (100.0 * dt_rad / tmax t) in
          let ttherm := minimum (100.0 * dt_thermo / tmax t) in
          let t :=
            match rev with
            | Part000 => t
            | Part001 =>
                if Z.eqb getRank 0 then print t [Ratios thyd trad ttherm]
                else t
            end in
          if Num.leb thyd 1.0e-6 || Num.leb thyd 1.0e-6 || Num.leb thyd 1.0e-6
          then
            let t :=
              match rev with
              | Part000 =>
                  log t ERROR ("Integration deltas are too small." ++ nl)
              | Part001 => t
              end in
            set_isQuitting t true
          else t
        else t in
      (dt, t) in
  let dt := minimum dt in
  let t := set_fluid t (setDeltatime ops dt (fluid t)) in
  Ok dt t.

(** [Torch::getComponent]. *)
Definition getComponent (id : ComponentID) : Integrator.t F :=
  match id with
  | RAD => radiation
  | THERMO => thermodynamics
  | _ => hydrodynamics
  end.

(** The test of the first loop of checkValues on one cell: the inner loop
    over [i < UID::N] stops at the first hit. *)
Definition hasError (cell : GridCell float) : bool :=
  existsb (fun i =>
             negb (PrimFloat.eqb (c_U cell i) (c_U cell i))
             || PrimFloat.is_infinity (c_U cell i)
             || PrimFloat.eqb (c_Q cell DEN) 0
             || PrimFloat.eqb (c_Q cell PRE) 0)
          UID_all.

(** The test of the second loop of checkValues. *)
Definition isDumped (cell : GridCell float) : bool :=
  PrimFloat.ltb 1e50 (PrimFloat.abs (c_Q cell (VEL 0)))
  || PrimFloat.ltb 1e50 (PrimFloat.abs (c_Q cell (VEL 1))).

(** [Torch::checkValues]. *)
Definition checkValues (componentname : string) : M unit := fun t =>
  let error := existsb hasError (getGridCells ops (fluid t)) in
  if error then
    let dumped := filter (fun cell => isDumped cell = true)
                         (getGridCells ops (fluid t)) in
    let header := nl ++ componentname ++ " produced an error." ++ nl in
    match rev with
    | Part000 =>
        let ss := String.concat "" (map (fun _ => header) dumped) in
        let t := print t (map CellInfo dumped) in
        let ss := ss ++ nl in
        Thrown ss t
    | Part001 =>
        let t :=
          print t (flat_map (fun cell => [Text header; CellInfo cell]) dumped)
        in
        Exited 0 t
    end
  else Ok tt t.

(** [Torch::subStep]. *)
Definition subStep (dt : Q) (hasCalculatedHeatFlux : bool)
    (comp : Integrator.t F) : M unit :=
  (modify (fun t => record t (mkCall dt hasCalculatedHeatFlux comp)) ;;;
   checkValues (Integrator.getComponentName comp ++ "before") ;;;
   (if negb hasCalculatedHeatFlux then
      onFluid (globalQfromU ops) ;;;
      onFluid (fixPrimitives ops) ;;;
      onFluid (Integrator.preTimeStepCalculations comp)
    else ret tt) ;;;
   onFluid (Integrator.integrate comp dt) ;;;
   onFluid (Integrator.updateSourceTerms comp dt) ;;;
   onFluid (advSolution ops dt) ;;;
   onFluid (fixSolution ops) ;;;
   checkValues (Integrator.getComponentName comp ++ " after"))%torch.

(** [Torch::hydroStep]. *)
Definition hydroStep (dt : Q) (hasCalculatedHeatFlux : bool) : M unit :=
  (checkValues "hydro before" ;;;
   onFluid (globalWfromU ops) ;;;
   (if negb hasCalculatedHeatFlux then
      onFluid (globalQfromU ops) ;;;
      onFluid (fixPrimitives ops) ;;;
      onFluid (Integrator.preTimeStepCalculations hydrodynamics)
    else ret tt) ;;;
   onFluid (Integrator.integrate hydrodynamics dt) ;;;
   onFluid (Integrator.updateSourceTerms hydrodynamics dt) ;;;
   onFluid (advSolution ops (dt / 2.0)) ;;;
   onFluid (fixSolution ops) ;;;
   onFluid (globalQfromU ops) ;;;
   onFluid (globalUfromW ops) ;;;
   onFluid (Integrator.integrate hydrodynamics dt) ;;;
   onFluid (Integrator.updateSourceTerms hydrodynamics dt) ;;;
   onFluid (advSolution ops dt) ;;;
   onFluid (fixSolution ops))%torch.

(** [activeComponents[(i + stepCounter) % ncomps]]. *)
Definition activeAt (t : State) (i : nat) : ComponentID :=
  let ncomps := Z.of_nat (length (activeComponents t)) in
  nth (Z.to_nat (Z.rem (Z.of_nat i + stepCounter t) ncomps))
      (activeComponents t) HYDRO.

(** [Torch::fullStep]. *)
Definition fullStep (dt_nextCheckPoint : Q) : M Q :=
  (onFluid (globalQfromU ops) ;;;
   onFluid (fixPrimitives ops) ;;;
   (fun t =>
      if cooling_on t
      then onFluid (Integrator.preTimeStepCalculations thermodynamics) t
      else ret tt t) ;;;
   (fun t =>
      if radiation_on t
      then onFluid (Integrator.preTimeStepCalculations radiation) t
      else ret tt t) ;;;
   dt_calc <- calculateTimeStep ;;
   let dt := Num.std_min dt_nextCheckPoint dt_calc in
   fun t =>
     let ncomps := length (activeComponents t) in
     if Nat.eqb ncomps 1 then
       (hydroStep dt true ;;; ret dt) t
     else
       (modify (fun t =>
                  set_stepCounter t
                    (Z.rem (stepCounter t + 1) (Z.of_nat ncomps))) ;;;
        forM (seq 0 ncomps)
             (fun i t =>
                let h := if Nat.eqb i (ncomps - 1) then 1.0 else 0.5 in
                subStep (h * dt) (Nat.eqb i 0)
                        (getComponent (activeAt t i)) t) ;;;
        forM (List.rev (seq 0 (ncomps - 1)))
             (fun i t =>
                subStep (dt / 2.0) false (getComponent (activeAt t i)) t) ;;;
        ret dt) t)%torch.

End Stepper.

Arguments Ok {F A}. Arguments Thrown {F A}. Arguments Exited {F A}.
Arguments State F : clear implicits.
Arguments SubStepCall F : clear implicits.
Arguments Outcome F A : clear implicits.

End Torch.

(** ** File names

    The helpers of Torch.cpp that name the snapshot files.  A
    [std::string] is the list of its characters.  The members of the C++
    standard library that the helpers call are taken as the C++ standard
    describes them. *)
Module Std.

(** [s.find_last_of(c)] with a one-character set: the last index at which
    [c] occurs; [None] is [std::string::npos]. *)
Fixpoint find_last_of (c : ascii) (s : list ascii) : option nat :=
  match s with
  | [] => None
  | a :: s' =>
      match find_last_of c s' with
      | Some i => Some (S i)
      | None => if Ascii.eqb a c then Some 0%nat else None
      end
  end.

(** [s.substr(pos, n)] and [s.substr(pos)], for [pos <= s.size()]. *)
Definition substr (pos n : nat) (s : list ascii) : list ascii :=
  firstn n (skipn pos s).

Definition substr_from (pos : nat) (s : list ascii) : list ascii :=
  skipn pos s.

(** [std::isspace] in the "C" locale: space, and the control characters
    from horizontal tab to carriage return. *)
Definition isspace (a : ascii) : bool :=
  let n := nat_of_ascii a in
  Nat.eqb n 32 || (Nat.leb 9 n && Nat.leb n 13).

(** The value of a decimal digit. *)
Definition digit (a : ascii) : option Z :=
  let n := Z.of_nat (nat_of_ascii a) in
  if Z.leb 48 n && Z.leb n 57 then Some (n - 48)%Z else None.

Fixpoint skip_space (s : list ascii) : list ascii :=
  match s with
  | [] => []
  | a :: s' => if isspace a then skip_space s' else s
  end.

(** The digits at the start of [s], read into [acc]; the flag tells
    whether a digit has been read. *)
Fixpoint digits (s : list ascii) (acc : Z) (any : bool) : Z * bool :=
  match s with
  | [] => (acc, any)
  | a :: s' =>
      match digit a with
      | Some d => digits s' (10 * acc + d)%Z true
      | None => (acc, any)
      end
  end.

(** How [std::stoi] ends: with a value, or by throwing
    [std::invalid_argument] or [std::out_of_range]. *)
Inductive stoi_result := Value (i : Z) | InvalidArgument | OutOfRange.

(** [std::stoi(s)]: white space is skipped, a sign is accepted, the digits
    that follow are read in base 10 and what comes after them is ignored.
    [int] has 32 bits. *)
Definition stoi (s : list ascii) : stoi_result :=
  let s := skip_space s in
  let '(negative, s) :=
    match s with
    | a :: s' =>
        if Ascii.eqb a "-" then (true, s')
        else if Ascii.eqb a "+" then (false, s')
        else (false, s)
    | [] => (false, s)
    end in
  let '(v, any) := digits s 0 false in
  if negb any then InvalidArgument
  else
    let v := if negative then (- v)%Z else v in
    if Z.ltb v (-2147483648) || Z.ltb 2147483647 v then OutOfRange
    else Value v.

(** [os << i] for an [int] after [os.fill(c)] and [os.width(w)]: the
    decimal text of [i], padded on the left to [w] characters, the
    adjustment being to the right by default. *)
Definition put_int (w : nat) (c : ascii) (i : Z) : list ascii :=
  let text := list_ascii_of_string (NilZero.string_of_int (Z.to_int i)) in
  (repeat c (w - length text) ++ text)%list.

End Std.

(** [stepIDFromFilename], as the newer revision (part_000) has it, with
    the two indices held in [std::size_t]. *)
Definition stepIDFromFilename (filename : list ascii) : Std.stoi_result :=
  let lastindex := Std.find_last_of "." filename in
  let rawname :=
    match lastindex with
    | Some lastindex => Std.substr 0 lastindex filename
    | None => filename
    end in
  let underscore_index := Std.find_last_of "_" rawname in
  let stepno_string :=
    match underscore_index with
    | Some underscore_index => Std.substr_from (underscore_index + 1) rawname
    | None => list_ascii_of_string "-1"
    end in
  Std.stoi stepno_string.

(** [formatSuffix] (part_000). *)
Definition formatSuffix (i : Z) : list ascii := Std.put_int 6 "0" i.

(** ** Sample data *)

Module Sample.

(** A cell of unit density and pressure with the given tracer, rate and
    heating term; every diagnostic component is 1 and no neighbour is
    present. *)
Definition cell (adv rate heat : Q) : GridCell Q :=
  mkGridCell (fun _ => 2) 1
    (fun k => match k with DEN => 1 | PRE => 1 | ADV => adv | _ => 0 end)
    (fun k => match k with DEN => 1 | PRE => 1 | ADV => adv | _ => 0 end)
    (fun _ => 0) (fun _ => 0) (fun _ => 0)
    (fun k => match k with RATE => rate | HEAT => heat | _ => 0 end)
    (fun _ => 1) (fun _ => (-1)%Z) (fun _ => 0.25) 100 (5 # 3).

(** A cell of unit density at pressure 1000, above the default switch. *)
Definition warm (rate heat : Q) : GridCell Q :=
  mkGridCell (fun _ => 2) 1
    (fun k => match k with DEN => 1 | PRE => 1000 | ADV => 1 | _ => 0 end)
    (fun k => match k with DEN => 1 | PRE => 1000 | ADV => 1 | _ => 0 end)
    (fun _ => 0) (fun _ => 0) (fun _ => 0)
    (fun k => match k with RATE => rate | HEAT => heat | _ => 0 end)
    (fun _ => 1) (fun _ => (-1)%Z) (fun _ => 0.25) 100 (5 # 3).

(** The same cell with column densities [a] and [b]. *)
Definition withColDen (c : GridCell Q) (a b : Q) : GridCell Q :=
  set_T c (upd (upd (c_T c) COL_DEN a) DCOL_DEN b).

(** The same cell with upwind neighbours [n0] and [n1]. *)
Definition linked (c : GridCell Q) (n0 n1 : Z) : GridCell Q :=
  mkGridCell (xc c) (ds c) (c_Q c) (c_U c) (c_W c) (c_UDOT c) (c_GRAV c)
             (c_T c) (c_H c)
             (fun i => match i with 0%nat => n0 | 1%nat => n1 | _ => (-1)%Z end)
             (neighbourWeights c) (T_min c) (heatCapacityRatio c).

(** Three cells in a row; the star sits in cell 0, which is the wind
    region, and the other two cells follow in causal order. *)
Definition ordering (name : string) : list nat :=
  if String.eqb name "CausalWind" then [0%nat]
  else if String.eqb name "CausalNonWind" then [1%nat; 2%nat]
  else if String.eqb name "GridCells" then [0%nat; 1%nat; 2%nat]
  else [].

Definition consts : Constants :=
  mkConstants 1 3 1 1 1 1 (1 # 1000) (1 # 1000) 1.

Definition fluid (c0 c1 c2 : GridCell Q) (star_on : bool) : Fluid :=
  mkFluid
    (mkGrid [c0; c1; c2] (fun _ => 1) ordering (fun i => pred i) S 0 0)
    (mkStar star_on HERE (fun _ => 2) 1 0 0)
    (mkPartition [] [] [])
    consts 1.

(** Rate formulas made constant: every <cmath> function returns 1. *)
Definition libm : Cmath :=
  mkCmath (fun _ => 1) (fun _ => 1) (fun _ => 1) (fun _ => 1) (fun _ _ => 1).

(** A thermodynamics object whose cooling coefficients vanish. *)
Definition thermo (subcycling : bool) (switch : Q) : Thermo :=
  mkThermo consts subcycling switch 1 1 false
           0 0 0 0 0 0 0 0 0 1 1 0 0 1 1 0 0 0 100
           (fun _ => 0) (fun _ => 0).

Definition mpi : MPIW := mkMPIW 0 1 (fun _ => []).

(** A cell of binary64 values with the given density, pressure, energy
    U[PRE] and velocity Q[VEL+0]. *)
Definition fcell (den pre upre vel : float) : GridCell float :=
  mkGridCell (fun _ => 0%float) 1%float
    (fun k => match k with
              | DEN => den | PRE => pre | VEL 0 => vel | _ => 0%float
              end)
    (fun k => match k with
              | DEN => den | PRE => upre | _ => 0%float
              end)
    (fun _ => 0%float) (fun _ => 0%float) (fun _ => 0%float)
    (fun _ => 0%float) (fun _ => 0%float) (fun _ => (-1)%Z)
    (fun _ => 0%float) 100%float 1.5%float.

(** A fluid that is just its list of cells, left alone by every
    operation. *)
Definition ops : Torch.FluidOps (list (GridCell float)) :=
  Torch.mkFluidOps _ id id id id id id (fun _ => id) id (fun _ => id).

(** An integrator that asks for the time step [dt] and changes nothing. *)
Definition idle (name : string) (dt : Q)
  : Integrator.t (list (GridCell float)) :=
  Integrator.mk name id (fun _ _ => dt) (fun _ => id) (fun _ => id).

(** A stepper with all three components active, tmax = 1 and
    dt_max = 1/10. *)
Definition state (cs : list (GridCell float)) (debug first_time : bool)
  : Torch.State (list (GridCell float)) :=
  Torch.mkState cs debug true true 1 (1 # 10) 0
                [Torch.HYDRO; Torch.THERMO; Torch.RAD]
                false first_time [] [] [] [].

End Sample.

(** ** Further sample data *)

Module Example.

(** A thermodynamics object that takes the temperature floor from the
    initial state; its cooling coefficients vanish. *)
Definition thermoInitialFloor : Thermo :=
  mkThermo Sample.consts true 0.5 1 1 true
           0 0 0 0 0 0 0 0 0 1 1 0 0 1 1 0 0 0 100
           (fun _ => 0) (fun _ => 0).

(** Operations that leave a fluid alone and show no cell to
    checkValues. *)
Definition fluidOps : Torch.FluidOps Fluid :=
  Torch.mkFluidOps _ id id id id id id (fun _ => id) (fun _ => [])
                   (fun _ => id).

(** A stepper on the fluid [f] after its first call of calculateTimeStep,
    with cooling and radiation on, tmax = 1 and dt_max = 100. *)
Definition cooling (f : Fluid) : Torch.State Fluid :=
  Torch.mkState f false true true 1 100 0
                [Torch.HYDRO; Torch.THERMO; Torch.RAD]
                false false [] [] [] [].

(** An integrator on fluids that asks for the time step [dt] and changes
    nothing. *)
Definition idle (name : string) (dt : Q) : Integrator.t Fluid :=
  Integrator.mk name id (fun _ _ => dt) (fun _ => id) (fun _ => id).

(** A stepper whose only active component is hydrodynamics. *)
Definition hydroOnly (cs : list (GridCell float))
  : Torch.State (list (GridCell float)) :=
  Torch.mkState cs false false false 1 (1 # 10) 0 [Torch.HYDRO]
                false false [] [] [] [].

End Example.

(** * Predicates used in the statements *)

(** The fields of a cell that the thermodynamics integrator never writes. *)
Definition sameState (c c' : GridCell Q) : Prop :=
  xc c' = xc c /\ ds c' = ds c /\ c_Q c' = c_Q c /\ c_U c' = c_U c /\
  c_W c' = c_W c /\ c_GRAV c' = c_GRAV c /\
  neighbourIDs c' = neighbourIDs c /\
  neighbourWeights c' = neighbourWeights c /\ T_min c' = T_min c /\
  heatCapacityRatio c' = heatCapacityRatio c.

(** The parts of a fluid that a loop over cells leaves alone. *)
Definition sameFrame (f f' : Fluid) : Prop :=
  star f' = star f /\ partition f' = partition f /\
  fluid_consts f' = fluid_consts f /\
  fluid_massFractionH f' = fluid_massFractionH f /\
  dx (grid f') = dx (grid f) /\
  orderedIndices (grid f') = orderedIndices (grid f) /\
  left0 (grid f') = left0 (grid f) /\ right0 (grid f') = right0 (grid f) /\
  currentTime (grid f') = currentTime (grid f) /\
  deltatime (grid f') = deltatime (grid f) /\
  length (cells (grid f')) = length (cells (grid f)).

(** [c'] is [c] up to T[COL_DEN] and T[DCOL_DEN]. *)
Definition onlyColDen (c c' : GridCell Q) : Prop :=
  c_T c' RATE = c_T c RATE /\ c_T c' HEAT = c_T c HEAT /\
  c_H c' = c_H c /\ c_UDOT c' = c_UDOT c /\ sameState c c'.

(** [f'] is [f] up to the message queues and the column densities. *)
Definition colDenOnly (f f' : Fluid) : Prop :=
  star f' = star f /\
  orderedIndices (grid f') = orderedIndices (grid f) /\
  forall (id : nat) c,
    cells (grid f) !! id = Some c ->
    exists c', cells (grid f') !! id = Some c' /\ onlyColDen c c'.

(** The state of a cell below the switch after preTimeStepCalculations:
    T[RATE] is zero; the heating term and the diagnostics are as before. *)
Definition rateSwitchedOff (c c' : GridCell Q) : Prop :=
  c_T c' RATE = 0 /\ c_T c' HEAT = c_T c HEAT /\ c_H c' = c_H c /\
  c_Q c' = c_Q c.

(** The state of a cell below the switch after a sub-cycling integrate:
    T[RATE] and every diagnostic component are zero. *)
Definition heatingSwitchedOff (c c' : GridCell Q) : Prop :=
  c_T c' RATE = 0 /\ (forall i, c_H c' i = 0) /\
  c_T c' HEAT = c_T c HEAT /\ c_Q c' = c_Q c.

(** What updateSourceTerms has done to a cell that started as [c]: the
    rate went into UDOT[PRE], T[RATE] and T[HEAT] are zero, and nothing
    else has changed. *)
Definition rateConsumed (c c' : GridCell Q) : Prop :=
  c_UDOT c' PRE == c_UDOT c PRE + c_T c RATE /\
  c_T c' RATE = 0 /\ c_T c' HEAT = 0 /\
  (forall k, k <> PRE -> c_UDOT c' k = c_UDOT c k) /\
  c_T c' COL_DEN = c_T c COL_DEN /\ c_T c' DCOL_DEN = c_T c DCOL_DEN /\
  c_H c' = c_H c /\ sameState c c'.

(** The weights at the end of updateColDen, and their sum. *)
Definition finalWeight (g : Grid) (cell : GridCell Q) (i : nat) : Q :=
  fst (Thermodynamics.renormalise g cell) i.

Definition finalWeightSum (g : Grid) (cell : GridCell Q) : Q :=
  finalWeight g cell 0 + finalWeight g cell 1
  + finalWeight g cell 2 + finalWeight g cell 3.

(** [temp2pre] of a cell: mu_inv * specificGasConstant * Q[DEN]. *)
Definition temp2pre (self : Thermo) (cell : GridCell Q) : Q :=
  (m_massFractionH self * (c_Q cell HII + 1)
   + (1 - m_massFractionH self) * 0.25)
  * specificGasConstant (m_consts self) * c_Q cell DEN.


(** The smallest of the time steps that the active components ask for:
    a component that is switched off takes the value of hydrodynamics. *)
Definition componentMinimum {F : Type}
    (hydrodynamics radiation thermodynamics : Integrator.t F)
    (t : Torch.State F) (f : F) : Q :=
  let dt_hydro :=
    Integrator.calculateTimeStep hydrodynamics (Torch.dt_max t) f in
  let dt_rad :=
    if Torch.radiation_on t
    then Integrator.calculateTimeStep radiation (Torch.dt_max t) f
    else dt_hydro in
  let dt_thermo :=
    if Torch.cooling_on t
    then Integrator.calculateTimeStep thermodynamics (Torch.dt_max t) f
    else dt_hydro in
  Num.std_min (Num.std_min dt_hydro dt_rad) dt_thermo.

(** The values returned by successive invocations of calculateTimeStep in
    one run, the fluid having reached [f] before the invocation. *)
Fixpoint invocations {F : Type} (rev : Torch.Revision)
    (ops : Torch.FluidOps F)
    (hydrodynamics radiation thermodynamics : Integrator.t F)
    (minimum : Q -> Q) (getRank : Z) (fs : list F) (t : Torch.State F)
  : list Q :=
  match fs with
  | [] => []
  | f :: fs' =>
      match Torch.calculateTimeStep rev ops hydrodynamics radiation
                                    thermodynamics minimum getRank
                                    (Torch.set_fluid t f) with
      | Torch.Ok dt t' =>
          dt :: invocations rev ops hydrodynamics radiation thermodynamics
                            minimum getRank fs' t'
      | _ => []
      end
  end.


(** The sub-steps of one outer step as the specification lists them, for
    [n] active components and the advanced step counter [sc]: a forward
    pass over i = 0 .. n-1 and a reverse pass over i = n-2 .. 0, on the
    component active[(i + sc) mod n]; the time step is dt for the last
    forward sub-step and dt/2 otherwise; only the first sub-step has the
    flag set. *)
Definition palindrome {F : Type}
    (component : Torch.ComponentID -> Integrator.t F)
    (active : list Torch.ComponentID) (sc : Z) (dt : Q)
  : list (Torch.SubStepCall F) :=
  let n := length active in
  let at_ (i : nat) :=
    component (nth (Z.to_nat ((Z.of_nat i + sc) mod Z.of_nat n)) active
                   Torch.HYDRO) in
  (map (fun i => Torch.mkCall (if Nat.eqb i (n - 1) then dt else dt / 2)
                              (Nat.eqb i 0) (at_ i))
       (seq 0 n)
   ++ map (fun i => Torch.mkCall (dt / 2) false (at_ i))
          (List.rev (seq 0 (n - 1))))%list.

(** ** Predicates of the further properties *)

(** The local thermal time step that calculateTimeStep reads off a cell
    with a non-zero rate. *)
Definition thermalStep (self : Thermo) (cell : GridCell Q) : Q :=
  Qabs ((if m_isSubcycling self then 1.0 else 0.1) * c_U cell PRE
        / c_T cell RATE).

(** The same thermodynamics object with sub-cycling switched on or off. *)
Definition withSubcycling (self : Thermo) (b : bool) : Thermo :=
  mkThermo (m_consts self) b (m_thermoHII_Switch self)
           (m_heatingAmplification self) (m_massFractionH self)
           (m_minTempInitialState self) (m_z0 self)
           (m_T1 self) (m_T2 self) (m_T3 self) (m_T4 self)
           (m_imlc self) (m_nmlc self) (m_ciec_minT self) (m_ciec self)
           (m_cxhi_damp self) (m_n0 self) (m_nmc self)
           (m_fuvh_a self) (m_fuvh_b self) (m_fuvh_c self)
           (m_irh_a self) (m_irh_b self) (m_crh self) (m_T_min self)
           (m_collisionalExcitationHI_CoolingRates self)
           (m_recombinationHII_CoolingRates self).

(** [rate2dpre] of integrate: min(dt, dti) * (gamma - 1). *)
Definition rate2dpre (dt : Q) (cell : GridCell Q) : Q :=
  Num.xmin dt (Num.abs_div (0.10 * c_U cell PRE) (c_T cell RATE))
  * (heatCapacityRatio cell - 1.0).

(** The pressure that integrate has reached in a cell [cell'] that started
    as [cell]: the rate written back is (p - Q[PRE]) / rate2dpre. *)
Definition reachedPressure (dt : Q) (cell cell' : GridCell Q) : Q :=
  c_Q cell PRE + c_T cell' RATE * rate2dpre dt cell.

(** [c'] is [c] up to T[RATE] and the diagnostics H. *)
Definition onlyRate (c c' : GridCell Q) : Prop :=
  c_T c' COL_DEN = c_T c COL_DEN /\ c_T c' DCOL_DEN = c_T c DCOL_DEN /\
  c_T c' HEAT = c_T c HEAT /\ c_UDOT c' = c_UDOT c /\ sameState c c'.

(** [c'] is [c] up to the thermodynamic values T. *)
Definition onlyThermo (c c' : GridCell Q) : Prop :=
  c_H c' = c_H c /\ c_UDOT c' = c_UDOT c /\ sameState c c'.

(** The fluid-wide constants, which no loop of the integrator writes. *)
Definition sameConsts (f f' : Fluid) : Prop :=
  fluid_consts f' = fluid_consts f /\
  fluid_massFractionH f' = fluid_massFractionH f.

(** What one thermodynamics sub-step does to a cell below the switch that
    started as [c]: no source term is added, T[RATE] and T[HEAT] end at
    zero. *)
Definition noSourceTerm (c c' : GridCell Q) : Prop :=
  c_UDOT c' PRE == c_UDOT c PRE /\
  (forall k, k <> PRE -> c_UDOT c' k = c_UDOT c k) /\
  c_T c' RATE = 0 /\ c_T c' HEAT = 0 /\ sameState c c'.

(** A cell below the switch whose rate is zero and that is [c] otherwise,
    up to the other thermodynamic values and the diagnostics. *)
Definition switchedOff (c c' : GridCell Q) : Prop :=
  c_T c' RATE = 0 /\ c_UDOT c' = c_UDOT c /\ sameState c c'.

(** [c'] is [c] with the temperature floor [floor]. *)
Definition floorSet (floor : Q) (c c' : GridCell Q) : Prop :=
  T_min c' = floor /\
  xc c' = xc c /\ ds c' = ds c /\ c_Q c' = c_Q c /\ c_U c' = c_U c /\
  c_W c' = c_W c /\ c_UDOT c' = c_UDOT c /\ c_GRAV c' = c_GRAV c /\
  c_T c' = c_T c /\ c_H c' = c_H c /\
  neighbourIDs c' = neighbourIDs c /\
  neighbourWeights c' = neighbourWeights c /\
  heatCapacityRatio c' = heatCapacityRatio c.

(** The weight with which neighbour [i] enters the new column density:
    its neighbourWeight, or 0 when its colden is 0. *)
Definition contributing (g : Grid) (cell : GridCell Q) (i : nat) : Q :=
  if Num.eqb (Thermodynamics.colden g cell i) 0 then 0
  else neighbourWeights cell i.

(** Two cells agree: the same thermodynamic values, and every other member
    the same. *)
Definition sameCell (c c' : GridCell Q) : Prop :=
  (forall k, c_T c' k = c_T c k) /\ c_H c' = c_H c /\
  c_UDOT c' = c_UDOT c /\ sameState c c'.

(** Two fluids hold the same cells. *)
Definition sameCells (f f' : Fluid) : Prop :=
  forall id : nat,
    match cells (grid f) !! id, cells (grid f') !! id with
    | Some c, Some c' => sameCell c c'
    | None, None => True
    | _, _ => False
    end.

(** An ordering is causal when no cell of it reads, through its four
    upwind neighbours, the cell itself or a cell that comes later in the
    ordering. *)
Definition causal (g : Grid) (ids : list nat) : Prop :=
  forall pre (id : nat) post c (i : nat),
    ids = (pre ++ id :: post)%list ->
    cells g !! id = Some c -> (i < 4)%nat ->
    neighbourIDs c i <> (-1)%Z ->
    Z.to_nat (neighbourIDs c i) ∉ id :: post.

(** The fluid that one call of subStep hands to its second check. *)
Definition subStepFluid {F : Type} (ops : Torch.FluidOps F) (dt : Q)
    (hasCalculatedHeatFlux : bool) (comp : Integrator.t F) (f : F) : F :=
  let f :=
    if negb hasCalculatedHeatFlux
    then Integrator.preTimeStepCalculations comp
           (Torch.fixPrimitives ops (Torch.globalQfromU ops f))
    else f in
  Torch.fixSolution ops
    (Torch.advSolution ops dt
       (Integrator.updateSourceTerms comp dt (Integrator.integrate comp dt f))).

(** No cell of the fluid has an error. *)
Definition errorFree {F : Type} (ops : Torch.FluidOps F) (f : F) : Prop :=
  existsb Torch.hasError (Torch.getGridCells ops f) = false.

(** How a member function ends when checkValues has found an error: the
    newer revision throws, the older one exits with status 0. *)
Definition fatal {F A : Type} (rev : Torch.Revision) (o : Torch.Outcome F A)
  : Prop :=
  match o with
  | Torch.Ok _ _ => False
  | Torch.Thrown _ _ => rev = Torch.Part000
  | Torch.Exited status _ => rev = Torch.Part001 /\ status = 0%Z
  end.

(** A cell that checkValues accepts: no conservative component is NaN or
    infinite, and neither the density nor the pressure compares equal to
    zero. *)
Definition accepted (cell : GridCell float) : Prop :=
  (forall i, In i UID_all ->
             PrimFloat.is_nan (c_U cell i) = false /\
             PrimFloat.is_infinity (c_U cell i) = false) /\
  PrimFloat.eqb (c_Q cell DEN) 0 = false /\
  PrimFloat.eqb (c_Q cell PRE) 0 = false.

(** The fluid at the end of one call of hydroStep. *)
Definition hydroStepFluid {F : Type} (ops : Torch.FluidOps F)
    (hydrodynamics : Integrator.t F) (dt : Q) (hasCalculatedHeatFlux : bool)
    (f : F) : F :=
  let f := Torch.globalWfromU ops f in
  let f :=
    if negb hasCalculatedHeatFlux
    then Integrator.preTimeStepCalculations hydrodynamics
           (Torch.fixPrimitives ops (Torch.globalQfromU ops f))
    else f in
  let f := Integrator.integrate hydrodynamics dt f in
  let f := Integrator.updateSourceTerms hydrodynamics dt f in
  let f := Torch.advSolution ops (dt / 2.0) f in
  let f := Torch.fixSolution ops f in
  let f := Torch.globalQfromU ops f in
  let f := Torch.globalUfromW ops f in
  let f := Integrator.integrate hydrodynamics dt f in
  let f := Integrator.updateSourceTerms hydrodynamics dt f in
  let f := Torch.advSolution ops dt f in
  Torch.fixSolution ops f.

(** The fluid for which fullStep asks the components for their time
    steps: primitives recomputed and fixed, then the preparations of
    thermodynamics and of radiation when they are on. *)
Definition preludeFluid {F : Type} (ops : Torch.FluidOps F)
    (radiation thermodynamics : Integrator.t F) (t : Torch.State F) : F :=
  let f := Torch.fixPrimitives ops (Torch.globalQfromU ops (Torch.fluid t)) in
  let f :=
    if Torch.cooling_on t
    then Integrator.preTimeStepCalculations thermodynamics f else f in
  if Torch.radiation_on t
  then Integrator.preTimeStepCalculations radiation f else f.



(** A file name made of a base, an underscore, a word, a dot and an
    extension. *)
Definition fileName (base word ext : list ascii) : list ascii :=
  (base ++ "_"%char :: word ++ "."%char :: ext)%list.

(** * Properties

    ** Comparisons on doubles *)

Module NumFacts.

Lemma ltb_lt a b : Num.ltb a b = true <-> a < b.
Proof.
  unfold Num.ltb. rewrite negb_true_iff, <- not_true_iff_false, Qle_bool_iff.
  split; [apply Qnot_le_lt | apply Qlt_not_le].
Qed.

Lemma ltb_ge a b : Num.ltb a b = false <-> b <= a.
Proof. unfold Num.ltb. rewrite negb_false_iff. apply Qle_bool_iff. Qed.

Lemma leb_le a b : Num.leb a b = true <-> a <= b.
Proof. apply Qle_bool_iff. Qed.

Lemma leb_gt a b : Num.leb a b = false <-> b < a.
Proof.
  unfold Num.leb. rewrite <- not_true_iff_false, Qle_bool_iff.
  split; [apply Qnot_le_lt | apply Qlt_not_le].
Qed.

Lemma eqb_eq a b : Num.eqb a b = true <-> a == b.
Proof. apply Qeq_bool_iff. Qed.

Lemma eqb_neq a b : Num.eqb a b = false <-> ~ a == b.
Proof. unfold Num.eqb. rewrite <- not_true_iff_false, Qeq_bool_iff. tauto. Qed.

Lemma std_max_ge_l a b : a <= Num.std_max a b.
Proof.
  unfold Num.std_max. destruct (Num.ltb a b) eqn:E.
  - apply ltb_lt in E. lra.
  - lra.
Qed.

Lemma std_max_ge_r a b : b <= Num.std_max a b.
Proof.
  unfold Num.std_max. destruct (Num.ltb a b) eqn:E.
  - lra.
  - apply ltb_ge in E. lra.
Qed.

Lemma to_int_nonneg n d : (0 <= n)%Z -> Num.to_int (n # d) = (n / Zpos d)%Z.
Proof.
  intros H. unfold Num.to_int. simpl. apply Z.quot_div_nonneg; lia.
Qed.

Lemma scaled_lt t p T : 0 < t -> (p * (1.0 / t) < T <-> p < T * t).
Proof.
  intros Ht.
  assert (E : p * (1.0 / t) == p / t) by (field; lra).
  rewrite E. split; intros H.
  - apply (Qmult_lt_r _ _ t Ht) in H.
    assert (E' : p / t * t == p) by (field; lra).
    now rewrite E' in H.
  - apply Qlt_shift_div_r; assumption.
Qed.


(** [std::abs(a / b)] is finite and below [dt]: the comparison [dt > dti]
    holds and [std::min(dt, dti)] is [dti]. *)
Lemma sub_cycle a b dt :
  ~ b == 0 -> Qabs (a / b) < dt ->
  Num.abs_div a b = Num.Fin (Qabs (a / b)) /\
  Num.xgtb dt (Num.abs_div a b) = true /\
  Num.xmin dt (Num.abs_div a b) = Qabs (a / b).
Proof.
  intros Hb H. unfold Num.abs_div.
  apply eqb_neq in Hb. rewrite Hb.
  unfold Num.xgtb, Num.xmin, Num.std_min.
  apply ltb_lt in H. now rewrite H.
Qed.

Ltac cases :=
  repeat match goal with
         | |- context [if ?b then _ else _] => destruct b eqn:?
         end;
  repeat match goal with
         | H : Num.ltb _ _ = true |- _ => apply ltb_lt in H
         | H : Num.ltb _ _ = false |- _ => apply ltb_ge in H
         | H : Num.leb _ _ = true |- _ => apply leb_le in H
         | H : Num.leb _ _ = false |- _ => apply leb_gt in H
         | H : Num.eqb _ _ = true |- _ => apply eqb_eq in H
         | H : Num.eqb _ _ = false |- _ => apply eqb_neq in H
         end.

End NumFacts.

(** ** Arrays *)

Lemma upd_eq {K V} `{EqDecision K} (a : K -> V) k v : upd a k v k = v.
Proof. unfold upd. destruct (decide (k = k)); congruence. Qed.

Lemma upd_ne {K V} `{EqDecision K} (a : K -> V) k v j :
  j <> k -> upd a k v j = a j.
Proof. unfold upd. intros ?. destruct (decide (j = k)); congruence. Qed.

(** ** Loops over a cell ordering *)

Module GridFacts.

Lemma sameState_refl c : sameState c c.
Proof. unfold sameState. tauto. Qed.

Lemma sameState_trans c1 c2 c3 :
  sameState c1 c2 -> sameState c2 c3 -> sameState c1 c3.
Proof. unfold sameState. intuition congruence. Qed.

Lemma sameFrame_refl f : sameFrame f f.
Proof. unfold sameFrame. tauto. Qed.

Lemma sameFrame_trans f1 f2 f3 :
  sameFrame f1 f2 -> sameFrame f2 f3 -> sameFrame f1 f3.
Proof. unfold sameFrame. intuition congruence. Qed.

Lemma modifyCell_frame id h f :
  sameFrame f (set_grid f (modifyCell id h (grid f))).
Proof.
  unfold sameFrame, set_grid, modifyCell, set_cells. simpl.
  repeat split; try reflexivity. apply length_alter.
Qed.

Lemma forCells_cons body id ids f :
  forCells body (id :: ids) f
  = forCells body ids (set_grid f (modifyCell id (body f) (grid f))).
Proof. reflexivity. Qed.

Lemma forCells_frame body ids : forall f, sameFrame f (forCells body ids f).
Proof.
  induction ids as [|id ids IH]; intros f.
  - apply sameFrame_refl.
  - rewrite forCells_cons.
    eapply sameFrame_trans; [apply modifyCell_frame | apply IH].
Qed.

Lemma lookup_modifyCell_eq id h (f : Fluid) :
  cells (grid (set_grid f (modifyCell id h (grid f)))) !! id
  = h <$> cells (grid f) !! id.
Proof. simpl. apply list_lookup_alter_eq. Qed.

Lemma lookup_modifyCell_ne id j h (f : Fluid) :
  id <> j ->
  cells (grid (set_grid f (modifyCell id h (grid f)))) !! j
  = cells (grid f) !! j.
Proof. intros Hne. simpl. now apply list_lookup_alter_ne. Qed.

(** A cell that the ordering does not list is not touched. *)
Lemma forCells_other body (id : nat) ids :
  forall f, id ∉ ids ->
            cells (grid (forCells body ids f)) !! id = cells (grid f) !! id.
Proof.
  induction ids as [|j ids IH]; intros f Hid; [reflexivity|].
  rewrite forCells_cons, IH.
  - apply lookup_modifyCell_ne. intros ->. apply Hid. left.
  - intros Hin. apply Hid. now right.
Qed.

(** A property that the loop body keeps holds of a cell at the end of the
    loop if it held at the start. *)
Lemma forCells_keeps (P : GridCell Q -> Prop) body :
  (forall f c, P c -> P (body f c)) ->
  forall ids f (id : nat) c,
    cells (grid f) !! id = Some c -> P c ->
    exists c', cells (grid (forCells body ids f)) !! id = Some c' /\ P c'.
Proof.
  intros Hkeep. induction ids as [|j ids IH]; intros f id c Hc HP.
  - exists c. now split.
  - rewrite forCells_cons. destruct (decide (j = id)) as [->|Hne].
    + apply (IH _ id (body f c)); [|now apply Hkeep].
      rewrite lookup_modifyCell_eq, Hc. reflexivity.
    + apply (IH _ id c); [|exact HP].
      rewrite lookup_modifyCell_ne by exact Hne. exact Hc.
Qed.

(** A property that the loop body establishes on the start value [c] of a
    cell, and keeps afterwards, holds at the end of the loop of every cell
    that the ordering lists. *)
Lemma forCells_visited (P : GridCell Q -> Prop) body (c : GridCell Q) :
  (forall f, P (body f c)) ->
  (forall f c', P c' -> P (body f c')) ->
  forall ids f (id : nat),
    cells (grid f) !! id = Some c -> id ∈ ids ->
    exists c', cells (grid (forCells body ids f)) !! id = Some c' /\ P c'.
Proof.
  intros Hfirst Hkeep. induction ids as [|j ids IH]; intros f id Hc Hin.
  - inversion Hin.
  - rewrite forCells_cons. destruct (decide (j = id)) as [->|Hne].
    + apply (forCells_keeps P body Hkeep ids _ id (body f c)).
      * rewrite lookup_modifyCell_eq, Hc. reflexivity.
      * apply Hfirst.
    + apply IH.
      * rewrite lookup_modifyCell_ne by exact Hne. exact Hc.
      * apply elem_of_cons in Hin as [Heq|Hin]; [congruence | exact Hin].
Qed.

(** When the ordering lists a cell once and the body does not read the
    fluid, the cell ends as the body of its start value. *)
Lemma forCells_once (h : GridCell Q -> GridCell Q) ids :
  forall f (id : nat) c,
    NoDup ids -> id ∈ ids -> cells (grid f) !! id = Some c ->
    cells (grid (forCells (fun _ => h) ids f)) !! id = Some (h c).
Proof.
  induction ids as [|j ids IH]; intros f id c Hnd Hin Hc.
  - inversion Hin.
  - rewrite forCells_cons. apply NoDup_cons in Hnd as [Hj Hnd].
    destruct (decide (j = id)) as [->|Hne].
    + rewrite forCells_other by exact Hj.
      rewrite lookup_modifyCell_eq, Hc. reflexivity.
    + apply IH; [exact Hnd | |].
      * apply elem_of_cons in Hin as [Heq|Hin]; [congruence | exact Hin].
      * rewrite lookup_modifyCell_ne by exact Hne. exact Hc.
Qed.

End GridFacts.

(** ** Thermodynamics::rayTrace writes column densities only *)

Module RayTraceFacts.

Lemma onlyColDen_refl c : onlyColDen c c.
Proof. unfold onlyColDen. auto using GridFacts.sameState_refl. Qed.

Lemma onlyColDen_trans c1 c2 c3 :
  onlyColDen c1 c2 -> onlyColDen c2 c3 -> onlyColDen c1 c3.
Proof.
  intros (? & ? & ? & ? & ?) (? & ? & ? & ? & ?).
  unfold onlyColDen.
  split; [congruence|]. split; [congruence|].
  split; [congruence|]. split; [congruence|].
  eapply GridFacts.sameState_trans; eassumption.
Qed.

Lemma onlyColDen_set_T c a b :
  onlyColDen c (set_T c (upd (upd (c_T c) COL_DEN a) DCOL_DEN b)).
Proof.
  unfold onlyColDen, sameState. simpl.
  repeat apply conj; reflexivity.
Qed.

Lemma updateColDen_onlyColDen self g c dist2 :
  onlyColDen c (Thermodynamics.updateColDen self g c dist2).
Proof.
  unfold Thermodynamics.updateColDen.
  destruct (Num.ltb _ _); apply onlyColDen_set_T.
Qed.

Lemma colDenOnly_refl f : colDenOnly f f.
Proof.
  repeat split. intros id c Hc. exists c. auto using onlyColDen_refl.
Qed.

Lemma colDenOnly_trans f1 f2 f3 :
  colDenOnly f1 f2 -> colDenOnly f2 f3 -> colDenOnly f1 f3.
Proof.
  intros (Hs1 & Ho1 & H1) (Hs2 & Ho2 & H2).
  split; [congruence|]. split; [congruence|].
  intros id c Hc. destruct (H1 id c Hc) as (c2 & Hc2 & R12).
  destruct (H2 id c2 Hc2) as (c3 & Hc3 & R23).
  exists c3. eauto using onlyColDen_trans.
Qed.

Lemma colDenOnly_set_partition f p : colDenOnly f (set_partition f p).
Proof.
  repeat split. intros id c Hc. exists c. auto using onlyColDen_refl.
Qed.

Lemma colDenOnly_modifyCell f id h :
  (forall c, onlyColDen c (h c)) ->
  colDenOnly f (set_grid f (modifyCell id h (grid f))).
Proof.
  intros Hh. repeat split. intros j c Hc.
  destruct (decide (id = j)) as [->|Hne].
  - exists (h c). rewrite GridFacts.lookup_modifyCell_eq, Hc. auto.
  - exists c. rewrite GridFacts.lookup_modifyCell_ne by exact Hne.
    auto using onlyColDen_refl.
Qed.

Lemma sweepColDen_colDenOnly self ids :
  forall f, colDenOnly f (Thermodynamics.sweepColDen self f ids).
Proof.
  unfold Thermodynamics.sweepColDen.
  induction ids as [|id ids IH]; intros f; [apply colDenOnly_refl|].
  rewrite GridFacts.forCells_cons.
  eapply colDenOnly_trans; [|apply IH].
  apply colDenOnly_modifyCell. intros c. apply updateColDen_onlyColDen.
Qed.

Lemma recvGhosts_colDenOnly ids :
  forall f, colDenOnly f (Thermodynamics.recvGhosts f ids).
Proof.
  unfold Thermodynamics.recvGhosts.
  induction ids as [|id ids IH]; intros f; [apply colDenOnly_refl|].
  simpl. eapply colDenOnly_trans; [|apply IH].
  destruct (getRecvItem (partition f)) as [a p].
  destruct (getRecvItem p) as [b p'].
  eapply colDenOnly_trans; [|apply colDenOnly_set_partition].
  apply colDenOnly_modifyCell. intros c. apply onlyColDen_set_T.
Qed.

Lemma queueColDen_colDenOnly inner ids :
  forall f, colDenOnly f (Thermodynamics.queueColDen f inner ids).
Proof.
  unfold Thermodynamics.queueColDen.
  induction ids as [|id ids IH]; intros f; [apply colDenOnly_refl|].
  simpl. eapply colDenOnly_trans; [|apply IH].
  apply colDenOnly_set_partition.
Qed.

Lemma rayTrace_colDenOnly self mpihandler f :
  colDenOnly f (Thermodynamics.rayTrace self mpihandler f).
Proof.
  unfold Thermodynamics.rayTrace.
  repeat match goal with
         | |- colDenOnly _ (let x := _ in _) => cbv zeta
         | |- colDenOnly _ (if ?b then _ else _) => destruct b
         | |- colDenOnly ?f ?f => apply colDenOnly_refl
         | |- colDenOnly _ (set_partition _ _) =>
             eapply colDenOnly_trans; [|apply colDenOnly_set_partition]
         | |- colDenOnly _ (Thermodynamics.queueColDen _ _ _) =>
             eapply colDenOnly_trans; [|apply queueColDen_colDenOnly]
         | |- colDenOnly _ (Thermodynamics.sweepColDen _ _ _) =>
             eapply colDenOnly_trans; [|apply sweepColDen_colDenOnly]
         | |- colDenOnly _ (Thermodynamics.recvGhosts _ _) =>
             eapply colDenOnly_trans; [|apply recvGhosts_colDenOnly]
         end.
Qed.

End RayTraceFacts.

(** ** The ionisation switch of the thermodynamics integrator *)

Lemma preTimeStepCell_below libm self f c0 c :
  c_Q c0 ADV < m_thermoHII_Switch self ->
  c_Q c = c_Q c0 -> c_T c HEAT = c_T c0 HEAT -> c_H c = c_H c0 ->
  rateSwitchedOff c0 (Thermodynamics.preTimeStepCell libm self f c).
Proof.
  intros Hlt HQ HT HH. unfold Thermodynamics.preTimeStepCell.
  rewrite HQ. apply NumFacts.ltb_lt in Hlt. rewrite Hlt.
  unfold rateSwitchedOff. simpl. rewrite upd_eq, upd_ne by discriminate.
  auto.
Qed.

Lemma integrateCell_below libm self dt c0 c :
  c_Q c0 ADV < m_thermoHII_Switch self ->
  c_Q c = c_Q c0 -> c_T c HEAT = c_T c0 HEAT ->
  heatingSwitchedOff c0 (Thermodynamics.integrateCell libm self dt c).
Proof.
  intros Hlt HQ HT. unfold Thermodynamics.integrateCell.
  rewrite HQ. apply NumFacts.ltb_lt in Hlt. rewrite Hlt.
  unfold heatingSwitchedOff. simpl. rewrite upd_eq, upd_ne by discriminate.
  auto.
Qed.

(** ** Thermodynamics::updateSourceTerms *)

Lemma updateSourceTermsCell_first c :
  rateConsumed c (Thermodynamics.updateSourceTermsCell c).
Proof.
  unfold rateConsumed, Thermodynamics.updateSourceTermsCell. simpl.
  rewrite !upd_eq. repeat split; try reflexivity.
  intros k Hk. now apply upd_ne.
Qed.

Lemma updateSourceTermsCell_again c c' :
  rateConsumed c c' ->
  rateConsumed c (Thermodynamics.updateSourceTermsCell c').
Proof.
  intros (Hu & Hr & Hh & Hk & Hc & Hd & HH & HS).
  unfold rateConsumed, Thermodynamics.updateSourceTermsCell.
  cbn [set_T set_UDOT c_UDOT c_T c_H].
  rewrite !upd_eq, Hr.
  split; [rewrite Hu; ring|].
  repeat split; try assumption; try reflexivity; try apply HS.
  intros k Hne. rewrite upd_ne by exact Hne. now apply Hk.
Qed.

(** C8. [softLanding] leaves a non-negative rate unchanged; a negative rate
    becomes 0 when [T <= T_min], is scaled by [(T - T_min)/200] when
    [T_min < T <= T_min + 200], and is unchanged above; at
    [T = T_min + 100] a negative rate is halved. *)
Theorem softLanding_cases (rate T T_min : Q) :
  (0 <= rate -> Thermodynamics.softLanding rate T T_min = rate) /\
  (rate < 0 -> T <= T_min -> Thermodynamics.softLanding rate T T_min = 0) /\
  (rate < 0 -> T_min < T -> T <= T_min + 200 ->
     Thermodynamics.softLanding rate T T_min = rate * (T - T_min) / 200) /\
  (rate < 0 -> T_min + 200 < T ->
     Thermodynamics.softLanding rate T T_min = rate) /\
  (rate < 0 ->
     Thermodynamics.softLanding rate (T_min + 100) T_min == rate * 0.5).
Proof.
  unfold Thermodynamics.softLanding.
  repeat apply conj; intros; NumFacts.cases; try reflexivity; try lra.
  field.
Qed.

Lemma softLanding_cases_witness :
  Thermodynamics.softLanding 3 150 100 = 3 /\
  Thermodynamics.softLanding (-4) 90 100 = 0 /\
  Thermodynamics.softLanding (-4) 150 100 = (-4) * (150 - 100) / 200 /\
  Thermodynamics.softLanding (-4) 400 100 = -4 /\
  Thermodynamics.softLanding (-4) (100 + 100) 100 == (-4) * 0.5.
Proof.
  destruct (softLanding_cases 3 150 100) as (H1 & _).
  destruct (softLanding_cases (-4) 90 100) as (_ & H2 & _).
  destruct (softLanding_cases (-4) 150 100) as (_ & _ & H3 & _).
  destruct (softLanding_cases (-4) 400 100) as (_ & _ & _ & H4 & _).
  destruct (softLanding_cases (-4) 0 100) as (_ & _ & _ & _ & H5).
  split; [apply H1; vm_compute; discriminate|].
  split; [apply H2; [reflexivity | vm_compute; discriminate]|].
  split; [apply H3; [reflexivity | reflexivity | vm_compute; discriminate]|].
  split; [apply H4; reflexivity|].
  apply H5; reflexivity.
Defined.

(** C10. After updateSourceTerms every cell of the CausalNonWind ordering
    has had its T[RATE] added into UDOT[PRE] and has T[RATE] = T[HEAT] = 0;
    no other field of such a cell, no other cell and no other part of the
    fluid has changed. *)
Theorem updateSourceTerms_consumes_rate (dt : Q) (f : Fluid) :
  let ids := getOrderedIndices (grid f) "CausalNonWind" in
  let f' := Thermodynamics.updateSourceTerms dt f in
  (forall (id : nat) c,
      id ∈ ids -> cells (grid f) !! id = Some c ->
      exists c', cells (grid f') !! id = Some c' /\ rateConsumed c c') /\
  (forall id : nat,
      id ∉ ids -> cells (grid f') !! id = cells (grid f) !! id) /\
  sameFrame f f'.
Proof.
  cbv zeta. unfold Thermodynamics.updateSourceTerms.
  split; [|split].
  - intros id c Hin Hc.
    apply (GridFacts.forCells_visited (rateConsumed c) _ c); try assumption.
    + intros _. apply updateSourceTermsCell_first.
    + intros _ c'. apply updateSourceTermsCell_again.
  - intros id Hid. now apply GridFacts.forCells_other.
  - apply GridFacts.forCells_frame.
Qed.

Lemma updateSourceTerms_consumes_rate_witness :
  exists c',
    cells (grid (Thermodynamics.updateSourceTerms
                   1 (Sample.fluid (Sample.cell 0 0 0) (Sample.cell 1 (-3) 2)
                                   (Sample.cell 1 4 5) false)))
      !! 1%nat = Some c'
    /\ rateConsumed (Sample.cell 1 (-3) 2) c'.
Proof.
  apply (updateSourceTerms_consumes_rate
           1 (Sample.fluid (Sample.cell 0 0 0) (Sample.cell 1 (-3) 2)
                           (Sample.cell 1 4 5) false)).
  - apply list_elem_of_here.
  - reflexivity.
Defined.

(** C3, as stated, fails.  The cell 1 of this fluid lies below the switch
    and carries diagnostics H[i] = 1 and T[RATE] = 5.
    preTimeStepCalculations sets its T[RATE] to zero and leaves H[TOT] = 1;
    integrate without sub-cycling leaves T[RATE] = 5. *)
Lemma thermoHII_switch_counterexample :
  let f := Sample.fluid (Sample.cell 0 0 0) (Sample.cell 0 5 7)
                        (Sample.cell 1 4 5) false in
  let c := Sample.cell 0 5 7 in
  1%nat ∈ getOrderedIndices (grid f) "CausalNonWind" /\
  cells (grid f) !! 1%nat = Some c /\
  c_Q c ADV < m_thermoHII_Switch (Sample.thermo false 0.5) /\
  (exists c',
      cells (grid (Thermodynamics.preTimeStepCalculations
                     Sample.libm (Sample.thermo false 0.5) Sample.mpi f))
        !! 1%nat = Some c'
      /\ c_T c' RATE = 0 /\ ~ c_H c' TOT == 0) /\
  (exists c',
      cells (grid (Thermodynamics.integrate
                     Sample.libm (Sample.thermo false 0.5) 1 f))
        !! 1%nat = Some c'
      /\ ~ c_T c' RATE == 0 /\ ~ c_H c' TOT == 0).
Proof.
  cbv zeta. split; [apply list_elem_of_here|].
  split; [reflexivity|]. split; [reflexivity|].
  split; eexists; (split; [reflexivity|]); vm_compute;
    split; try reflexivity; discriminate.
Qed.

(** C3, amended.  For a cell of the CausalNonWind ordering whose Q[ADV] is
    below thermoHII_Switch, preTimeStepCalculations writes T[RATE] = 0 and
    evaluates no rate: T[HEAT] and the diagnostics H keep their values.
    integrate, when sub-cycling is enabled, writes T[RATE] = 0 and zeroes
    every H[i]; when sub-cycling is disabled it changes nothing. *)
Theorem thermoHII_switch (libm : Cmath) (self : Thermo) (mpihandler : MPIW)
    (dt : Q) (f : Fluid) (id : nat) (c : GridCell Q) :
  id ∈ getOrderedIndices (grid f) "CausalNonWind" ->
  cells (grid f) !! id = Some c ->
  c_Q c ADV < m_thermoHII_Switch self ->
  (exists c',
      cells (grid (Thermodynamics.preTimeStepCalculations
                     libm self mpihandler f)) !! id = Some c'
      /\ rateSwitchedOff c c') /\
  (m_isSubcycling self = true ->
   exists c',
     cells (grid (Thermodynamics.integrate libm self dt f)) !! id = Some c'
     /\ heatingSwitchedOff c c') /\
  (m_isSubcycling self = false ->
   Thermodynamics.integrate libm self dt f = f).
Proof.
  intros Hin Hc Hlt. split; [|split].
  - unfold Thermodynamics.preTimeStepCalculations. cbv zeta.
    set (f1 := if on (star f) then _ else f).
    assert (H1 : colDenOnly f f1).
    { subst f1. destruct (on (star f));
        [apply RayTraceFacts.rayTrace_colDenOnly
        | apply RayTraceFacts.colDenOnly_refl]. }
    destruct H1 as (_ & Hord & Hcells).
    destruct (Hcells id c Hc) as (c1 & Hc1 & R1 & R2 & R3 & _ & HS).
    assert (HQ : c_Q c1 = c_Q c) by apply HS.
    apply (GridFacts.forCells_visited (rateSwitchedOff c) _ c1).
    + intros f'. now apply preTimeStepCell_below.
    + intros f' c' (_ & Hh & HH & HQ'). now apply preTimeStepCell_below.
    + exact Hc1.
    + unfold getOrderedIndices in *. now rewrite Hord.
  - intros Hsub. unfold Thermodynamics.integrate. rewrite Hsub. simpl.
    apply (GridFacts.forCells_visited (heatingSwitchedOff c) _ c).
    + intros _. now apply integrateCell_below.
    + intros _ c' (_ & _ & Hh & HQ'). now apply integrateCell_below.
    + exact Hc.
    + exact Hin.
  - intros Hsub. unfold Thermodynamics.integrate. now rewrite Hsub.
Qed.

Lemma thermoHII_switch_witness :
  let f := Sample.fluid (Sample.cell 0 0 0) (Sample.cell 0 5 7)
                        (Sample.cell 1 4 5) true in
  exists c',
    cells (grid (Thermodynamics.integrate
                   Sample.libm (Sample.thermo true 0.5) 1 f)) !! 1%nat
    = Some c'
    /\ heatingSwitchedOff (Sample.cell 0 5 7) c'.
Proof.
  cbv zeta.
  apply (thermoHII_switch
           Sample.libm (Sample.thermo true 0.5) Sample.mpi 1
           (Sample.fluid (Sample.cell 0 0 0) (Sample.cell 0 5 7)
                         (Sample.cell 1 4 5) true)
           1%nat (Sample.cell 0 5 7)).
  - apply list_elem_of_here.
  - reflexivity.
  - reflexivity.
  - reflexivity.
Defined.

(** ** Thermodynamics::updateColDen *)

Lemma renormalise_nonzero g cell :
  ~ Thermodynamics.sum_w g cell == 0 ->
  Thermodynamics.renormalise g cell
  = (fun i =>
       if decide (i = 3%nat)
       then Thermodynamics.w_raga g cell 3 / Thermodynamics.sum_w g cell
       else if decide (i = 2%nat)
       then Thermodynamics.w_raga g cell 2 / Thermodynamics.sum_w g cell
       else if decide (i = 1%nat)
       then Thermodynamics.w_raga g cell 1 / Thermodynamics.sum_w g cell
       else if decide (i = 0%nat)
       then Thermodynamics.w_raga g cell 0 / Thermodynamics.sum_w g cell
       else Thermodynamics.w_raga g cell i,
     0.0
     + Thermodynamics.w_raga g cell 0 / Thermodynamics.sum_w g cell
       * Thermodynamics.colden g cell 0
     + Thermodynamics.w_raga g cell 1 / Thermodynamics.sum_w g cell
       * Thermodynamics.colden g cell 1
     + Thermodynamics.w_raga g cell 2 / Thermodynamics.sum_w g cell
       * Thermodynamics.colden g cell 2
     + Thermodynamics.w_raga g cell 3 / Thermodynamics.sum_w g cell
       * Thermodynamics.colden g cell 3).
Proof.
  intros Hs. unfold Thermodynamics.renormalise.
  apply NumFacts.eqb_neq in Hs. rewrite Hs. reflexivity.
Qed.

Lemma renormalise_zero g cell :
  Thermodynamics.sum_w g cell == 0 ->
  Thermodynamics.renormalise g cell = (Thermodynamics.w_raga g cell, 0.0).
Proof.
  intros Hs. unfold Thermodynamics.renormalise.
  apply NumFacts.eqb_eq in Hs. now rewrite Hs.
Qed.

(** C5, as stated, fails.  A cell outside the source shell none of whose
    upwind neighbours is present gets COL_DEN = 0, and its weights are not
    renormalised: they sum to 0, not to 1. *)
Lemma updateColDen_counterexample :
  let g := grid (Sample.fluid (Sample.cell 0 0 0) (Sample.cell 1 0 0)
                              (Sample.cell 1 0 0) true) in
  let cell := Sample.cell 1 0 0 in
  0.95 * 0.95 < 4 /\
  c_T (Thermodynamics.updateColDen (Sample.thermo true 0.5) g cell 4) COL_DEN
  == 0 /\
  finalWeightSum g cell == 0 /\
  ~ finalWeightSum g cell == 1.
Proof.
  cbv zeta. split; [reflexivity|]. split; [reflexivity|].
  split; [reflexivity|]. vm_compute. discriminate.
Qed.

(** C5, amended.  The raw weight of a neighbour is
    neighbourWeight/colden, and 0 when its colden is 0, as it is for an
    absent neighbour.  For a cell at squared distance above 0.95^2: when the
    raw weights do not sum to zero they are divided by their sum, the final
    weights sum to 1 and COL_DEN is the sum of final weight times colden;
    when the raw weights sum to zero COL_DEN is 0.  For a cell at squared
    distance at most 0.95^2 COL_DEN is 0.  In every case DCOL_DEN is
    (Q[DEN]/hydrogenMass)*ds. *)
Theorem updateColDen_weighted_sum (self : Thermo) (g : Grid)
    (cell : GridCell Q) (dist2 : Q) :
  let cell' := Thermodynamics.updateColDen self g cell dist2 in
  let colden := Thermodynamics.colden g cell in
  let raw := Thermodynamics.w_raga g cell in
  (forall i, neighbourIDs cell i = (-1)%Z -> colden i == 0) /\
  (forall i, colden i == 0 -> raw i = 0) /\
  (forall i, ~ colden i == 0 -> raw i = neighbourWeights cell i / colden i) /\
  (forall i, neighbourIDs cell i <> (-1)%Z ->
             colden i
             = Thermodynamics.neighbourT g (neighbourIDs cell i) COL_DEN
               + Thermodynamics.neighbourT g (neighbourIDs cell i) DCOL_DEN) /\
  (0.95 * 0.95 < dist2 -> ~ Thermodynamics.sum_w g cell == 0 ->
   (forall i, (i < 4)%nat ->
              finalWeight g cell i = raw i / Thermodynamics.sum_w g cell) /\
   finalWeightSum g cell == 1 /\
   c_T cell' COL_DEN
   == finalWeight g cell 0 * colden 0%nat + finalWeight g cell 1 * colden 1%nat
      + finalWeight g cell 2 * colden 2%nat
      + finalWeight g cell 3 * colden 3%nat) /\
  (0.95 * 0.95 < dist2 -> Thermodynamics.sum_w g cell == 0 ->
   c_T cell' COL_DEN == 0) /\
  (dist2 <= 0.95 * 0.95 -> c_T cell' COL_DEN = 0) /\
  c_T cell' DCOL_DEN
  = (c_Q cell DEN / hydrogenMass (m_consts self)) * ds cell /\
  onlyColDen cell cell'.
Proof.
  cbv zeta.
  split.
  { intros i Hi. unfold Thermodynamics.colden. rewrite Hi. reflexivity.
  }
  split.
  { intros i Hi. unfold Thermodynamics.w_raga.
    apply NumFacts.eqb_eq in Hi. now rewrite Hi.
  }
  split.
  { intros i Hi. unfold Thermodynamics.w_raga.
    apply NumFacts.eqb_neq in Hi. now rewrite Hi.
  }
  split.
  { intros i Hi. unfold Thermodynamics.colden.
    apply Z.eqb_neq in Hi. now rewrite Hi.
  }
  split.
  { intros Hd Hs.
    assert (Hfw : forall i, (i < 4)%nat ->
                  finalWeight g cell i
                  = Thermodynamics.w_raga g cell i
                    / Thermodynamics.sum_w g cell).
    { intros i Hi. unfold finalWeight.
      rewrite (renormalise_nonzero g cell Hs). simpl.
      destruct i as [|[|[|[|i]]]]; try reflexivity. lia. }
    split; [exact Hfw|]. split.
    + unfold finalWeightSum. rewrite !Hfw by lia.
      unfold Thermodynamics.sum_w in *. field. exact Hs.
    + rewrite !Hfw by lia. unfold Thermodynamics.updateColDen.
      apply NumFacts.ltb_lt in Hd. rewrite Hd.
      cbn [set_T c_T]. rewrite upd_ne by discriminate. rewrite upd_eq.
      rewrite (renormalise_nonzero g cell Hs). cbn [snd]. ring.
  }
  split.
  { intros Hd Hs. unfold Thermodynamics.updateColDen.
    apply NumFacts.ltb_lt in Hd. rewrite Hd.
    cbn [set_T c_T]. rewrite upd_ne by discriminate. rewrite upd_eq.
    rewrite (renormalise_zero g cell Hs). reflexivity.
  }
  split.
  { intros Hd. unfold Thermodynamics.updateColDen.
    apply NumFacts.ltb_ge in Hd. rewrite Hd.
    cbn [set_T c_T]. rewrite upd_ne by discriminate. now rewrite upd_eq.
  }
  split.
  { unfold Thermodynamics.updateColDen.
    destruct (Num.ltb _ _); cbn [set_T c_T]; now rewrite upd_eq.
  }
  { apply RayTraceFacts.updateColDen_onlyColDen.
  }
Qed.

Lemma updateColDen_weighted_sum_witness :
  let cell := Sample.linked (Sample.cell 1 0 0) 0 1 in
  let g := grid (Sample.fluid (Sample.withColDen (Sample.cell 0 0 0) 1 1)
                              (Sample.withColDen (Sample.cell 1 0 0) 2 4)
                              cell true) in
  finalWeightSum g cell == 1 /\
  c_T (Thermodynamics.updateColDen (Sample.thermo true 0.5) g cell 4) COL_DEN
  == finalWeight g cell 0 * Thermodynamics.colden g cell 0
     + finalWeight g cell 1 * Thermodynamics.colden g cell 1
     + finalWeight g cell 2 * Thermodynamics.colden g cell 2
     + finalWeight g cell 3 * Thermodynamics.colden g cell 3.
Proof.
  cbv zeta.
  destruct (updateColDen_weighted_sum
              (Sample.thermo true 0.5)
              (grid (Sample.fluid (Sample.withColDen (Sample.cell 0 0 0) 1 1)
                                  (Sample.withColDen (Sample.cell 1 0 0) 2 4)
                                  (Sample.linked (Sample.cell 1 0 0) 0 1) true))
              (Sample.linked (Sample.cell 1 0 0) 0 1) 4)
    as (_ & _ & _ & _ & H & _).
  destruct H as (_ & Hsum & Hcol).
  - reflexivity.
  - vm_compute. discriminate.
  - split; [exact Hsum | exact Hcol].
Defined.

(** ** Thermodynamics::integrate *)




(** In the sub-cycling branch the pressure increments of the loop are
    computed with [rate2dpre], which holds [dti*(gamma - 1)] for the local
    thermal time step [dti] found before the loop; the value [dt/nsteps]
    assigned to [dti] in the branch is not read again. *)
Lemma integrateCell_subcycle (libm : Cmath) (self : Thermo) (dt : Q)
    (cell : GridCell Q) :
  let dti := Qabs (0.10 * c_U cell PRE / c_T cell RATE) in
  let nH :=
    m_massFractionH self * c_Q cell DEN / hydrogenMass (m_consts self) in
  let HIIFRAC := c_Q cell HII in
  let mu_inv :=
    m_massFractionH self * (c_Q cell HII + 1.0)
    + (1.0 - m_massFractionH self) * 0.25 in
  let t2p := mu_inv * specificGasConstant (m_consts self) * c_Q cell DEN in
  let rate2dpre := dti * (heatCapacityRatio cell - 1.0) in
  let first := c_Q cell PRE + c_T cell RATE * rate2dpre in
  m_thermoHII_Switch self <= c_Q cell ADV ->
  ~ c_T cell RATE == 0 ->
  dti < dt ->
  c_T (Thermodynamics.integrateCell libm self dt cell) RATE
  = (fst (Nat.iter
            (Z.to_nat (Thermodynamics.subcycleSteps (dt / dti) - 1))
            (Thermodynamics.subcycleStep
               libm self cell (nH * HIIFRAC) (nH * (1.0 - HIIFRAC)) nH HIIFRAC
               t2p (1.0 / t2p) rate2dpre)
            (Thermodynamics.fixPressure self cell t2p (1.0 / t2p)
                                        first (first * (1.0 / t2p))))
     - c_Q cell PRE) * (1.0 / rate2dpre).
Proof.
  cbv zeta. intros Hsw Hr Hdt.
  unfold Thermodynamics.integrateCell.
  apply NumFacts.ltb_ge in Hsw. rewrite Hsw.
  destruct (NumFacts.sub_cycle _ _ _ Hr Hdt) as (Hfin & Hgt & Hmin).
  cbv zeta. rewrite Hgt, Hmin. cbn [set_T set_H c_T]. rewrite upd_eq.
  rewrite Hfin. reflexivity.
Qed.

(** The number of sub-cycle steps is dt/dti rounded up. *)
Lemma subcycleSteps_round_up x :
  0 <= x -> Thermodynamics.subcycleSteps x = Qceiling x.
Proof.
  destruct x as [n d]. intros Hx.
  assert (Hn : (0 <= n)%Z).
  { unfold Qle in Hx. simpl in Hx. lia. }
  unfold Thermodynamics.subcycleSteps.
  rewrite (NumFacts.to_int_nonneg n d Hn).
  pose proof (Z.div_mod n (Zpos d) ltac:(lia)) as Hdm.
  pose proof (Z.mod_pos_bound n (Zpos d) ltac:(lia)) as Hmb.
  unfold Qceiling, Qfloor. cbn [Qopp Qnum Qden].
  destruct (Num.ltb 0 ((n # d) - inject_Z (n / Zpos d))) eqn:E.
  - apply NumFacts.ltb_lt in E.
    assert (Hfrac : (0 < n mod Zpos d)%Z).
    { unfold Qlt, Qminus, Qplus, Qopp, inject_Z in E. simpl in E. nia. }
    unfold Qplus. cbn [Qnum Qden].
    rewrite NumFacts.to_int_nonneg by nia.
    assert (E1 : ((n * 10 + 10 * Zpos d) / Zpos (d * 10)
                  = n / Zpos d + 1)%Z).
    { symmetry. apply (Z.div_unique _ _ _ (10 * (n mod Zpos d))); lia. }
    assert (E2 : (- n / Zpos d = - (n / Zpos d) - 1)%Z).
    { symmetry. apply (Z.div_unique _ _ _ (Zpos d - n mod Zpos d)); lia. }
    lia.
  - apply NumFacts.ltb_ge in E.
    assert (Hfrac : (n mod Zpos d = 0)%Z).
    { unfold Qle, Qminus, Qplus, Qopp, inject_Z in E. simpl in E. nia. }
    unfold Qplus. cbn [Qnum Qden].
    rewrite NumFacts.to_int_nonneg by nia.
    assert (E1 : ((n * 10 + 5 * Zpos d) / Zpos (d * 10) = n / Zpos d)%Z).
    { symmetry. apply (Z.div_unique _ _ _ (5 * Zpos d)); lia. }
    assert (E2 : (- n / Zpos d = - (n / Zpos d))%Z).
    { symmetry. apply (Z.div_unique _ _ _ 0); lia. }
    lia.
Qed.

(** C6: evaluation at a failing input.  The cell has U[PRE] = 1000,
    T[RATE] = -40 and T[HEAT] = 3 with all cooling terms zero, and dt is
    6.25.  The local thermal step is 2.5, so dt/dt_i = 2.5, n_steps = 3 and
    dt/n_steps = 25/12.  The two further micro-steps each add
    3 * 2.5 * (gamma - 1) to the pressure, not 3 * 25/12 * (gamma - 1): the
    rate written back is -34, where micro-steps of dt/n_steps give -35. *)
Theorem integrate_subcycle_step_size :
  let cell := Sample.warm (-40) 3 in
  let self := Sample.thermo true 0.5 in
  let dt := 6.25 in
  let gamma := heatCapacityRatio cell in
  let dt_i := Qabs (0.10 * c_U cell PRE / c_T cell RATE) in
  let nsteps := Thermodynamics.subcycleSteps (dt / dt_i) in
  let r := dt_i * (gamma - 1) in
  let r' := dt / inject_Z nsteps * (gamma - 1) in
  let rate' :=
    c_T (Thermodynamics.integrateCell Sample.libm self dt cell) RATE in
  dt_i == 2.5 /\ nsteps = 3%Z /\ dt / inject_Z nsteps == 25 # 12 /\
  rate' == ((1000 + (-40) * r + 3 * r + 3 * r) - 1000) / r /\
  rate' == -34 /\
  ((1000 + (-40) * r + 3 * r' + 3 * r') - 1000) / r == -35.
Proof.
  cbv zeta. repeat apply conj; reflexivity.
Qed.

(** ** The composite stepper *)

Module TorchFacts.

Section Facts.

Context {F : Type}.
Variable rev : Torch.Revision.
Variable ops : Torch.FluidOps F.
Variable hydrodynamics radiation thermodynamics : Integrator.t F.
Variable minimum : Q -> Q.
Variable getRank : Z.

Local Abbreviation State := (Torch.State F).

Lemma bind_Ok {A B} (m : Torch.M A) (k : A -> Torch.M B) (t t'' : State) b :
  Torch.bind m k t = Torch.Ok b t'' ->
  exists a t', m t = Torch.Ok a t' /\ k a t' = Torch.Ok b t''.
Proof.
  unfold Torch.bind. destruct (m t) as [a t'| |]; try discriminate.
  intros H. eauto.
Qed.






(** checkValues lets the run go on exactly when no cell has an error. *)
Lemma checkValues_spec name (t : State) :
  (existsb Torch.hasError (Torch.getGridCells ops (Torch.fluid t)) = false ->
   Torch.checkValues rev ops name t = Torch.Ok tt t) /\
  (existsb Torch.hasError (Torch.getGridCells ops (Torch.fluid t)) = true ->
   match Torch.checkValues rev ops name t with
   | Torch.Ok _ _ => False
   | Torch.Thrown _ _ => rev = Torch.Part000
   | Torch.Exited status _ => rev = Torch.Part001 /\ status = 0%Z
   end).
Proof.
  unfold Torch.checkValues. split; intros ->; [reflexivity|].
  destruct rev; auto.
Qed.

(** A cell has an error when a conservative component is NaN or infinite,
    or its density or pressure is zero. *)
Lemma hasError_iff (cell : GridCell float) :
  Torch.hasError cell = true <->
  (exists i, In i UID_all /\
             (PrimFloat.is_nan (c_U cell i) = true
              \/ PrimFloat.is_infinity (c_U cell i) = true))
  \/ PrimFloat.eqb (c_Q cell DEN) 0 = true
  \/ PrimFloat.eqb (c_Q cell PRE) 0 = true.
Proof.
  unfold Torch.hasError. rewrite existsb_exists. split.
  - intros (i & Hi & H).
    apply orb_true_iff in H as [H|H]; [|now right; right].
    apply orb_true_iff in H as [H|H]; [|now right; left].
    apply orb_true_iff in H. left. exists i. split; [exact Hi|exact H].
  - intros [(i & Hi & H)|H].
    + exists i. split; [exact Hi|].
      unfold PrimFloat.is_nan in H.
      destruct H as [-> | ->]; rewrite ?orb_true_r; reflexivity.
    + exists DEN. split; [now left|].
      destruct H as [-> | ->]; rewrite ?orb_true_r; reflexivity.
Qed.




Lemma calculateTimeStep_first (t : State) :
  Torch.first_time t = true ->
  Torch.calculateTimeStep rev ops hydrodynamics radiation thermodynamics
                          minimum getRank t
  = Torch.Ok (minimum (Torch.dt_max t * 1.0e-20))
             (Torch.set_fluid
                (Torch.set_first_time t false)
                (Torch.setDeltatime ops (minimum (Torch.dt_max t * 1.0e-20))
                                    (Torch.fluid t))).
Proof. intros H. unfold Torch.calculateTimeStep. now rewrite H. Qed.

(** The components consulted by a call after the first. *)
Definition consultedLater (t : State) : list Torch.ComponentID :=
  (Torch.HYDRO :: (if Torch.radiation_on t then [Torch.RAD] else [])
   ++ (if Torch.cooling_on t then [Torch.THERMO] else []))%list.

Lemma calculateTimeStep_later (t : State) :
  Torch.first_time t = false ->
  exists t',
    Torch.calculateTimeStep rev ops hydrodynamics radiation thermodynamics
                            minimum getRank t
    = Torch.Ok (minimum (componentMinimum hydrodynamics radiation
                                          thermodynamics t (Torch.fluid t)))
               t'
    /\ Torch.first_time t' = false
    /\ Torch.dt_max t' = Torch.dt_max t
    /\ Torch.radiation_on t' = Torch.radiation_on t
    /\ Torch.cooling_on t' = Torch.cooling_on t
    /\ Torch.consulted t' = (Torch.consulted t ++ consultedLater t)%list.
Proof.
  intros H. unfold Torch.calculateTimeStep, componentMinimum, consultedLater.
  rewrite H. unfold Torch.consult.
  cbn [Torch.radiation_on Torch.cooling_on Torch.debug Torch.dt_max
       Torch.fluid Torch.tmax].
  destruct (Torch.radiation_on t) eqn:Er, (Torch.cooling_on t) eqn:Ec;
    cbn [Torch.radiation_on Torch.cooling_on Torch.debug Torch.dt_max
         Torch.fluid Torch.tmax];
    repeat match goal with
           | |- context [if ?b then _ else _] => destruct b
           | |- context [match rev with _ => _ end] => destruct rev
           end;
    eexists; (split; [reflexivity|]); simpl;
    rewrite <- ?app_assoc; auto.
Qed.

(** The guard of calculateTimeStep: after the first call the quit flag is
    raised exactly when debug is on and the reduced hydrodynamics ratio
    100*dt_hydro/tmax is at most 1e-6. *)
Lemma calculateTimeStep_guard (t : State) :
  Torch.first_time t = false ->
  Torch.m_isQuitting
    (Torch.final (Torch.calculateTimeStep rev ops hydrodynamics radiation
                                          thermodynamics minimum getRank t))
  = if Torch.debug t
       && Num.leb (minimum
                     (100.0
                      * Integrator.calculateTimeStep hydrodynamics
                          (Torch.dt_max t) (Torch.fluid t)
                      / Torch.tmax t))
                  1.0e-6
    then true else Torch.m_isQuitting t.
Proof.
  intros H. unfold Torch.calculateTimeStep. rewrite H. unfold Torch.consult.
  cbn [Torch.radiation_on Torch.cooling_on Torch.debug Torch.dt_max
       Torch.fluid Torch.tmax].
  destruct (Torch.radiation_on t), (Torch.cooling_on t);
    cbn [Torch.radiation_on Torch.cooling_on Torch.debug Torch.dt_max
         Torch.fluid Torch.tmax];
    destruct (Torch.debug t);
    cbn [andb]; try reflexivity;
    rewrite !orb_diag;
    match goal with
    | |- context [Num.leb ?a ?b] => destruct (Num.leb a b)
    end;
    destruct rev; try destruct (Z.eqb getRank 0); reflexivity.
Qed.

Lemma invocations_later (fs : list F) :
  forall t : State,
    Torch.first_time t = false ->
    invocations rev ops hydrodynamics radiation thermodynamics minimum
                getRank fs t
    = map (fun f => minimum (componentMinimum hydrodynamics radiation
                                              thermodynamics t f))
          fs.
Proof.
  induction fs as [|f fs IH]; intros t Ht; [reflexivity|].
  simpl.
  destruct (calculateTimeStep_later (Torch.set_fluid t f) Ht)
    as (t' & -> & Hf & Hd & Hr & Hc & _).
  simpl in Hd, Hr, Hc. rewrite (IH t' Hf). f_equal.
  apply map_ext. intros f'. unfold componentMinimum.
  now rewrite Hd, Hr, Hc.
Qed.








End Facts.

End TorchFacts.

(** C9. The first invocation of calculateTimeStep returns the reduction
    over the ranks of dt_max*1e-20, which is dt_max*1e-20 itself when the
    ranks share dt_max; it reads no component and not the fluid, and clears
    the first-call flag.  Every later invocation of the run returns the
    reduced minimum of the time steps of the active components. *)
Theorem calculateTimeStep_bootstrap {F : Type} (rev : Torch.Revision)
    (ops : Torch.FluidOps F)
    (hydrodynamics radiation thermodynamics : Integrator.t F)
    (minimum : Q -> Q) (getRank : Z)
    (t : Torch.State F) (f0 : F) (fs : list F) :
  Torch.first_time t = true ->
  (exists t',
      Torch.calculateTimeStep rev ops hydrodynamics radiation thermodynamics
                              minimum getRank (Torch.set_fluid t f0)
      = Torch.Ok (minimum (Torch.dt_max t * 1.0e-20)) t'
      /\ Torch.first_time t' = false
      /\ Torch.consulted t' = Torch.consulted t
      /\ Torch.m_isQuitting t' = Torch.m_isQuitting t) /\
  (minimum (Torch.dt_max t * 1.0e-20) = Torch.dt_max t * 1.0e-20 ->
   exists t',
     Torch.calculateTimeStep rev ops hydrodynamics radiation thermodynamics
                             minimum getRank (Torch.set_fluid t f0)
     = Torch.Ok (Torch.dt_max t * 1.0e-20) t') /\
  invocations rev ops hydrodynamics radiation thermodynamics minimum getRank
              (f0 :: fs) t
  = minimum (Torch.dt_max t * 1.0e-20)
    :: map (fun f => minimum (componentMinimum hydrodynamics radiation
                                               thermodynamics t f))
           fs.
Proof.
  intros Hfirst.
  assert (Hfirst' : Torch.first_time (Torch.set_fluid t f0) = true)
    by exact Hfirst.
  pose proof (TorchFacts.calculateTimeStep_first
                rev ops hydrodynamics radiation thermodynamics minimum
                getRank _ Hfirst') as Hcall.
  cbn [Torch.set_fluid Torch.dt_max Torch.fluid] in Hcall.
  split; [|split].
  - eexists. split; [exact Hcall|]. simpl. auto.
  - intros Hmin. eexists. rewrite Hcall, Hmin. reflexivity.
  - cbn [invocations]. rewrite Hcall. f_equal.
    rewrite TorchFacts.invocations_later by reflexivity.
    apply map_ext. intros f. reflexivity.
Qed.

Lemma calculateTimeStep_bootstrap_witness :
  invocations Torch.Part000 Sample.ops
              (Sample.idle "Hydrodynamics" 1) (Sample.idle "Radiation" (1 # 2))
              (Sample.idle "Thermodynamics" (1 # 4)) id 0
              [[]; [Sample.fcell 1 1 1 0]; []]
              (Sample.state [] false true)
  = (1 # 10) * 1.0e-20
    :: map (fun f =>
              componentMinimum
                (Sample.idle "Hydrodynamics" 1)
                (Sample.idle "Radiation" (1 # 2))
                (Sample.idle "Thermodynamics" (1 # 4))
                (Sample.state [] false true) f)
           [[Sample.fcell 1 1 1 0]; []].
Proof.
  apply (calculateTimeStep_bootstrap
           Torch.Part000 Sample.ops
           (Sample.idle "Hydrodynamics" 1) (Sample.idle "Radiation" (1 # 2))
           (Sample.idle "Thermodynamics" (1 # 4)) id 0
           (Sample.state [] false true) [] [[Sample.fcell 1 1 1 0]; []]).
  reflexivity.
Defined.

(** C1: evaluation at a failing input, for both revisions.  Debug is on,
    the call is not the first, tmax = 1, hydrodynamics and thermodynamics
    ask for dt = 1 and 1/4 and radiation for dt = 1e-9, so that the ratio
    of radiation is 1e-9 and its percentage 1e-7.  The guard does not fire:
    the quit flag stays down and nothing is logged. *)
Theorem calculateTimeStep_guard_skips_radiation (rev : Torch.Revision) :
  let t := Sample.state [Sample.fcell 1 1 1 0] true false in
  let dt_rad := 1 # 1000000000 in
  dt_rad / Torch.tmax t < 1.0e-6 /\
  100.0 * dt_rad / Torch.tmax t <= 1.0e-6 /\
  exists t',
    Torch.calculateTimeStep rev Sample.ops
      (Sample.idle "Hydrodynamics" 1) (Sample.idle "Radiation" dt_rad)
      (Sample.idle "Thermodynamics" (1 # 4)) id 0 t
    = Torch.Ok dt_rad t'
    /\ Torch.m_isQuitting t' = false
    /\ Torch.logger t' = [].
Proof.
  cbv zeta. split; [reflexivity|]. split; [vm_compute; discriminate|].
  destruct rev; eexists; (split; [reflexivity|]); split; reflexivity.
Qed.

(** C2: evaluation at a failing input.  The second cell has Q[DEN] = 0 and
    a velocity above 1e50.  Both revisions detect the error and dump the
    cell under the component name; the revision of part_001 then calls
    exit(0), the revision of part_000 throws. *)
Theorem checkValues_exit_status :
  let t := Sample.state [Sample.fcell 1 1 1 0; Sample.fcell 0 1 1 2e60]
                        true false in
  let header := nl ++ "Hydrodynamics after produced an error." ++ nl in
  existsb Torch.hasError (Torch.getGridCells Sample.ops (Torch.fluid t))
  = true /\
  Torch.checkValues Torch.Part001 Sample.ops "Hydrodynamics after" t
  = Torch.Exited 0
      (Torch.print t [Torch.Text header;
                      Torch.CellInfo (Sample.fcell 0 1 1 2e60)]) /\
  Torch.checkValues Torch.Part000 Sample.ops "Hydrodynamics after" t
  = Torch.Thrown (header ++ nl)
      (Torch.print t [Torch.CellInfo (Sample.fcell 0 1 1 2e60)]).
Proof.
  cbv zeta. split; [reflexivity|]. split; reflexivity.
Qed.

(** The list [palindrome] is a palindrome in its components and in its
    time steps: 2n-1 calls, the middle one with dt and all others with
    dt/2. *)
Lemma palindrome_symmetric {F : Type}
    (component : Torch.ComponentID -> Integrator.t F)
    (active : list Torch.ComponentID) (sc : Z) (dt : Q) :
  (1 <= length active)%nat ->
  let p := palindrome component active sc dt in
  length p = (2 * length active - 1)%nat /\
  map Torch.call_comp p = List.rev (map Torch.call_comp p) /\
  map Torch.call_dt p = List.rev (map Torch.call_dt p) /\
  nth_error (map Torch.call_dt p) (length active - 1) = Some dt /\
  (forall k, (k < 2 * length active - 1)%nat -> k <> (length active - 1)%nat ->
             nth_error (map Torch.call_dt p) k = Some (dt / 2)).
Proof.
  intros Hn. cbv zeta. unfold palindrome.
  set (n := length active) in *.
  assert (Hseq : seq 0 n = (seq 0 (n - 1) ++ [(n - 1)%nat])%list).
  { replace n with (n - 1 + 1)%nat at 1 by lia. now rewrite seq_app. }
  set (L := seq 0 (n - 1)) in *.
  assert (HL : forall i, In i L -> Nat.eqb i (n - 1) = false).
  { intros i Hi. apply in_seq in Hi. apply Nat.eqb_neq. lia. }
  assert (Hdt : forall at_ : nat -> Integrator.t F,
                map Torch.call_dt
                  (map (fun i =>
                          Torch.mkCall
                            (if Nat.eqb i (n - 1) then dt else dt / 2)
                            (Nat.eqb i 0) (at_ i))
                       (L ++ [(n - 1)%nat])
                   ++ map (fun i => Torch.mkCall (dt / 2) false (at_ i))
                          (List.rev L))%list
                = (repeat (dt / 2) (n - 1) ++ [dt]
                   ++ repeat (dt / 2) (n - 1))%list).
  { intros at_. rewrite map_app, !map_map, map_app. cbn [map Torch.call_dt].
    rewrite Nat.eqb_refl, <- app_assoc. f_equal; [|f_equal].
    - rewrite (map_ext_in _ (fun _ => dt / 2)).
      + rewrite map_const. subst L. now rewrite length_seq.
      + intros i Hi. now rewrite (HL i Hi).
    - rewrite map_const, length_rev. subst L. now rewrite length_seq. }
  rewrite Hseq. split; [|split; [|split; [|split]]].
  - rewrite length_app, !length_map, length_app, length_rev. subst L.
    rewrite length_seq. simpl. lia.
  - rewrite map_app, !map_map. cbn [Torch.call_comp].
    rewrite rev_app_distr, map_rev, rev_involutive, map_app, rev_app_distr.
    cbn [map List.rev app]. rewrite <- app_assoc. reflexivity.
  - rewrite Hdt. rewrite !rev_app_distr, rev_repeat. cbn [List.rev app].
    now rewrite <- app_assoc.
  - rewrite Hdt. rewrite nth_error_app2 by (rewrite repeat_length; lia).
    rewrite repeat_length, Nat.sub_diag. reflexivity.
  - intros k Hk Hne. rewrite Hdt.
    destruct (Nat.lt_ge_cases k (n - 1)) as [Hlt|Hge].
    + rewrite nth_error_app1 by (rewrite repeat_length; lia).
      apply nth_error_repeat. lia.
    + rewrite nth_error_app2 by (rewrite repeat_length; lia).
      rewrite repeat_length.
      destruct (k - (n - 1))%nat as [|j] eqn:Ej; [lia|]. cbn [app nth_error].
      apply nth_error_repeat. lia.
Qed.




(** * Further properties

    ** Thermodynamics::softLanding *)

(** A negative rate scaled by a factor between 0 and 1. *)
Lemma scaled_rate (rate x : Q) :
  rate < 0 -> 0 <= x -> x <= 1 -> rate <= rate * x /\ rate * x <= 0.
Proof.
  intros Hr H0 H1.
  assert (A : 0 <= (- rate) * (1 - x)) by (apply Qmult_le_0_compat; lra).
  assert (B : 0 <= (- rate) * x) by (apply Qmult_le_0_compat; lra).
  split; lra.
Qed.

Lemma scaled_rate_mono (rate x y : Q) :
  rate < 0 -> x <= y -> rate * y <= rate * x.
Proof.
  intros Hr H.
  assert (A : 0 <= (- rate) * (y - x)) by (apply Qmult_le_0_compat; lra).
  lra.
Qed.

(** The factor (T - T_min)/200 of the soft landing. *)
Lemma landing_factor (rate T T_min : Q) :
  exists x, rate * (T - T_min) / 200 == rate * x /\ x * 200 == T - T_min.
Proof. exists ((T - T_min) / 200). split; field. Qed.

(** X1. The soft landing attenuates a cooling rate and never reverses it:
    for rate < 0 the result lies between rate and 0. *)
Theorem softLanding_bounds (rate T T_min : Q) :
  rate < 0 ->
  rate <= Thermodynamics.softLanding rate T T_min /\
  Thermodynamics.softLanding rate T T_min <= 0.
Proof.
  intros Hr. unfold Thermodynamics.softLanding.
  destruct (landing_factor rate T T_min) as (x & E & Hx).
  NumFacts.cases; rewrite ?E; try (split; lra).
  apply scaled_rate; lra.
Qed.

(** X2. The soft landing of a cooling rate is monotone in the temperature:
    a warmer cell is cooled at least as much. *)
Theorem softLanding_monotone (rate T1 T2 T_min : Q) :
  rate < 0 -> T1 <= T2 ->
  Thermodynamics.softLanding rate T2 T_min
  <= Thermodynamics.softLanding rate T1 T_min.
Proof.
  intros Hr HT. unfold Thermodynamics.softLanding.
  destruct (landing_factor rate T1 T_min) as (x1 & E1 & Hx1).
  destruct (landing_factor rate T2 T_min) as (x2 & E2 & Hx2).
  NumFacts.cases; rewrite ?E1, ?E2; try lra.
  - apply (scaled_rate rate x2); lra.
  - apply scaled_rate_mono; lra.
  - apply (scaled_rate rate x1); lra.
Qed.

Lemma softLanding_bounds_witness :
  -4 <= Thermodynamics.softLanding (-4) 150 100 /\
  Thermodynamics.softLanding (-4) 150 100 <= 0.
Proof. apply (softLanding_bounds (-4) 150 100). reflexivity. Defined.

Lemma softLanding_monotone_witness :
  Thermodynamics.softLanding (-4) 250 100
  <= Thermodynamics.softLanding (-4) 120 100.
Proof.
  apply (softLanding_monotone (-4) 120 250 100).
  - reflexivity.
  - vm_compute. discriminate.
Defined.

(** ** Thermodynamics::calculateTimeStep *)

Lemma thermo_dt_fold (self : Thermo) (cs : list (GridCell Q)) :
  forall dt0,
    let dt := foldl (fun dt cell =>
           if negb (Num.eqb (c_T cell RATE) 0) then
             let frac := if m_isSubcycling self then 1.0 else 0.1 in
             let dti := Qabs (frac * c_U cell PRE / c_T cell RATE) in
             if Num.ltb dti dt then dti else dt
           else dt) dt0 cs in
    dt <= dt0 /\
    (forall cell, In cell cs -> ~ c_T cell RATE == 0 ->
                  dt <= thermalStep self cell) /\
    (dt = dt0 \/
     exists cell, In cell cs /\ ~ c_T cell RATE == 0 /\
                  dt = thermalStep self cell).
Proof.
  induction cs as [|c cs IH]; intros dt0; cbn [foldl].
  - split; [lra|]. split; [intros ? []|now left].
  - cbv zeta. set (dt1 := if negb _ then _ else dt0).
    destruct (IH dt1) as (H1 & H2 & H3). cbv zeta in H1, H2, H3.
    set (dt := foldl _ dt1 cs) in *.
    assert (Hdt1 : dt1 <= dt0 /\
                   (~ c_T c RATE == 0 -> dt1 <= thermalStep self c) /\
                   (dt1 = dt0 \/
                    (~ c_T c RATE == 0 /\ dt1 = thermalStep self c))).
    { subst dt1. unfold thermalStep.
      destruct (Num.eqb (c_T c RATE) 0) eqn:E; cbn [negb].
      - apply NumFacts.eqb_eq in E. split; [lra|]. split; [tauto|now left].
      - apply NumFacts.eqb_neq in E.
        match goal with
        | |- context [Num.ltb ?a ?b] => destruct (Num.ltb a b) eqn:L
        end.
        + apply NumFacts.ltb_lt in L. split; [lra|]. split; [lra|].
          right. now split.
        + apply NumFacts.ltb_ge in L. split; [lra|]. split; [tauto|now left]. }
    destruct Hdt1 as (A & B & C).
    split; [lra|]. split.
    + intros cell [<-|Hin] Hr.
      * specialize (B Hr). lra.
      * now apply H2.
    + destruct H3 as [E|(cell & Hin & Hr & E)].
      * destruct C as [C|(Hr & C)].
        -- left. congruence.
        -- right. exists c. split; [now left|]. split; [exact Hr|congruence].
      * right. exists cell. split; [now right|]. now split.
Qed.

Lemma Qabs_positive x : ~ x == 0 -> 0 < Qabs x.
Proof.
  intros H. apply Qabs_case; intros H'.
  - apply Qnot_le_lt. intros Hc. apply H. lra.
  - apply Qnot_le_lt. intros Hc. apply H. lra.
Qed.

Lemma thermalStep_pos (self : Thermo) (cell : GridCell Q) :
  ~ c_T cell RATE == 0 -> ~ c_U cell PRE == 0 -> 0 < thermalStep self cell.
Proof.
  intros Hr Hu. unfold thermalStep. apply Qabs_positive. intros E.
  apply Hu.
  destruct (m_isSubcycling self).
  - assert (E' : c_U cell PRE
                 == (1.0 * c_U cell PRE / c_T cell RATE) * c_T cell RATE)
      by (field; exact Hr).
    rewrite E' , E. ring.
  - assert (E' : c_U cell PRE
                 == 10 * ((0.1 * c_U cell PRE / c_T cell RATE) * c_T cell RATE))
      by (field; exact Hr).
    rewrite E', E. ring.
Qed.

(** X3. The time step of Thermodynamics::calculateTimeStep is the minimum
    of dt_max and of the thermal steps |frac*U[PRE]/T[RATE]| of the cells
    with a non-zero rate: it exceeds none of them and is one of them. *)
Theorem thermo_calculateTimeStep_minimum (self : Thermo) (dt_max : Q)
    (f : Fluid) :
  let dt := Thermodynamics.calculateTimeStep self dt_max f in
  dt <= dt_max /\
  (forall cell, In cell (cells (grid f)) -> ~ c_T cell RATE == 0 ->
                dt <= thermalStep self cell) /\
  (dt = dt_max \/
   exists cell, In cell (cells (grid f)) /\ ~ c_T cell RATE == 0 /\
                dt = thermalStep self cell).
Proof. apply thermo_dt_fold. Qed.

(** X4. The time step of Thermodynamics::calculateTimeStep is positive
    when dt_max is and no cell with a non-zero rate has U[PRE] = 0. *)
Theorem thermo_calculateTimeStep_positive (self : Thermo) (dt_max : Q)
    (f : Fluid) :
  0 < dt_max ->
  (forall cell, In cell (cells (grid f)) -> ~ c_T cell RATE == 0 ->
                ~ c_U cell PRE == 0) ->
  0 < Thermodynamics.calculateTimeStep self dt_max f.
Proof.
  intros Hmax Hu.
  destruct (thermo_dt_fold self (cells (grid f)) dt_max)
    as (_ & _ & [E|(cell & Hin & Hr & E)]); cbv zeta in E;
    unfold Thermodynamics.calculateTimeStep; rewrite E.
  - exact Hmax.
  - apply thermalStep_pos; auto.
Qed.

Lemma thermalStep_subcycling (self : Thermo) (cell : GridCell Q) :
  thermalStep (withSubcycling self true) cell
  == 10 * thermalStep (withSubcycling self false) cell.
Proof.
  unfold thermalStep. cbn [withSubcycling m_isSubcycling].
  destruct (Qeq_dec (c_T cell RATE) 0) as [E|E].
  - unfold Qdiv. rewrite E. 
    assert (Z0 : / 0 == 0) by reflexivity. rewrite Z0, !Qmult_0_r. reflexivity.
  - assert (E' : 1.0 * c_U cell PRE / c_T cell RATE
                 == 10 * (0.1 * c_U cell PRE / c_T cell RATE))
      by (field; exact E).
    rewrite E', Qabs_Qmult. reflexivity.
Qed.

(** X5. Switching sub-cycling on never shortens the time step of
    Thermodynamics::calculateTimeStep. *)
Theorem thermo_calculateTimeStep_subcycling (self : Thermo) (dt_max : Q)
    (f : Fluid) :
  Thermodynamics.calculateTimeStep (withSubcycling self false) dt_max f
  <= Thermodynamics.calculateTimeStep (withSubcycling self true) dt_max f.
Proof.
  destruct (thermo_dt_fold (withSubcycling self false) (cells (grid f)) dt_max)
    as (A & B & _).
  destruct (thermo_dt_fold (withSubcycling self true) (cells (grid f)) dt_max)
    as (_ & _ & [E|(cell & Hin & Hr & E)]); cbv zeta in *;
    unfold Thermodynamics.calculateTimeStep; rewrite E.
  - exact A.
  - specialize (B cell Hin Hr).
    fold (Thermodynamics.calculateTimeStep (withSubcycling self false)
                                           dt_max f) in B.
    pose proof (thermalStep_subcycling self cell) as S.
    assert (P : 0 <= thermalStep (withSubcycling self false) cell)
      by apply Qabs_nonneg.
    unfold Thermodynamics.calculateTimeStep in B. lra.
Qed.

Lemma thermo_calculateTimeStep_minimum_witness :
  Thermodynamics.calculateTimeStep
    (Sample.thermo true 0.5) 100
    (Sample.fluid (Sample.cell 0 0 0) (Sample.warm (-40) 3)
                  (Sample.warm 0 3) false)
  <= thermalStep (Sample.thermo true 0.5) (Sample.warm (-40) 3).
Proof.
  destruct (thermo_calculateTimeStep_minimum
              (Sample.thermo true 0.5) 100
              (Sample.fluid (Sample.cell 0 0 0) (Sample.warm (-40) 3)
                            (Sample.warm 0 3) false)) as (_ & H & _).
  apply H.
  - right. left. reflexivity.
  - vm_compute. discriminate.
Defined.

Lemma thermo_calculateTimeStep_positive_witness :
  0 < Thermodynamics.calculateTimeStep
        (Sample.thermo true 0.5) 100
        (Sample.fluid (Sample.cell 0 0 0) (Sample.warm (-40) 3)
                      (Sample.warm 0 3) false).
Proof.
  apply (thermo_calculateTimeStep_positive
           (Sample.thermo true 0.5) 100
           (Sample.fluid (Sample.cell 0 0 0) (Sample.warm (-40) 3)
                         (Sample.warm 0 3) false)).
  - reflexivity.
  - intros cell [<-|[<-|[<-|[]]]] _; vm_compute; discriminate.
Defined.

(** ** The pressure floor of Thermodynamics::integrate *)

Lemma fixPressure_floor (self : Thermo) (cell : GridCell Q) (t2p p T : Q) :
  0 < t2p -> T == p * (1.0 / t2p) ->
  pfloor (m_consts self)
  <= fst (Thermodynamics.fixPressure self cell t2p (1.0 / t2p) p T) /\
  T_min cell * t2p
  <= fst (Thermodynamics.fixPressure self cell t2p (1.0 / t2p) p T).
Proof.
  intros Ht ET. unfold Thermodynamics.fixPressure.
  pose proof (NumFacts.std_max_ge_l (T_min cell * t2p)
                                    (pfloor (m_consts self))) as Hl.
  pose proof (NumFacts.std_max_ge_r (T_min cell * t2p)
                                    (pfloor (m_consts self))) as Hr.
  destruct (Num.ltb p (pfloor (m_consts self))) eqn:E1;
    [|destruct (Num.ltb T (T_min cell)) eqn:E2]; cbn [orb fst].
  - split; assumption.
  - split; assumption.
  - apply NumFacts.ltb_ge in E1. apply NumFacts.ltb_ge in E2.
    split; [exact E1|].
    apply Qnot_lt_le. intros Hc.
    apply (NumFacts.scaled_lt _ _ _ Ht) in Hc. lra.
Qed.

Lemma subcycle_floor (libm : Cmath) (self : Thermo) (cell : GridCell Q)
    (ne nn nH HIIFRAC t2p r : Q) (st0 : Q * Q) (n : nat) :
  0 < t2p ->
  pfloor (m_consts self) <= fst st0 /\ T_min cell * t2p <= fst st0 ->
  let st := Nat.iter n (Thermodynamics.subcycleStep
                          libm self cell ne nn nH HIIFRAC t2p (1.0 / t2p) r)
                     st0 in
  pfloor (m_consts self) <= fst st /\ T_min cell * t2p <= fst st.
Proof.
  intros Ht H0. cbv zeta. induction n as [|n IH]; [exact H0|].
  cbn [Nat.iter nat_rect]. 
  match goal with
  | |- context [Thermodynamics.subcycleStep _ _ _ _ _ _ _ _ _ _ ?s] =>
      destruct s as [p T]
  end.
  unfold Thermodynamics.subcycleStep. cbv zeta.
  apply fixPressure_floor; [exact Ht | reflexivity].
Qed.

Lemma temp2pre_literal (self : Thermo) (cell : GridCell Q) :
  (m_massFractionH self * (c_Q cell HII + 1.0)
   + (1.0 - m_massFractionH self) * 0.25)
  * specificGasConstant (m_consts self) * c_Q cell DEN
  == temp2pre self cell.
Proof. unfold temp2pre. ring. Qed.

Lemma integrateCell_floor (libm : Cmath) (self : Thermo) (dt : Q)
    (cell : GridCell Q) :
  m_thermoHII_Switch self <= c_Q cell ADV ->
  0 < temp2pre self cell ->
  ~ rate2dpre dt cell == 0 ->
  let cell' := Thermodynamics.integrateCell libm self dt cell in
  pfloor (m_consts self) <= reachedPressure dt cell cell' /\
  T_min cell * temp2pre self cell <= reachedPressure dt cell cell' /\
  c_H cell' TOT = c_T cell' RATE.
Proof.
  intros Hsw Ht Hr. cbv zeta.
  unfold reachedPressure, Thermodynamics.integrateCell.
  apply NumFacts.ltb_ge in Hsw. rewrite Hsw. cbv zeta.
  fold (rate2dpre dt cell).
  rewrite <- (temp2pre_literal self cell) in Ht |- *.
  set (t2p := (m_massFractionH self * (c_Q cell HII + 1.0)
               + (1.0 - m_massFractionH self) * 0.25)
              * specificGasConstant (m_consts self) * c_Q cell DEN) in *.
  set (r := rate2dpre dt cell) in *.
  set (p0 := c_Q cell PRE + c_T cell RATE * r).
  set (st0 := Thermodynamics.fixPressure self cell t2p (1.0 / t2p) p0
                                         (p0 * (1.0 / t2p))).
  assert (H0 : pfloor (m_consts self) <= fst st0 /\
               T_min cell * t2p <= fst st0)
    by (apply fixPressure_floor; [exact Ht | reflexivity]).
  set (st := if Num.xgtb dt _ then _ else st0).
  assert (Hst : pfloor (m_consts self) <= fst st /\
                T_min cell * t2p <= fst st).
  { subst st. destruct (Num.xgtb dt _); [|exact H0].
    apply subcycle_floor; assumption. }
  cbn [set_T set_H c_T c_H c_Q]. rewrite !upd_eq.
  assert (E : c_Q cell PRE + (fst st - c_Q cell PRE) * (1.0 / r) * r
              == fst st) by (field; exact Hr).
  rewrite E. destruct Hst. split; [assumption|]. split; [assumption|].
  reflexivity.
Qed.

(** X6. At the end of integrate with sub-cycling, in the single-step and
    in the sub-cycling branch alike, the pressure reached in a cell at or
    above the switch is neither below pfloor nor below T_min*temp2pre. *)
Theorem integrate_respects_floor (libm : Cmath) (self : Thermo) (dt : Q)
    (f : Fluid) (id : nat) (cell : GridCell Q) :
  m_isSubcycling self = true ->
  NoDup (getOrderedIndices (grid f) "CausalNonWind") ->
  id ∈ getOrderedIndices (grid f) "CausalNonWind" ->
  cells (grid f) !! id = Some cell ->
  m_thermoHII_Switch self <= c_Q cell ADV ->
  0 < temp2pre self cell ->
  ~ rate2dpre dt cell == 0 ->
  exists cell',
    cells (grid (Thermodynamics.integrate libm self dt f)) !! id = Some cell'
    /\ pfloor (m_consts self) <= reachedPressure dt cell cell'
    /\ T_min cell * temp2pre self cell <= reachedPressure dt cell cell'
    /\ c_H cell' TOT = c_T cell' RATE.
Proof.
  intros Hsub Hnd Hin Hc Hsw Ht Hr.
  exists (Thermodynamics.integrateCell libm self dt cell). split.
  - unfold Thermodynamics.integrate. rewrite Hsub. simpl.
    now apply GridFacts.forCells_once.
  - now apply integrateCell_floor.
Qed.

Lemma integrate_respects_floor_witness :
  exists cell',
    cells (grid (Thermodynamics.integrate
                   Sample.libm (Sample.thermo true 0.5) 6.25
                   (Sample.fluid (Sample.cell 0 0 0) (Sample.warm (-40) 3)
                                 (Sample.warm 0 3) false)))
      !! 1%nat = Some cell'
    /\ pfloor (m_consts (Sample.thermo true 0.5))
       <= reachedPressure 6.25 (Sample.warm (-40) 3) cell'
    /\ T_min (Sample.warm (-40) 3)
       * temp2pre (Sample.thermo true 0.5) (Sample.warm (-40) 3)
       <= reachedPressure 6.25 (Sample.warm (-40) 3) cell'
    /\ c_H cell' TOT = c_T cell' RATE.
Proof.
  apply (integrate_respects_floor
           Sample.libm (Sample.thermo true 0.5) 6.25
           (Sample.fluid (Sample.cell 0 0 0) (Sample.warm (-40) 3)
                         (Sample.warm 0 3) false)
           1%nat (Sample.warm (-40) 3)).
  - reflexivity.
  - apply NoDup_cons. split.
    + intros H. apply elem_of_cons in H as [H|H]; [discriminate H|].
      inversion H.
    + apply NoDup_cons. split; [intros H; inversion H | apply NoDup_nil_2].
  - apply list_elem_of_here.
  - reflexivity.
  - vm_compute. discriminate.
  - reflexivity.
  - vm_compute. discriminate.
Defined.

(** ** What the thermodynamics integrator writes *)

Lemma onlyRate_refl c : onlyRate c c.
Proof. unfold onlyRate. auto using GridFacts.sameState_refl. Qed.

Lemma integrateCell_onlyRate libm self dt c0 c :
  onlyRate c0 c -> onlyRate c0 (Thermodynamics.integrateCell libm self dt c).
Proof.
  intros (H1 & H2 & H3 & H4 & HS). unfold Thermodynamics.integrateCell.
  destruct (Num.ltb (c_Q c ADV) (m_thermoHII_Switch self));
    cbv zeta; unfold onlyRate, sameState in *;
    cbn [set_T set_H c_T c_H c_UDOT xc ds c_Q c_U c_W c_GRAV neighbourIDs
         neighbourWeights T_min heatCapacityRatio];
    rewrite !upd_ne by discriminate; tauto.
Qed.

Lemma integrate_frame (libm : Cmath) (self : Thermo) (dt : Q) (f : Fluid) :
  sameFrame f (Thermodynamics.integrate libm self dt f).
Proof.
  unfold Thermodynamics.integrate.
  destruct (m_isSubcycling self); cbn [negb];
    [apply GridFacts.forCells_frame | apply GridFacts.sameFrame_refl].
Qed.

(** X8. integrate writes T[RATE] and the diagnostics H of the cells of the
    CausalNonWind ordering and nothing else. *)
Theorem integrate_writes_rate_only (libm : Cmath) (self : Thermo) (dt : Q)
    (f : Fluid) :
  let f' := Thermodynamics.integrate libm self dt f in
  (forall (id : nat) c,
      cells (grid f) !! id = Some c ->
      exists c', cells (grid f') !! id = Some c' /\ onlyRate c c') /\
  (forall id : nat,
      id ∉ getOrderedIndices (grid f) "CausalNonWind" ->
      cells (grid f') !! id = cells (grid f) !! id) /\
  sameFrame f f'.
Proof.
  cbv zeta. split; [|split]; [| |apply integrate_frame].
  - intros id c Hc. unfold Thermodynamics.integrate.
    destruct (m_isSubcycling self); cbn [negb].
    + apply (GridFacts.forCells_keeps (onlyRate c) _) with (c := c);
        [|exact Hc|apply onlyRate_refl].
      intros _ c'. apply integrateCell_onlyRate.
    + exists c. split; [exact Hc | apply onlyRate_refl].
  - intros id Hid. unfold Thermodynamics.integrate.
    destruct (m_isSubcycling self); cbn [negb]; [|reflexivity].
    now apply GridFacts.forCells_other.
Qed.

Lemma preTimeStepCell_onlyThermo libm self f c0 c :
  onlyThermo c0 c ->
  onlyThermo c0 (Thermodynamics.preTimeStepCell libm self f c).
Proof.
  intros (H1 & H2 & HS). unfold Thermodynamics.preTimeStepCell.
  destruct (Num.ltb (c_Q c ADV) (m_thermoHII_Switch self));
    cbv zeta; unfold onlyThermo, sameState in *;
    cbn [set_T set_H c_T c_H c_UDOT xc ds c_Q c_U c_W c_GRAV neighbourIDs
         neighbourWeights T_min heatCapacityRatio]; tauto.
Qed.

Lemma sameConsts_refl f : sameConsts f f.
Proof. split; reflexivity. Qed.

Lemma sameConsts_trans f1 f2 f3 :
  sameConsts f1 f2 -> sameConsts f2 f3 -> sameConsts f1 f3.
Proof. unfold sameConsts. intuition congruence. Qed.

Lemma sameFrame_consts f f' : sameFrame f f' -> sameConsts f f'.
Proof. unfold sameFrame, sameConsts. tauto. Qed.

Lemma sameConsts_set_partition f p : sameConsts f (set_partition f p).
Proof. split; reflexivity. Qed.

Lemma recvGhosts_consts ids :
  forall f, sameConsts f (Thermodynamics.recvGhosts f ids).
Proof.
  unfold Thermodynamics.recvGhosts.
  induction ids as [|id ids IH]; intros f; [apply sameConsts_refl|].
  simpl. eapply sameConsts_trans; [|apply IH].
  destruct (getRecvItem (partition f)) as [a p].
  destruct (getRecvItem p) as [b p']. split; reflexivity.
Qed.

Lemma queueColDen_consts inner ids :
  forall f, sameConsts f (Thermodynamics.queueColDen f inner ids).
Proof.
  unfold Thermodynamics.queueColDen.
  induction ids as [|id ids IH]; intros f; [apply sameConsts_refl|].
  simpl. eapply sameConsts_trans; [|apply IH]. split; reflexivity.
Qed.

Lemma rayTrace_consts self mpihandler f :
  sameConsts f (Thermodynamics.rayTrace self mpihandler f).
Proof.
  unfold Thermodynamics.rayTrace.
  repeat match goal with
         | |- sameConsts _ (let x := _ in _) => cbv zeta
         | |- sameConsts _ (if ?b then _ else _) => destruct b
         | |- sameConsts ?f ?f => apply sameConsts_refl
         | |- sameConsts _ (set_partition _ _) =>
             eapply sameConsts_trans; [|apply sameConsts_set_partition]
         | |- sameConsts _ (Thermodynamics.queueColDen _ _ _) =>
             eapply sameConsts_trans; [|apply queueColDen_consts]
         | |- sameConsts _ (Thermodynamics.sweepColDen _ _ _) =>
             eapply sameConsts_trans;
             [|apply sameFrame_consts, GridFacts.forCells_frame]
         | |- sameConsts _ (Thermodynamics.recvGhosts _ _) =>
             eapply sameConsts_trans; [|apply recvGhosts_consts]
         end.
Qed.

(** The fluid at the start of the cell loop of preTimeStepCalculations. *)
Lemma preTimeStep_traced self mpihandler f :
  let f1 := if on (star f) then Thermodynamics.rayTrace self mpihandler f
            else f in
  colDenOnly f f1 /\ sameConsts f f1.
Proof.
  cbv zeta. destruct (on (star f)).
  - split; [apply RayTraceFacts.rayTrace_colDenOnly | apply rayTrace_consts].
  - split; [apply RayTraceFacts.colDenOnly_refl | apply sameConsts_refl].
Qed.

Lemma preTimeStepCalculations_frame (libm : Cmath) (self : Thermo)
    (mpihandler : MPIW) (f : Fluid) :
  star (Thermodynamics.preTimeStepCalculations libm self mpihandler f)
  = star f /\
  orderedIndices
    (grid (Thermodynamics.preTimeStepCalculations libm self mpihandler f))
  = orderedIndices (grid f) /\
  sameConsts f (Thermodynamics.preTimeStepCalculations libm self mpihandler f).
Proof.
  unfold Thermodynamics.preTimeStepCalculations. cbv zeta.
  destruct (preTimeStep_traced self mpihandler f) as ((Hs & Ho & _) & HK).
  set (f1 := if on (star f) then _ else f) in *.
  pose proof (GridFacts.forCells_frame
                (Thermodynamics.preTimeStepCell libm self)
                (getOrderedIndices (grid f1) "CausalNonWind") f1) as HF.
  split; [|split].
  - destruct HF as (E & _). congruence.
  - destruct HF as (_ & _ & _ & _ & _ & E & _). congruence.
  - eapply sameConsts_trans; [exact HK | now apply sameFrame_consts].
Qed.

(** X9. preTimeStepCalculations writes the thermodynamic values T of the
    cells and the message queues, and nothing else. *)
Theorem preTimeStepCalculations_writes_T_only (libm : Cmath) (self : Thermo)
    (mpihandler : MPIW) (f : Fluid) :
  let f' := Thermodynamics.preTimeStepCalculations libm self mpihandler f in
  (forall (id : nat) c,
      cells (grid f) !! id = Some c ->
      exists c', cells (grid f') !! id = Some c' /\ onlyThermo c c') /\
  star f' = star f /\
  orderedIndices (grid f') = orderedIndices (grid f) /\
  sameConsts f f'.
Proof.
  cbv zeta. split; [|apply preTimeStepCalculations_frame].
  unfold Thermodynamics.preTimeStepCalculations. cbv zeta.
  destruct (preTimeStep_traced self mpihandler f) as ((_ & _ & Hc) & _).
  set (f1 := if on (star f) then _ else f) in *.
  intros id c Hid. destruct (Hc id c Hid) as (c1 & Hc1 & R).
  apply (GridFacts.forCells_keeps (onlyThermo c) _) with (c := c1);
    [|exact Hc1|].
  - intros f' c'. apply preTimeStepCell_onlyThermo.
  - destruct R as (_ & _ & ? & ? & ?). now split.
Qed.

(** A loop over cells whose body is run in fluids with the frame of the
    start fluid. *)
Lemma forCells_visited_in (f0 : Fluid) (P : GridCell Q -> Prop) body
    (c : GridCell Q) :
  (forall f, sameFrame f0 f -> P (body f c)) ->
  (forall f c', sameFrame f0 f -> P c' -> P (body f c')) ->
  forall ids f (id : nat),
    sameFrame f0 f ->
    cells (grid f) !! id = Some c -> id ∈ ids ->
    exists c', cells (grid (forCells body ids f)) !! id = Some c' /\ P c'.
Proof.
  intros Hfirst Hkeep.
  assert (Hk : forall ids f (id : nat) c1,
             sameFrame f0 f -> cells (grid f) !! id = Some c1 -> P c1 ->
             exists c', cells (grid (forCells body ids f)) !! id = Some c'
                        /\ P c').
  { induction ids as [|j ids IH]; intros f id c1 HF Hc HP.
    - exists c1. now split.
    - rewrite GridFacts.forCells_cons.
      assert (HF' : sameFrame f0 (set_grid f (modifyCell j (body f) (grid f))))
        by (eapply GridFacts.sameFrame_trans;
            [exact HF | apply GridFacts.modifyCell_frame]).
      destruct (decide (j = id)) as [->|Hne].
      + apply (IH _ id (body f c1) HF'); [|now apply Hkeep].
        rewrite GridFacts.lookup_modifyCell_eq, Hc. reflexivity.
      + apply (IH _ id c1 HF'); [|exact HP].
        rewrite GridFacts.lookup_modifyCell_ne by exact Hne. exact Hc. }
  induction ids as [|j ids IH]; intros f id HF Hc Hin.
  - inversion Hin.
  - rewrite GridFacts.forCells_cons.
    assert (HF' : sameFrame f0 (set_grid f (modifyCell j (body f) (grid f))))
      by (eapply GridFacts.sameFrame_trans;
          [exact HF | apply GridFacts.modifyCell_frame]).
    destruct (decide (j = id)) as [->|Hne].
    + apply (Hk ids _ id (body f c) HF').
      * rewrite GridFacts.lookup_modifyCell_eq, Hc. reflexivity.
      * now apply Hfirst.
    + apply IH; [exact HF'| |].
      * rewrite GridFacts.lookup_modifyCell_ne by exact Hne. exact Hc.
      * apply elem_of_cons in Hin as [Heq|Hin]; [congruence | exact Hin].
Qed.

Lemma softLanding_cold (rate T T_min : Q) :
  T <= T_min -> 0 <= Thermodynamics.softLanding rate T T_min.
Proof.
  intros H. unfold Thermodynamics.softLanding. NumFacts.cases; lra.
Qed.

Lemma preTimeStepCell_cold libm self f0 f c0 c :
  sameConsts f0 f ->
  0 <= m_heatingAmplification self ->
  calcTemperature f0 (c_Q c0 HII) (c_Q c0 PRE) (c_Q c0 DEN) <= T_min c0 ->
  c_Q c = c_Q c0 -> T_min c = T_min c0 ->
  let c' := Thermodynamics.preTimeStepCell libm self f c in
  c_Q c' = c_Q c0 /\ T_min c' = T_min c0 /\ 0 <= c_T c' RATE.
Proof.
  intros (HK & HX) Ha HT HQ Hm. cbv zeta.
  unfold Thermodynamics.preTimeStepCell.
  destruct (Num.ltb (c_Q c ADV) (m_thermoHII_Switch self)); cbv zeta;
    cbn [set_T c_T c_Q T_min]; rewrite !upd_eq.
  - split; [exact HQ|]. split; [exact Hm|]. lra.
  - split; [exact HQ|]. split; [exact Hm|].
    apply Qmult_le_0_compat; [exact Ha|].
    apply softLanding_cold.
    unfold calcTemperature in *. rewrite HK, HX, HQ, Hm. exact HT.
Qed.

Lemma preTimeStepCalculations_cold (libm : Cmath)
    (self : Thermo) (mpihandler : MPIW) (f : Fluid) (id : nat)
    (c : GridCell Q) :
  id ∈ getOrderedIndices (grid f) "CausalNonWind" ->
  cells (grid f) !! id = Some c ->
  0 <= m_heatingAmplification self ->
  calcTemperature f (c_Q c HII) (c_Q c PRE) (c_Q c DEN) <= T_min c ->
  exists c',
    cells (grid (Thermodynamics.preTimeStepCalculations
                   libm self mpihandler f)) !! id = Some c'
    /\ 0 <= c_T c' RATE.
Proof.
  intros Hin Hc Ha HT.
  unfold Thermodynamics.preTimeStepCalculations. cbv zeta.
  destruct (preTimeStep_traced self mpihandler f) as ((Hs & Ho & Hcs) & HK).
  set (f1 := if on (star f) then _ else f) in *.
  destruct (Hcs id c Hc) as (c1 & Hc1 & _ & _ & _ & _ & HS).
  assert (HQ : c_Q c1 = c_Q c) by apply HS.
  assert (Hm : T_min c1 = T_min c) by apply HS.
  destruct (forCells_visited_in f1
              (fun c' => c_Q c' = c_Q c /\ T_min c' = T_min c
                         /\ 0 <= c_T c' RATE)
              (Thermodynamics.preTimeStepCell libm self) c1)
    with (ids := getOrderedIndices (grid f1) "CausalNonWind")
         (f := f1) (id := id) as (c' & Hc' & _ & _ & Hr).
  - intros f' HF.
    apply (preTimeStepCell_cold libm self f f' c c1); try assumption.
    eapply sameConsts_trans; [exact HK | now apply sameFrame_consts].
  - intros f' c' HF (HQ' & Hm' & _).
    apply (preTimeStepCell_cold libm self f f' c c'); try assumption.
    eapply sameConsts_trans; [exact HK | now apply sameFrame_consts].
  - apply GridFacts.sameFrame_refl.
  - exact Hc1.
  - unfold getOrderedIndices in *. now rewrite Ho.
  - exists c'. now split.
Qed.

(** X10. A cell whose temperature is at or below its T_min is not cooled:
    preTimeStepCalculations leaves it with T[RATE] >= 0. *)
Theorem preTimeStepCalculations_no_cooling_below_T_min (libm : Cmath)
    (self : Thermo) (mpihandler : MPIW) (f : Fluid) (id : nat)
    (c : GridCell Q) :
  id ∈ getOrderedIndices (grid f) "CausalNonWind" ->
  cells (grid f) !! id = Some c ->
  0 <= m_heatingAmplification self ->
  calcTemperature f (c_Q c HII) (c_Q c PRE) (c_Q c DEN) <= T_min c ->
  exists c',
    cells (grid (Thermodynamics.preTimeStepCalculations
                   libm self mpihandler f)) !! id = Some c'
    /\ 0 <= c_T c' RATE.
Proof. apply preTimeStepCalculations_cold. Qed.

Lemma integrate_writes_rate_only_witness :
  exists c',
    cells (grid (Thermodynamics.integrate
                   Sample.libm (Sample.thermo true 0.5) 1
                   (Sample.fluid (Sample.cell 0 0 0) (Sample.warm (-40) 3)
                                 (Sample.warm 0 3) false)))
      !! 1%nat = Some c'
    /\ onlyRate (Sample.warm (-40) 3) c'.
Proof.
  destruct (integrate_writes_rate_only
              Sample.libm (Sample.thermo true 0.5) 1
              (Sample.fluid (Sample.cell 0 0 0) (Sample.warm (-40) 3)
                            (Sample.warm 0 3) false)) as (H & _).
  apply H. reflexivity.
Defined.

Lemma preTimeStepCalculations_writes_T_only_witness :
  exists c',
    cells (grid (Thermodynamics.preTimeStepCalculations
                   Sample.libm (Sample.thermo true 0.5) Sample.mpi
                   (Sample.fluid (Sample.cell 0 0 0) (Sample.warm (-40) 3)
                                 (Sample.warm 0 3) true)))
      !! 1%nat = Some c'
    /\ onlyThermo (Sample.warm (-40) 3) c'.
Proof.
  destruct (preTimeStepCalculations_writes_T_only
              Sample.libm (Sample.thermo true 0.5) Sample.mpi
              (Sample.fluid (Sample.cell 0 0 0) (Sample.warm (-40) 3)
                            (Sample.warm 0 3) true)) as (H & _).
  apply H. reflexivity.
Defined.

Lemma preTimeStepCalculations_no_cooling_below_T_min_witness :
  exists c',
    cells (grid (Thermodynamics.preTimeStepCalculations
                   Sample.libm (Sample.thermo true 0.5) Sample.mpi
                   (Sample.fluid (Sample.cell 0 0 0) (Sample.cell 1 (-3) 0)
                                 (Sample.cell 1 4 5) true)))
      !! 1%nat = Some c'
    /\ 0 <= c_T c' RATE.
Proof.
  apply (preTimeStepCalculations_no_cooling_below_T_min
           Sample.libm (Sample.thermo true 0.5) Sample.mpi
           (Sample.fluid (Sample.cell 0 0 0) (Sample.cell 1 (-3) 0)
                         (Sample.cell 1 4 5) true)
           1%nat (Sample.cell 1 (-3) 0)).
  - apply list_elem_of_here.
  - reflexivity.
  - vm_compute. discriminate.
  - vm_compute. discriminate.
Defined.

(** ** One thermodynamics sub-step below the switch *)

Lemma preTimeStepCell_switchedOff libm self f c0 c :
  c_Q c0 ADV < m_thermoHII_Switch self ->
  c_UDOT c = c_UDOT c0 -> sameState c0 c ->
  switchedOff c0 (Thermodynamics.preTimeStepCell libm self f c).
Proof.
  intros Hlt HU HS. unfold Thermodynamics.preTimeStepCell.
  assert (HQ : c_Q c = c_Q c0) by apply HS.
  rewrite HQ. apply NumFacts.ltb_lt in Hlt. rewrite Hlt.
  unfold switchedOff, sameState in *.
  cbn [set_T set_H c_T c_H c_UDOT xc ds c_Q c_U c_W c_GRAV neighbourIDs
       neighbourWeights T_min heatCapacityRatio].
  rewrite upd_eq. tauto.
Qed.

Lemma integrateCell_switchedOff libm self dt c0 c :
  c_Q c0 ADV < m_thermoHII_Switch self ->
  c_UDOT c = c_UDOT c0 -> sameState c0 c ->
  switchedOff c0 (Thermodynamics.integrateCell libm self dt c).
Proof.
  intros Hlt HU HS. unfold Thermodynamics.integrateCell.
  assert (HQ : c_Q c = c_Q c0) by apply HS.
  rewrite HQ. apply NumFacts.ltb_lt in Hlt. rewrite Hlt.
  unfold switchedOff, sameState in *.
  cbn [set_T set_H c_T c_H c_UDOT xc ds c_Q c_U c_W c_GRAV neighbourIDs
       neighbourWeights T_min heatCapacityRatio].
  rewrite upd_eq. tauto.
Qed.

Lemma updateSourceTermsCell_noSourceTerm c0 c :
  c_T c RATE = 0 ->
  c_UDOT c PRE == c_UDOT c0 PRE ->
  (forall k, k <> PRE -> c_UDOT c k = c_UDOT c0 k) ->
  sameState c0 c ->
  noSourceTerm c0 (Thermodynamics.updateSourceTermsCell c).
Proof.
  intros Hr HU Hk HS.
  unfold noSourceTerm, Thermodynamics.updateSourceTermsCell, sameState in *.
  cbn [set_T set_UDOT c_T c_H c_UDOT xc ds c_Q c_U c_W c_GRAV neighbourIDs
       neighbourWeights T_min heatCapacityRatio].
  rewrite (upd_ne _ RATE _ HEAT) by discriminate.
  rewrite !upd_eq, Hr.
  split; [rewrite HU; ring|].
  split; [intros k Hne; rewrite upd_ne by exact Hne; now apply Hk|].
  tauto.
Qed.

(** X11. One thermodynamics sub-step adds no source term to a cell below
    the switch. *)
Theorem thermo_substep_below_switch (libm : Cmath) (self : Thermo)
    (mpihandler : MPIW) (dt : Q) (f : Fluid) (id : nat) (c : GridCell Q) :
  id ∈ getOrderedIndices (grid f) "CausalNonWind" ->
  cells (grid f) !! id = Some c ->
  c_Q c ADV < m_thermoHII_Switch self ->
  exists c',
    cells (grid (Thermodynamics.updateSourceTerms dt
                   (Thermodynamics.integrate libm self dt
                      (Thermodynamics.preTimeStepCalculations
                         libm self mpihandler f)))) !! id = Some c'
    /\ noSourceTerm c c'.
Proof.
  intros Hin Hc Hlt.
  (* preTimeStepCalculations *)
  assert (H1 : exists c1,
             cells (grid (Thermodynamics.preTimeStepCalculations
                            libm self mpihandler f)) !! id = Some c1
             /\ switchedOff c c1).
  { unfold Thermodynamics.preTimeStepCalculations. cbv zeta.
    destruct (preTimeStep_traced self mpihandler f) as ((_ & Ho & Hcs) & _).
    set (f1 := if on (star f) then _ else f) in *.
    destruct (Hcs id c Hc) as (c0 & Hc0 & _ & _ & _ & HU & HS).
    apply (GridFacts.forCells_visited (switchedOff c) _ c0).
    - intros f'. now apply preTimeStepCell_switchedOff.
    - intros f' c' (_ & HU' & HS'). now apply preTimeStepCell_switchedOff.
    - exact Hc0.
    - unfold getOrderedIndices in *. now rewrite Ho. }
  destruct H1 as (c1 & Hc1 & R1).
  pose proof (preTimeStepCalculations_frame libm self mpihandler f)
    as (_ & Ho1 & _).
  set (f1 := Thermodynamics.preTimeStepCalculations libm self mpihandler f)
    in *.
  (* integrate *)
  assert (H2 : exists c2,
             cells (grid (Thermodynamics.integrate libm self dt f1)) !! id
             = Some c2 /\ switchedOff c c2).
  { unfold Thermodynamics.integrate.
    destruct (m_isSubcycling self); cbn [negb]; [|now exists c1].
    destruct R1 as (_ & HU1 & HS1).
    apply (GridFacts.forCells_visited (switchedOff c) _ c1).
    - intros _. now apply integrateCell_switchedOff.
    - intros _ c' (_ & HU' & HS'). now apply integrateCell_switchedOff.
    - exact Hc1.
    - unfold getOrderedIndices in *. now rewrite Ho1. }
  destruct H2 as (c2 & Hc2 & R2).
  pose proof (integrate_frame libm self dt f1) as HF2.
  set (f2 := Thermodynamics.integrate libm self dt f1) in *.
  (* updateSourceTerms *)
  unfold Thermodynamics.updateSourceTerms.
  destruct R2 as (Hr2 & HU2 & HS2).
  apply (GridFacts.forCells_visited (noSourceTerm c) _ c2).
  - intros _. apply updateSourceTermsCell_noSourceTerm; try assumption.
    + now rewrite HU2.
    + intros k _. now rewrite HU2.
  - intros _ c' (HU' & Hk' & Hr' & _ & HS').
    now apply updateSourceTermsCell_noSourceTerm.
  - exact Hc2.
  - destruct HF2 as (_ & _ & _ & _ & _ & Ho2 & _).
    unfold getOrderedIndices in *. now rewrite Ho2, Ho1.
Qed.

Lemma thermo_substep_below_switch_witness :
  exists c',
    cells (grid (Thermodynamics.updateSourceTerms 1
                   (Thermodynamics.integrate
                      Sample.libm (Sample.thermo false 0.5) 1
                      (Thermodynamics.preTimeStepCalculations
                         Sample.libm (Sample.thermo false 0.5) Sample.mpi
                         (Sample.fluid (Sample.cell 0 0 0)
                                       (Sample.cell 0 5 7)
                                       (Sample.cell 1 4 5) true)))))
      !! 1%nat = Some c'
    /\ noSourceTerm (Sample.cell 0 5 7) c'.
Proof.
  apply (thermo_substep_below_switch
           Sample.libm (Sample.thermo false 0.5) Sample.mpi 1
           (Sample.fluid (Sample.cell 0 0 0) (Sample.cell 0 5 7)
                         (Sample.cell 1 4 5) true)
           1%nat (Sample.cell 0 5 7)).
  - apply list_elem_of_here.
  - reflexivity.
  - reflexivity.
Defined.

(** ** Thermodynamics::initialiseMinTempField *)

Lemma calcTemperature_consts f f' hii pre den :
  sameConsts f f' ->
  calcTemperature f' hii pre den = calcTemperature f hii pre den.
Proof. intros (HK & HX). unfold calcTemperature. now rewrite HK, HX. Qed.

Lemma set_T_min_floorSet floor c0 c :
  floorSet floor c0 c \/ c = c0 -> floorSet floor c0 (set_T_min c floor).
Proof.
  intros [H| ->]; unfold floorSet in *; cbn; [|tauto].
  destruct H as (_ & H). tauto.
Qed.

Lemma initialiseMinTempField_frame self f :
  sameFrame f (Thermodynamics.initialiseMinTempField self f).
Proof.
  unfold Thermodynamics.initialiseMinTempField.
  destruct (m_minTempInitialState self); apply GridFacts.forCells_frame.
Qed.

Lemma initialiseMinTempField_floor (self : Thermo) (f : Fluid) (id : nat)
    (c : GridCell Q) :
  id ∈ getOrderedIndices (grid f) "GridCells" ->
  cells (grid f) !! id = Some c ->
  exists c',
    cells (grid (Thermodynamics.initialiseMinTempField self f)) !! id
    = Some c'
    /\ floorSet (if m_minTempInitialState self
                 then calcTemperature f (c_Q c HII) (c_Q c PRE) (c_Q c DEN)
                 else m_T_min self) c c'.
Proof.
  intros Hin Hc. unfold Thermodynamics.initialiseMinTempField.
  destruct (m_minTempInitialState self).
  - apply (forCells_visited_in f
             (floorSet (calcTemperature f (c_Q c HII) (c_Q c PRE)
                                        (c_Q c DEN)) c) _ c);
      try assumption; [| |apply GridFacts.sameFrame_refl].
    + intros f' HF.
      rewrite (calcTemperature_consts f f') by now apply sameFrame_consts.
      apply set_T_min_floorSet. now right.
    + intros f' c' HF HP.
      rewrite (calcTemperature_consts f f') by now apply sameFrame_consts.
      assert (EQ : c_Q c' = c_Q c) by apply HP. rewrite EQ.
      apply set_T_min_floorSet. now left.
  - apply (GridFacts.forCells_visited (floorSet (m_T_min self) c) _ c);
      try assumption.
    + intros _. apply set_T_min_floorSet. now right.
    + intros _ c' HP. apply set_T_min_floorSet. now left.
Qed.

(** X12. initialiseMinTempField gives every cell of the GridCells ordering
    the temperature floor m_T_min, or its own temperature when
    minTempInitialState is set, and writes nothing else. *)
Theorem initialiseMinTempField_sets_floor (self : Thermo) (f : Fluid) :
  let f' := Thermodynamics.initialiseMinTempField self f in
  (forall (id : nat) c,
      id ∈ getOrderedIndices (grid f) "GridCells" ->
      cells (grid f) !! id = Some c ->
      exists c',
        cells (grid f') !! id = Some c'
        /\ floorSet (if m_minTempInitialState self
                     then calcTemperature f (c_Q c HII) (c_Q c PRE)
                                          (c_Q c DEN)
                     else m_T_min self) c c') /\
  (forall id : nat,
      id ∉ getOrderedIndices (grid f) "GridCells" ->
      cells (grid f') !! id = cells (grid f) !! id) /\
  sameFrame f f'.
Proof.
  cbv zeta. split; [|split].
  - intros id c. apply initialiseMinTempField_floor.
  - intros id Hid. unfold Thermodynamics.initialiseMinTempField.
    destruct (m_minTempInitialState self);
      now apply GridFacts.forCells_other.
  - apply initialiseMinTempField_frame.
Qed.

(** X13. With minTempInitialState set, the state in which the temperature
    floor was initialised is not cooled: preTimeStepCalculations leaves
    every cell of both orderings with T[RATE] >= 0. *)
Theorem initial_state_not_cooled (libm : Cmath) (self : Thermo)
    (mpihandler : MPIW) (f : Fluid) (id : nat) (c : GridCell Q) :
  m_minTempInitialState self = true ->
  id ∈ getOrderedIndices (grid f) "GridCells" ->
  id ∈ getOrderedIndices (grid f) "CausalNonWind" ->
  cells (grid f) !! id = Some c ->
  0 <= m_heatingAmplification self ->
  exists c',
    cells (grid (Thermodynamics.preTimeStepCalculations
                   libm self mpihandler
                   (Thermodynamics.initialiseMinTempField self f))) !! id
    = Some c'
    /\ 0 <= c_T c' RATE.
Proof.
  intros Hmin Hg Hn Hc Ha.
  destruct (initialiseMinTempField_floor self f id c Hg Hc)
    as (c1 & Hc1 & HT & _ & _ & HQ & _).
  rewrite Hmin in HT.
  pose proof (initialiseMinTempField_frame self f) as HF.
  apply (preTimeStepCalculations_cold libm self mpihandler _ id c1).
  - destruct HF as (_ & _ & _ & _ & _ & Ho & _).
    unfold getOrderedIndices in *. now rewrite Ho.
  - exact Hc1.
  - exact Ha.
  - rewrite (calcTemperature_consts f _) by now apply sameFrame_consts.
    rewrite HQ, HT. apply Qle_refl.
Qed.

Lemma initialiseMinTempField_sets_floor_witness :
  exists c',
    cells (grid (Thermodynamics.initialiseMinTempField
                   (Sample.thermo true 0.5)
                   (Sample.fluid (Sample.cell 0 0 0) (Sample.cell 1 (-3) 0)
                                 (Sample.cell 1 4 5) true)))
      !! 1%nat = Some c'
    /\ floorSet 100 (Sample.cell 1 (-3) 0) c'.
Proof.
  destruct (initialiseMinTempField_sets_floor
              (Sample.thermo true 0.5)
              (Sample.fluid (Sample.cell 0 0 0) (Sample.cell 1 (-3) 0)
                            (Sample.cell 1 4 5) true)) as (H & _).
  apply (H 1%nat (Sample.cell 1 (-3) 0)).
  - apply list_elem_of_further, list_elem_of_here.
  - reflexivity.
Defined.

Lemma initial_state_not_cooled_witness :
  exists c',
    cells (grid (Thermodynamics.preTimeStepCalculations
                   Sample.libm Example.thermoInitialFloor Sample.mpi
                   (Thermodynamics.initialiseMinTempField
                      Example.thermoInitialFloor
                      (Sample.fluid (Sample.cell 0 0 0)
                                    (Sample.warm (-40) 3)
                                    (Sample.warm 0 3) true))))
      !! 1%nat = Some c'
    /\ 0 <= c_T c' RATE.
Proof.
  apply (initial_state_not_cooled
           Sample.libm Example.thermoInitialFloor Sample.mpi
           (Sample.fluid (Sample.cell 0 0 0) (Sample.warm (-40) 3)
                         (Sample.warm 0 3) true)
           1%nat (Sample.warm (-40) 3)).
  - reflexivity.
  - apply list_elem_of_further, list_elem_of_here.
  - apply list_elem_of_here.
  - reflexivity.
  - vm_compute. discriminate.
Defined.

(** ** The column density of Thermodynamics::updateColDen *)

Lemma w_raga_colden g cell i :
  Thermodynamics.w_raga g cell i * Thermodynamics.colden g cell i
  == contributing g cell i.
Proof.
  unfold Thermodynamics.w_raga, contributing.
  destruct (Num.eqb (Thermodynamics.colden g cell i) 0) eqn:E.
  - ring.
  - apply NumFacts.eqb_neq in E. field. exact E.
Qed.

Lemma updateColDen_far self g cell dist2 :
  0.95 * 0.95 < dist2 ->
  c_T (Thermodynamics.updateColDen self g cell dist2) COL_DEN
  = snd (Thermodynamics.renormalise g cell).
Proof.
  intros Hd. unfold Thermodynamics.updateColDen.
  apply NumFacts.ltb_lt in Hd. rewrite Hd.
  cbn [set_T c_T]. rewrite upd_ne by discriminate. now rewrite upd_eq.
Qed.

Lemma updateColDen_near self g cell dist2 :
  dist2 <= 0.95 * 0.95 ->
  c_T (Thermodynamics.updateColDen self g cell dist2) COL_DEN = 0.
Proof.
  intros Hd. unfold Thermodynamics.updateColDen.
  apply NumFacts.ltb_ge in Hd. rewrite Hd.
  cbn [set_T c_T]. rewrite upd_ne by discriminate. now rewrite upd_eq.
Qed.

(** X14. Outside the source shell the new column density is the weighted
    harmonic mean of the upwind column densities. *)
Theorem updateColDen_harmonic_mean (self : Thermo) (g : Grid)
    (cell : GridCell Q) (dist2 : Q) :
  0.95 * 0.95 < dist2 ->
  ~ Thermodynamics.sum_w g cell == 0 ->
  c_T (Thermodynamics.updateColDen self g cell dist2) COL_DEN
  == (contributing g cell 0 + contributing g cell 1
      + contributing g cell 2 + contributing g cell 3)
     / Thermodynamics.sum_w g cell.
Proof.
  intros Hd Hs. rewrite (updateColDen_far self g cell dist2 Hd).
  rewrite (renormalise_nonzero g cell Hs). cbn [snd].
  rewrite <- !w_raga_colden. field. exact Hs.
Qed.

Lemma w_raga_nonneg g cell i :
  0 <= neighbourWeights cell i -> 0 <= Thermodynamics.colden g cell i ->
  0 <= Thermodynamics.w_raga g cell i.
Proof.
  intros Hw Hc. unfold Thermodynamics.w_raga.
  destruct (Num.eqb (Thermodynamics.colden g cell i) 0) eqn:E; [lra|].
  apply NumFacts.eqb_neq in E.
  apply Qle_shift_div_l; [|lra].
  apply Qnot_le_lt. intros Hc'. apply E. lra.
Qed.

Lemma w_raga_absent g cell i :
  Thermodynamics.colden g cell i == 0 -> Thermodynamics.w_raga g cell i = 0.
Proof.
  intros E. unfold Thermodynamics.w_raga.
  apply NumFacts.eqb_eq in E. now rewrite E.
Qed.

(** A term of the weighted sum, against an upper and a lower bound. *)
Lemma weighted_term_upper w s c M :
  0 <= w -> 0 < s -> c <= M -> 0 <= w / s * (M - c).
Proof.
  intros Hw Hs Hc. apply Qmult_le_0_compat; [|lra].
  apply Qle_shift_div_l; lra.
Qed.

Lemma weighted_term_lower g cell i s m :
  0 <= Thermodynamics.w_raga g cell i -> 0 < s ->
  (~ Thermodynamics.colden g cell i == 0 ->
   m <= Thermodynamics.colden g cell i) ->
  0 <= Thermodynamics.w_raga g cell i / s
       * (Thermodynamics.colden g cell i - m).
Proof.
  intros Hw Hs Hc.
  destruct (Qeq_dec (Thermodynamics.colden g cell i) 0) as [E|E].
  - rewrite (w_raga_absent g cell i E).
    assert (Z : 0 / s * (Thermodynamics.colden g cell i - m) == 0)
      by (field; lra).
    rewrite Z. lra.
  - apply Qmult_le_0_compat; [|specialize (Hc E); lra].
    apply Qle_shift_div_l; lra.
Qed.

(** X15. With non-negative weights and upwind column densities the new
    column density lies between the smallest non-zero and the largest of
    the upwind column densities. *)
Theorem updateColDen_bounds (self : Thermo) (g : Grid) (cell : GridCell Q)
    (dist2 m M : Q) :
  let new := c_T (Thermodynamics.updateColDen self g cell dist2) COL_DEN in
  (forall i, (i < 4)%nat -> 0 <= neighbourWeights cell i) ->
  (forall i, (i < 4)%nat -> 0 <= Thermodynamics.colden g cell i) ->
  (forall i, (i < 4)%nat -> Thermodynamics.colden g cell i <= M) ->
  (forall i, (i < 4)%nat -> ~ Thermodynamics.colden g cell i == 0 ->
                            m <= Thermodynamics.colden g cell i) ->
  0 <= new /\ new <= M /\
  (0.95 * 0.95 < dist2 -> ~ Thermodynamics.sum_w g cell == 0 -> m <= new).
Proof.
  cbv zeta. intros Hw Hc HM Hm.
  assert (HM0 : 0 <= M).
  { pose proof (Hc 0%nat ltac:(lia)) as A.
    pose proof (HM 0%nat ltac:(lia)) as B.
    eapply Qle_trans; [exact A | exact B]. }
  pose proof (w_raga_nonneg g cell 0 (Hw 0%nat ltac:(lia))
                            (Hc 0%nat ltac:(lia))) as W0.
  pose proof (w_raga_nonneg g cell 1 (Hw 1%nat ltac:(lia))
                            (Hc 1%nat ltac:(lia))) as W1.
  pose proof (w_raga_nonneg g cell 2 (Hw 2%nat ltac:(lia))
                            (Hc 2%nat ltac:(lia))) as W2.
  pose proof (w_raga_nonneg g cell 3 (Hw 3%nat ltac:(lia))
                            (Hc 3%nat ltac:(lia))) as W3.
  destruct (Qlt_le_dec (0.95 * 0.95) dist2) as [Hd|Hd];
    [|rewrite (updateColDen_near self g cell dist2 Hd);
      split; [lra|]; split; [lra|]; intros; lra].
  rewrite (updateColDen_far self g cell dist2 Hd).
  destruct (Qeq_dec (Thermodynamics.sum_w g cell) 0) as [Hs|Hs].
  { rewrite (renormalise_zero g cell Hs). cbn [snd].
    split; [lra|]. split; [lra|]. intros _ Hn. contradiction. }
  rewrite (renormalise_nonzero g cell Hs). cbn [snd].
  set (s := Thermodynamics.sum_w g cell) in *.
  assert (Hs0 : 0 < s).
  { apply Qnot_le_lt. intros Hc'. apply Hs.
    subst s. unfold Thermodynamics.sum_w in *. lra. }
  set (w0 := Thermodynamics.w_raga g cell 0) in *.
  set (w1 := Thermodynamics.w_raga g cell 1) in *.
  set (w2 := Thermodynamics.w_raga g cell 2) in *.
  set (w3 := Thermodynamics.w_raga g cell 3) in *.
  set (c0 := Thermodynamics.colden g cell 0) in *.
  set (c1 := Thermodynamics.colden g cell 1) in *.
  set (c2 := Thermodynamics.colden g cell 2) in *.
  set (c3 := Thermodynamics.colden g cell 3) in *.
  assert (Es : s == w0 + w1 + w2 + w3) by reflexivity.
  set (new := 0.0 + w0 / s * c0 + w1 / s * c1 + w2 / s * c2 + w3 / s * c3).
  assert (U : M - new
              == w0 / s * (M - c0) + w1 / s * (M - c1)
                 + w2 / s * (M - c2) + w3 / s * (M - c3)).
  { subst new.
    assert (E1 : M == (w0 + w1 + w2 + w3) / s * M)
      by (rewrite <- Es; field; exact Hs).
    rewrite E1 at 1. field. exact Hs. }
  assert (L : forall b, new - b
              == w0 / s * (c0 - b) + w1 / s * (c1 - b)
                 + w2 / s * (c2 - b) + w3 / s * (c3 - b)).
  { intros b. subst new.
    assert (E1 : b == (w0 + w1 + w2 + w3) / s * b)
      by (rewrite <- Es; field; exact Hs).
    rewrite E1 at 1. field. exact Hs. }
  pose proof (weighted_term_upper w0 s c0 M W0 Hs0 (HM 0%nat ltac:(lia))) as U0.
  pose proof (weighted_term_upper w1 s c1 M W1 Hs0 (HM 1%nat ltac:(lia))) as U1.
  pose proof (weighted_term_upper w2 s c2 M W2 Hs0 (HM 2%nat ltac:(lia))) as U2.
  pose proof (weighted_term_upper w3 s c3 M W3 Hs0 (HM 3%nat ltac:(lia))) as U3.
  split; [|split].
  - pose proof (L 0) as L0.
    pose proof (weighted_term_lower g cell 0 s 0 W0 Hs0
                  (fun _ => Hc 0%nat ltac:(lia))) as A0.
    pose proof (weighted_term_lower g cell 1 s 0 W1 Hs0
                  (fun _ => Hc 1%nat ltac:(lia))) as A1.
    pose proof (weighted_term_lower g cell 2 s 0 W2 Hs0
                  (fun _ => Hc 2%nat ltac:(lia))) as A2.
    pose proof (weighted_term_lower g cell 3 s 0 W3 Hs0
                  (fun _ => Hc 3%nat ltac:(lia))) as A3.
    fold w0 c0 in A0. fold w1 c1 in A1. fold w2 c2 in A2. fold w3 c3 in A3.
    lra.
  - lra.
  - intros _ _. pose proof (L m) as Lm.
    pose proof (weighted_term_lower g cell 0 s m W0 Hs0
                  (Hm 0%nat ltac:(lia))) as A0.
    pose proof (weighted_term_lower g cell 1 s m W1 Hs0
                  (Hm 1%nat ltac:(lia))) as A1.
    pose proof (weighted_term_lower g cell 2 s m W2 Hs0
                  (Hm 2%nat ltac:(lia))) as A2.
    pose proof (weighted_term_lower g cell 3 s m W3 Hs0
                  (Hm 3%nat ltac:(lia))) as A3.
    fold w0 c0 in A0. fold w1 c1 in A1. fold w2 c2 in A2. fold w3 c3 in A3.
    lra.
Qed.

Lemma updateColDen_harmonic_mean_witness :
  let cell := Sample.linked (Sample.cell 1 0 0) 0 1 in
  let g := grid (Sample.fluid (Sample.withColDen (Sample.cell 0 0 0) 1 1)
                              (Sample.withColDen (Sample.cell 1 0 0) 2 4)
                              cell true) in
  c_T (Thermodynamics.updateColDen (Sample.thermo true 0.5) g cell 4) COL_DEN
  == (contributing g cell 0 + contributing g cell 1
      + contributing g cell 2 + contributing g cell 3)
     / Thermodynamics.sum_w g cell.
Proof.
  cbv zeta.
  apply (updateColDen_harmonic_mean
           (Sample.thermo true 0.5)
           (grid (Sample.fluid (Sample.withColDen (Sample.cell 0 0 0) 1 1)
                               (Sample.withColDen (Sample.cell 1 0 0) 2 4)
                               (Sample.linked (Sample.cell 1 0 0) 0 1) true))
           (Sample.linked (Sample.cell 1 0 0) 0 1) 4).
  - reflexivity.
  - vm_compute. discriminate.
Defined.

Lemma updateColDen_bounds_witness :
  let cell := Sample.linked (Sample.cell 1 0 0) 0 1 in
  let g := grid (Sample.fluid (Sample.withColDen (Sample.cell 0 0 0) 1 1)
                              (Sample.withColDen (Sample.cell 1 0 0) 2 4)
                              cell true) in
  let new :=
    c_T (Thermodynamics.updateColDen (Sample.thermo true 0.5) g cell 4)
        COL_DEN in
  2 <= new /\ new <= 6.
Proof.
  cbv zeta.
  destruct (updateColDen_bounds
              (Sample.thermo true 0.5)
              (grid (Sample.fluid (Sample.withColDen (Sample.cell 0 0 0) 1 1)
                                  (Sample.withColDen (Sample.cell 1 0 0) 2 4)
                                  (Sample.linked (Sample.cell 1 0 0) 0 1)
                                  true))
              (Sample.linked (Sample.cell 1 0 0) 0 1) 4 2 6)
    as (_ & Hup & Hlo).
  - intros i Hi. vm_compute. discriminate.
  - intros i Hi. destruct i as [|[|[|[|i]]]]; [..|lia];
      vm_compute; discriminate.
  - intros i Hi. destruct i as [|[|[|[|i]]]]; [..|lia];
      vm_compute; discriminate.
  - intros i Hi Hn. destruct i as [|[|[|[|i]]]]; [..|lia];
      try (vm_compute; discriminate); exfalso; apply Hn; reflexivity.
  - split; [apply Hlo|exact Hup].
    + reflexivity.
    + vm_compute. discriminate.
Defined.

(** ** Thermodynamics::rayTrace on a single rank *)

Module SweepFacts.

Lemma sameCell_refl c : sameCell c c.
Proof. unfold sameCell. auto using GridFacts.sameState_refl. Qed.

Lemma sameCell_trans c1 c2 c3 :
  sameCell c1 c2 -> sameCell c2 c3 -> sameCell c1 c3.
Proof.
  intros (H1 & H2 & H3 & H4) (K1 & K2 & K3 & K4). unfold sameCell.
  split; [intros k; now rewrite K1|].
  split; [congruence|]. split; [congruence|].
  eapply GridFacts.sameState_trans; eassumption.
Qed.

Lemma sameCells_refl f : sameCells f f.
Proof.
  intros id. destruct (cells (grid f) !! id); [apply sameCell_refl | exact I].
Qed.

Lemma sameCells_set_partition f p : sameCells f (set_partition f p).
Proof. exact (sameCells_refl f). Qed.

(** The new column densities depend on the grid through the four values
    of [colden] only. *)
Lemma renormalise_local g g' c c' :
  (forall i, (i < 4)%nat ->
             Thermodynamics.colden g' c' i = Thermodynamics.colden g c i) ->
  neighbourWeights c' = neighbourWeights c ->
  snd (Thermodynamics.renormalise g' c') = snd (Thermodynamics.renormalise g c).
Proof.
  intros Hc Hw.
  assert (W : forall i, (i < 4)%nat ->
                        Thermodynamics.w_raga g' c' i
                        = Thermodynamics.w_raga g c i).
  { intros i Hi. unfold Thermodynamics.w_raga. now rewrite Hc, Hw. }
  assert (S : Thermodynamics.sum_w g' c' = Thermodynamics.sum_w g c).
  { unfold Thermodynamics.sum_w. now rewrite !W by lia. }
  destruct (Qeq_dec (Thermodynamics.sum_w g c) 0) as [E|E].
  - rewrite (renormalise_zero g c E).
    rewrite renormalise_zero by (rewrite S; exact E). reflexivity.
  - rewrite (renormalise_nonzero g c E).
    rewrite renormalise_nonzero by (rewrite S; exact E).
    cbn [snd]. now rewrite S, !W, !Hc by lia.
Qed.

Lemma updateColDen_local self g g' c c' d :
  sameCell c c' ->
  (forall i, (i < 4)%nat ->
             Thermodynamics.colden g' c' i = Thermodynamics.colden g c i) ->
  sameCell (Thermodynamics.updateColDen self g c d)
           (Thermodynamics.updateColDen self g' c' d).
Proof.
  intros (HT & HH & HU & HS) Hc.
  assert (HQ : c_Q c' = c_Q c) by apply HS.
  assert (Hds : ds c' = ds c) by apply HS.
  assert (Hw : neighbourWeights c' = neighbourWeights c) by apply HS.
  unfold Thermodynamics.updateColDen.
  rewrite (renormalise_local g g' c c' Hc Hw), HQ, Hds.
  destruct (Num.ltb (0.95 * 0.95) d); cbv zeta;
    (split; [|split; [exact HH|split; [exact HU|exact HS]]]);
    intros k; cbn [set_T c_T]; unfold upd;
    repeat destruct (decide _); auto.
Qed.

(** Sweeping a cell that has been swept, in a grid with the same four
    values of [colden], changes nothing. *)
Lemma updateColDen_again self g g' c d :
  (forall i, (i < 4)%nat ->
             Thermodynamics.colden
               g' (Thermodynamics.updateColDen self g c d) i
             = Thermodynamics.colden g c i) ->
  sameCell (Thermodynamics.updateColDen self g c d)
           (Thermodynamics.updateColDen
              self g' (Thermodynamics.updateColDen self g c d) d).
Proof.
  intros Hc.
  set (c1 := Thermodynamics.updateColDen self g c d) in *.
  pose proof (RayTraceFacts.updateColDen_onlyColDen self g c d)
    as (_ & _ & _ & _ & HS). fold c1 in HS.
  pose proof (RayTraceFacts.updateColDen_onlyColDen self g' c1 d)
    as (R1 & R2 & R3 & R4 & R5).
  assert (HQ : c_Q c1 = c_Q c) by apply HS.
  assert (Hds : ds c1 = ds c) by apply HS.
  assert (Hw : neighbourWeights c1 = neighbourWeights c) by apply HS.
  split; [|split; [exact R3|split; [exact R4|exact R5]]].
  intros k. destruct k; [| |exact R1|exact R2].
  - unfold Thermodynamics.updateColDen at 1.
    rewrite (renormalise_local g g' c c1 Hc Hw).
    subst c1. unfold Thermodynamics.updateColDen.
    destruct (Num.ltb (0.95 * 0.95) d); cbv zeta; cbn [set_T c_T];
      rewrite !(upd_ne _ DCOL_DEN _ COL_DEN) by discriminate;
      now rewrite !upd_eq.
  - unfold Thermodynamics.updateColDen at 1. rewrite HQ, Hds.
    subst c1. unfold Thermodynamics.updateColDen.
    destruct (Num.ltb (0.95 * 0.95) d); cbv zeta; cbn [set_T c_T];
      now rewrite !upd_eq.
Qed.

Lemma colden_sameCells f g c c' i :
  sameCells f g -> sameCell c c' ->
  Thermodynamics.colden (grid g) c' i = Thermodynamics.colden (grid f) c i.
Proof.
  intros Hfg (_ & _ & _ & HS).
  assert (Hn : neighbourIDs c' = neighbourIDs c) by apply HS.
  unfold Thermodynamics.colden, Thermodynamics.neighbourT. rewrite Hn.
  destruct (negb _); [|reflexivity].
  specialize (Hfg (Z.to_nat (neighbourIDs c i))).
  destruct (cells (grid f) !! Z.to_nat (neighbourIDs c i)),
           (cells (grid g) !! Z.to_nat (neighbourIDs c i));
    try contradiction; [|reflexivity].
  destruct Hfg as (HT & _). now rewrite !HT.
Qed.

Lemma colden_unread g g' c c' i :
  neighbourIDs c' = neighbourIDs c ->
  (neighbourIDs c i <> (-1)%Z ->
   cells g' !! Z.to_nat (neighbourIDs c i)
   = cells g !! Z.to_nat (neighbourIDs c i)) ->
  Thermodynamics.colden g' c' i = Thermodynamics.colden g c i.
Proof.
  intros Hn H. unfold Thermodynamics.colden, Thermodynamics.neighbourT.
  rewrite Hn. destruct (Z.eqb_spec (neighbourIDs c i) (-1)) as [E|E];
    cbn [negb]; [reflexivity|].
  now rewrite (H E).
Qed.

Lemma starDist2_same self f f' c c' :
  star f' = star f -> xc c' = xc c ->
  Thermodynamics.starDist2 self f' c' = Thermodynamics.starDist2 self f c.
Proof. intros Hs Hx. unfold Thermodynamics.starDist2. now rewrite Hs, Hx. Qed.

Section Sweep.

Variable self : Thermo.

(** The body of the loops of rayTrace. *)
Local Abbreviation body :=
  (fun (f : Fluid) (cell : GridCell Q) =>
     Thermodynamics.updateColDen self (grid f) cell
                                 (Thermodynamics.starDist2 self f cell)).

Lemma body_sameState f c : sameState c (body f c).
Proof. apply RayTraceFacts.updateColDen_onlyColDen. Qed.

Lemma causal_tail f j rest :
  causal (grid f) (j :: rest) ->
  causal (grid (set_grid f (modifyCell j (body f) (grid f)))) rest.
Proof.
  intros Hc pre id post c i Hsplit Hid Hi Hn.
  destruct (decide (j = id)) as [->|Hne].
  - rewrite GridFacts.lookup_modifyCell_eq in Hid.
    destruct (cells (grid f) !! id) as [c0|] eqn:E0; [|discriminate].
    injection Hid as <-.
    assert (HN : neighbourIDs (body f c0) = neighbourIDs c0)
      by apply body_sameState.
    rewrite HN in *.
    apply (Hc (id :: pre) id post c0 i); try assumption.
    now rewrite Hsplit.
  - rewrite GridFacts.lookup_modifyCell_ne in Hid by exact Hne.
    apply (Hc (j :: pre) id post c i); try assumption.
    now rewrite Hsplit.
Qed.

(** After a sweep over a causal ordering every cell of the ordering is a
    fixed point of the sweep. *)
Lemma swept_fixed ids :
  forall f,
    NoDup ids -> causal (grid f) ids ->
    forall (id : nat) c1,
      id ∈ ids ->
      cells (grid (forCells body ids f)) !! id = Some c1 ->
      sameCell c1 (body (forCells body ids f) c1).
Proof.
  induction ids as [|j rest IH]; intros f Hnd Hc id c1 Hin Hc1.
  - inversion Hin.
  - apply NoDup_cons in Hnd as (Hj & Hnd).
    rewrite GridFacts.forCells_cons in *.
    set (f' := set_grid f (modifyCell j (body f) (grid f))) in *.
    apply elem_of_cons in Hin as [->|Hin];
      [|exact (IH f' Hnd (causal_tail f j rest Hc) id c1 Hin Hc1)].
    rewrite (GridFacts.forCells_other body j rest f' Hj) in Hc1.
    unfold f' in Hc1. rewrite GridFacts.lookup_modifyCell_eq in Hc1.
    destruct (cells (grid f) !! j) as [c0|] eqn:E0; [|discriminate].
    injection Hc1 as <-.
    set (f1 := forCells body rest f') in *.
    pose proof (body_sameState f c0) as HS.
    assert (Hfr : sameFrame f f1).
    { subst f1. eapply GridFacts.sameFrame_trans;
        [apply GridFacts.modifyCell_frame | apply GridFacts.forCells_frame]. }
    assert (Hd : Thermodynamics.starDist2 self f1 (body f c0)
                 = Thermodynamics.starDist2 self f c0).
    { apply starDist2_same; [apply Hfr | apply HS]. }
    cbv beta. rewrite Hd.
    apply updateColDen_again. intros i Hi.
    apply colden_unread; [apply HS|]. intros Hn.
    pose proof (Hc [] j rest c0 i eq_refl E0 Hi Hn) as Hout.
    assert (Hne : j <> Z.to_nat (neighbourIDs c0 i)).
    { intros E. apply Hout. rewrite <- E. left. }
    assert (Hrest : Z.to_nat (neighbourIDs c0 i) ∉ rest).
    { intros E. apply Hout. now right. }
    subst f1 f'. rewrite (GridFacts.forCells_other body _ rest _ Hrest).
    now rewrite GridFacts.lookup_modifyCell_ne.
Qed.

(** Sweeping fixed points again keeps the cells. *)
Lemma resweep f1 ids :
  (forall (id : nat) c1,
      id ∈ ids -> cells (grid f1) !! id = Some c1 ->
      sameCell c1 (body f1 c1)) ->
  forall g,
    sameCells f1 g -> star g = star f1 ->
    sameCells f1 (forCells body ids g).
Proof.
  induction ids as [|j rest IH]; intros Hfix g Hg Hs; [exact Hg|].
  rewrite GridFacts.forCells_cons. apply IH.
  - intros id c1 Hin. apply Hfix. now right.
  - intros id. destruct (decide (j = id)) as [->|Hne].
    + rewrite GridFacts.lookup_modifyCell_eq.
      pose proof (Hg id) as Hid.
      destruct (cells (grid f1) !! id) as [c1|] eqn:E1,
               (cells (grid g) !! id) as [cg|] eqn:Eg;
        try contradiction; cbn [fmap option_fmap option_map]; [|exact I].
      eapply sameCell_trans; [apply (Hfix id c1); [left|exact E1]|].
      assert (Hx : xc cg = xc c1) by apply Hid.
      rewrite (starDist2_same self f1 g c1 cg Hs Hx).
      apply updateColDen_local; [exact Hid|].
      intros i _. now apply colden_sameCells.
    + rewrite GridFacts.lookup_modifyCell_ne by exact Hne. apply Hg.
  - exact Hs.
Qed.

Lemma sweepColDen_idempotent (f : Fluid) (ids : list nat) :
  NoDup ids -> causal (grid f) ids ->
  forall g,
    sameCells (Thermodynamics.sweepColDen self f ids) g ->
    star g = star f ->
    sameCells (Thermodynamics.sweepColDen self f ids)
              (Thermodynamics.sweepColDen self g ids).
Proof.
  intros Hnd Hc g Hg Hs. unfold Thermodynamics.sweepColDen in *.
  apply resweep; [|exact Hg|].
  - intros id c1 Hin Hc1. exact (swept_fixed ids f Hnd Hc id c1 Hin Hc1).
  - rewrite Hs. symmetry. apply (GridFacts.forCells_frame body ids f).
Qed.

End Sweep.

End SweepFacts.

(** On a single rank that holds the star, rayTrace is one sweep over the
    CausalWind ordering followed by the CausalNonWind ordering. *)
Lemma rayTrace_single_rank (self : Thermo) (mpihandler : MPIW) (f : Fluid) :
  core (star f) = HERE ->
  rank mpihandler = 0%Z -> nProcessors mpihandler = 1%Z ->
  Thermodynamics.rayTrace self mpihandler f
  = Thermodynamics.sweepColDen
      self (set_partition f (resetBuffer (partition f)))
      (getOrderedIndices (grid f) "CausalWind"
       ++ getOrderedIndices (grid f) "CausalNonWind")%list.
Proof.
  intros Hcore Hrank Hn. unfold Thermodynamics.rayTrace. cbv zeta.
  cbn [star grid set_partition]. rewrite Hcore, Hrank, Hn.
  rewrite (bool_decide_eq_true_2 (HERE = HERE) eq_refl).
  change (Z.eqb 0 0) with true. change (Z.eqb 0 (1 - 1)) with true.
  cbn [negb orb].
  set (f0 := set_partition f (resetBuffer (partition f))).
  change (getOrderedIndices (grid f) "CausalWind")
    with (getOrderedIndices (grid f0) "CausalWind").
  set (W := getOrderedIndices (grid f0) "CausalWind").
  assert (HN : getOrderedIndices
                 (grid (Thermodynamics.sweepColDen self f0 W)) "CausalNonWind"
               = getOrderedIndices (grid f) "CausalNonWind").
  { unfold getOrderedIndices.
    destruct (GridFacts.forCells_frame
                (fun f cell =>
                   Thermodynamics.updateColDen
                     self (grid f) cell
                     (Thermodynamics.starDist2 self f cell)) W f0)
      as (_ & _ & _ & _ & _ & Ho & _).
    unfold Thermodynamics.sweepColDen. now rewrite Ho. }
  rewrite HN. unfold Thermodynamics.sweepColDen, forCells.
  now rewrite foldl_app.
Qed.

(** X16. On a single rank that holds the star, tracing the rays twice
    gives the column densities of tracing them once, when the CausalWind
    ordering followed by the CausalNonWind ordering lists no cell twice and
    is causal. *)
Theorem rayTrace_idempotent (self : Thermo) (mpihandler : MPIW) (f : Fluid) :
  let ids := (getOrderedIndices (grid f) "CausalWind"
              ++ getOrderedIndices (grid f) "CausalNonWind")%list in
  core (star f) = HERE ->
  rank mpihandler = 0%Z -> nProcessors mpihandler = 1%Z ->
  NoDup ids -> causal (grid f) ids ->
  sameCells (Thermodynamics.rayTrace self mpihandler f)
            (Thermodynamics.rayTrace
               self mpihandler (Thermodynamics.rayTrace self mpihandler f)).
Proof.
  cbv zeta. intros Hcore Hrank Hn Hnd Hc.
  pose proof (rayTrace_single_rank self mpihandler f Hcore Hrank Hn) as E1.
  set (f0 := set_partition f (resetBuffer (partition f))) in *.
  set (ids := (getOrderedIndices (grid f) "CausalWind"
               ++ getOrderedIndices (grid f) "CausalNonWind")%list) in *.
  pose proof (GridFacts.forCells_frame
                (fun f cell =>
                   Thermodynamics.updateColDen
                     self (grid f) cell
                     (Thermodynamics.starDist2 self f cell)) ids f0) as HF.
  fold (Thermodynamics.sweepColDen self f0 ids) in HF.
  rewrite <- E1 in HF.
  set (f1 := Thermodynamics.rayTrace self mpihandler f) in *.
  destruct HF as (Hs & _ & _ & _ & _ & Ho & _).
  cbn [star grid f0 set_partition] in Hs, Ho.
  rewrite (rayTrace_single_rank self mpihandler f1) by congruence.
  replace (getOrderedIndices (grid f1) "CausalWind"
           ++ getOrderedIndices (grid f1) "CausalNonWind")%list
    with ids by (unfold ids, getOrderedIndices; now rewrite Ho).
  rewrite E1 at 1.
  apply SweepFacts.sweepColDen_idempotent; try assumption.
  rewrite <- E1. apply SweepFacts.sameCells_set_partition.
Qed.

Lemma rayTrace_idempotent_witness :
  let f := Sample.fluid (Sample.cell 0 0 0)
                        (Sample.linked (Sample.cell 1 0 0) 0 (-1))
                        (Sample.linked (Sample.cell 1 0 0) 0 1) true in
  sameCells (Thermodynamics.rayTrace (Sample.thermo true 0.5) Sample.mpi f)
            (Thermodynamics.rayTrace
               (Sample.thermo true 0.5) Sample.mpi
               (Thermodynamics.rayTrace (Sample.thermo true 0.5)
                                        Sample.mpi f)).
Proof.
  cbv zeta.
  apply (rayTrace_idempotent
           (Sample.thermo true 0.5) Sample.mpi
           (Sample.fluid (Sample.cell 0 0 0)
                         (Sample.linked (Sample.cell 1 0 0) 0 (-1))
                         (Sample.linked (Sample.cell 1 0 0) 0 1) true)).
  - reflexivity.
  - reflexivity.
  - reflexivity.
  - repeat (apply NoDup_cons; split;
            [intros H;
             repeat (apply elem_of_cons in H as [H|H]; [discriminate H|]);
             inversion H|]).
    apply NoDup_nil_2.
  - intros pre id post c i Hsplit Hid Hi Hn Hin.
    destruct pre as [|p0 [|p1 [|p2 [|p3 pre]]]];
      cbn in Hsplit; injection Hsplit as; subst;
      try discriminate;
      cbn in Hid; injection Hid as <-;
      destruct i as [|[|[|[|i]]]]; try lia; cbn in Hn, Hin;
      try (now apply Hn);
      repeat (apply elem_of_cons in Hin as [Hin|Hin]; [discriminate Hin|]);
      inversion Hin.
Defined.

(** ** Torch::subStep and Torch::checkValues *)

Section StepperFacts.

Context {F : Type}.
Variable rev : Torch.Revision.
Variable ops : Torch.FluidOps F.
Variable hydrodynamics radiation thermodynamics : Integrator.t F.
Variable minimum : Q -> Q.
Variable getRank : Z.

Lemma checkValues_errorFree name (t : Torch.State F) :
  errorFree ops (Torch.fluid t) ->
  Torch.checkValues rev ops name t = Torch.Ok tt t.
Proof. intros H. unfold Torch.checkValues. now rewrite H. Qed.

Lemma checkValues_error name (t : Torch.State F) :
  ~ errorFree ops (Torch.fluid t) ->
  fatal rev (Torch.checkValues rev ops name t) /\
  Torch.fluid (Torch.final (Torch.checkValues rev ops name t))
  = Torch.fluid t /\
  Torch.substeps (Torch.final (Torch.checkValues rev ops name t))
  = Torch.substeps t.
Proof.
  intros H. unfold Torch.checkValues, errorFree in *.
  destruct (existsb _ _); [|congruence].
  destruct rev; simpl; auto.
Qed.

(** subStep is its two checks around the work of the component. *)
Lemma subStep_checks (dt : Q) (hasCalculatedHeatFlux : bool)
    (comp : Integrator.t F) (t : Torch.State F) :
  let call := Torch.mkCall dt hasCalculatedHeatFlux comp in
  let f' := subStepFluid ops dt hasCalculatedHeatFlux comp (Torch.fluid t) in
  Torch.subStep rev ops dt hasCalculatedHeatFlux comp t
  = if existsb Torch.hasError (Torch.getGridCells ops (Torch.fluid t))
    then Torch.checkValues rev ops
           (Integrator.getComponentName comp ++ "before")
           (Torch.record t call)
    else Torch.checkValues rev ops
           (Integrator.getComponentName comp ++ " after")
           (Torch.set_fluid (Torch.record t call) f').
Proof.
  cbv zeta. unfold Torch.subStep.
  unfold Torch.bind at 1. unfold Torch.modify at 1.
  unfold Torch.bind at 1.
  destruct (existsb Torch.hasError (Torch.getGridCells ops (Torch.fluid t)))
    eqn:E0.
  - unfold Torch.checkValues.
    cbn [Torch.record Torch.fluid]. rewrite E0. destruct rev; reflexivity.
  - rewrite (checkValues_errorFree _ (Torch.record t _) E0).
    unfold subStepFluid.
    destruct hasCalculatedHeatFlux; cbn [negb];
      unfold Torch.bind, Torch.onFluid, Torch.modify, Torch.ret;
      reflexivity.
Qed.

(** X17. subStep returns exactly when no cell has an error before and
    after the component has been applied. *)
Theorem subStep_outcome (dt : Q) (hasCalculatedHeatFlux : bool)
    (comp : Integrator.t F) (t : Torch.State F) :
  let call := Torch.mkCall dt hasCalculatedHeatFlux comp in
  let f' := subStepFluid ops dt hasCalculatedHeatFlux comp (Torch.fluid t) in
  let run := Torch.subStep rev ops dt hasCalculatedHeatFlux comp t in
  (errorFree ops (Torch.fluid t) -> errorFree ops f' ->
   run = Torch.Ok tt (Torch.set_fluid (Torch.record t call) f')) /\
  (~ errorFree ops (Torch.fluid t) ->
   fatal rev run /\ Torch.fluid (Torch.final run) = Torch.fluid t) /\
  (errorFree ops (Torch.fluid t) -> ~ errorFree ops f' ->
   fatal rev run /\ Torch.fluid (Torch.final run) = f') /\
  Torch.substeps (Torch.final run) = (Torch.substeps t ++ [call])%list.
Proof.
  cbv zeta. rewrite subStep_checks. cbv zeta.
  set (call := Torch.mkCall dt hasCalculatedHeatFlux comp).
  set (f' := subStepFluid ops dt hasCalculatedHeatFlux comp (Torch.fluid t)).
  destruct (existsb Torch.hasError (Torch.getGridCells ops (Torch.fluid t)))
    eqn:E0.
  - assert (N0 : ~ errorFree ops (Torch.fluid (Torch.record t call)))
      by (unfold errorFree; simpl; congruence).
    destruct (checkValues_error
                (Integrator.getComponentName comp ++ "before") _ N0)
      as (Hf & Hfl & Hsub).
    split; [unfold errorFree; congruence|].
    split; [intros _; split; [exact Hf | exact Hfl]|].
    split; [unfold errorFree; congruence | exact Hsub].
  - set (t7 := Torch.set_fluid (Torch.record t call) f').
    destruct (existsb Torch.hasError (Torch.getGridCells ops f')) eqn:E1.
    + assert (N1 : ~ errorFree ops (Torch.fluid t7))
        by (unfold errorFree; simpl; congruence).
      destruct (checkValues_error
                  (Integrator.getComponentName comp ++ " after") _ N1)
        as (Hf & Hfl & Hsub).
      split; [unfold errorFree; congruence|].
      split; [unfold errorFree; congruence|].
      split; [intros _ _; split; [exact Hf | exact Hfl]| exact Hsub].
    + rewrite (checkValues_errorFree _ t7 E1). cbn [Torch.final].
      split; [reflexivity|].
      split; [unfold errorFree; congruence|].
      split; [unfold errorFree; congruence | reflexivity].
Qed.

End StepperFacts.

Lemma subStep_outcome_witness :
  let t := Sample.state [Sample.fcell 1 1 1 0] false false in
  let comp := Sample.idle "Thermodynamics" (1 # 4) in
  Torch.subStep Torch.Part000 Sample.ops (1 # 2) false comp t
  = Torch.Ok tt
      (Torch.set_fluid
         (Torch.record t (Torch.mkCall (1 # 2) false comp))
         (subStepFluid Sample.ops (1 # 2) false comp (Torch.fluid t))).
Proof.
  cbv zeta.
  destruct (subStep_outcome
              Torch.Part000 Sample.ops (1 # 2) false
              (Sample.idle "Thermodynamics" (1 # 4))
              (Sample.state [Sample.fcell 1 1 1 0] false false))
    as (H & _).
  apply H; reflexivity.
Defined.

(** ** What Torch::checkValues accepts *)

Lemma hasError_accepted (cell : GridCell float) :
  Torch.hasError cell = false <-> accepted cell.
Proof.
  unfold accepted. split.
  - intros H.
    assert (N : ~ Torch.hasError cell = true) by (rewrite H; discriminate).
    rewrite TorchFacts.hasError_iff in N.
    split; [|split].
    + intros i Hi.
      destruct (PrimFloat.is_nan (c_U cell i)) eqn:E1;
        [exfalso; apply N; left; exists i; auto|].
      destruct (PrimFloat.is_infinity (c_U cell i)) eqn:E2;
        [exfalso; apply N; left; exists i; auto|]. auto.
    + destruct (PrimFloat.eqb (c_Q cell DEN) 0) eqn:E; [|reflexivity].
      exfalso. apply N. right. now left.
    + destruct (PrimFloat.eqb (c_Q cell PRE) 0) eqn:E; [|reflexivity].
      exfalso. apply N. right. now right.
  - intros (HU & HD & HP).
    destruct (Torch.hasError cell) eqn:E; [|reflexivity].
    apply TorchFacts.hasError_iff in E as [(i & Hi & [E|E])|[E|E]].
    + destruct (HU i Hi) as (H1 & _). congruence.
    + destruct (HU i Hi) as (_ & H2). congruence.
    + congruence.
    + congruence.
Qed.

(** X18. checkValues lets the run go on exactly when every cell is
    accepted: no U component is NaN or infinite and neither Q[DEN] nor
    Q[PRE] compares equal to zero.  A negative density or pressure is not
    an error to it. *)
Theorem checkValues_accepts {F : Type} (rev : Torch.Revision)
    (ops : Torch.FluidOps F) (componentname : string) (t : Torch.State F) :
  Torch.checkValues rev ops componentname t = Torch.Ok tt t <->
  Forall accepted (Torch.getGridCells ops (Torch.fluid t)).
Proof.
  assert (H : existsb Torch.hasError (Torch.getGridCells ops (Torch.fluid t))
              = false
              <-> Forall accepted (Torch.getGridCells ops (Torch.fluid t))).
  { induction (Torch.getGridCells ops (Torch.fluid t)) as [|cell l IH];
      cbn [existsb].
    - split; [constructor | reflexivity].
    - rewrite orb_false_iff, IH, hasError_accepted, Forall_cons.
      reflexivity. }
  rewrite <- H. unfold Torch.checkValues.
  destruct (existsb Torch.hasError _).
  - split; [destruct rev; discriminate | discriminate].
  - split; reflexivity.
Qed.

Lemma checkValues_accepts_witness :
  Torch.checkValues Torch.Part001 Sample.ops "Hydrodynamics after"
                    (Sample.state [Sample.fcell (-1) (-1) 1 0] false false)
  = Torch.Ok tt (Sample.state [Sample.fcell (-1) (-1) 1 0] false false).
Proof.
  apply (checkValues_accepts
           Torch.Part001 Sample.ops "Hydrodynamics after"
           (Sample.state [Sample.fcell (-1) (-1) 1 0] false false)).
  constructor; [|constructor].
  split; [|split; reflexivity].
  intros i Hi.
  repeat (destruct Hi as [<-|Hi]; [split; reflexivity|]).
  destruct Hi.
Defined.

(** ** Torch::calculateTimeStep *)

Lemma std_min_le_l a b : Num.std_min a b <= a.
Proof. unfold Num.std_min. NumFacts.cases; lra. Qed.

Lemma std_min_le_r a b : Num.std_min a b <= b.
Proof. unfold Num.std_min. NumFacts.cases; lra. Qed.

Section TimeStepFacts.

Context {F : Type}.
Variable rev : Torch.Revision.
Variable ops : Torch.FluidOps F.
Variable hydrodynamics radiation thermodynamics : Integrator.t F.
Variable minimum : Q -> Q.
Variable getRank : Z.

(** X19. calculateTimeStep never clears the quit flag, does not raise it
    in the first call, and in a later call raises it exactly when debug is
    on and the reduced percentage of hydrodynamics is at most 1e-6. *)
Theorem calculateTimeStep_quit_flag (t : Torch.State F) :
  Torch.m_isQuitting
    (Torch.final (Torch.calculateTimeStep rev ops hydrodynamics radiation
                                          thermodynamics minimum getRank t))
  = Torch.m_isQuitting t
    || negb (Torch.first_time t)
       && Torch.debug t
       && Num.leb (minimum
                     (100.0
                      * Integrator.calculateTimeStep hydrodynamics
                          (Torch.dt_max t) (Torch.fluid t)
                      / Torch.tmax t))
                  1.0e-6.
Proof.
  destruct (Torch.first_time t) eqn:Hf.
  - rewrite (TorchFacts.calculateTimeStep_first
               rev ops hydrodynamics radiation thermodynamics minimum
               getRank t Hf).
    cbn [Torch.final Torch.set_fluid Torch.set_first_time Torch.m_isQuitting
         negb andb]. now rewrite orb_false_r.
  - rewrite (TorchFacts.calculateTimeStep_guard
               rev ops hydrodynamics radiation thermodynamics minimum
               getRank t Hf).
    cbn [negb andb].
    destruct (Torch.debug t && _); [now rewrite orb_true_r|].
    now rewrite orb_false_r.
Qed.

(** X20. The time step returned after the first call exceeds the request of
    no consulted component, when the reduction over the ranks does not
    exceed the value of this rank. *)
Theorem calculateTimeStep_within_limits (t : Torch.State F) :
  Torch.first_time t = false ->
  (forall x, minimum x <= x) ->
  exists dt t',
    Torch.calculateTimeStep rev ops hydrodynamics radiation thermodynamics
                            minimum getRank t = Torch.Ok dt t' /\
    dt <= Integrator.calculateTimeStep hydrodynamics (Torch.dt_max t)
                                       (Torch.fluid t) /\
    (Torch.radiation_on t = true ->
     dt <= Integrator.calculateTimeStep radiation (Torch.dt_max t)
                                        (Torch.fluid t)) /\
    (Torch.cooling_on t = true ->
     dt <= Integrator.calculateTimeStep thermodynamics (Torch.dt_max t)
                                        (Torch.fluid t)).
Proof.
  intros Hf Hmin.
  destruct (TorchFacts.calculateTimeStep_later
              rev ops hydrodynamics radiation thermodynamics minimum
              getRank t Hf) as (t' & Hrun & _).
  eexists. exists t'. split; [exact Hrun|].
  set (m := componentMinimum hydrodynamics radiation thermodynamics t
                             (Torch.fluid t)).
  pose proof (Hmin m) as Hm. subst m. unfold componentMinimum in *.
  cbv zeta in *.
  match type of Hm with
  | _ <= Num.std_min (Num.std_min ?a ?b) ?c =>
      pose proof (std_min_le_l (Num.std_min a b) c);
      pose proof (std_min_le_r (Num.std_min a b) c);
      pose proof (std_min_le_l a b);
      pose proof (std_min_le_r a b)
  end.
  split; [lra|]. split; intros E; rewrite E in *; lra.
Qed.

End TimeStepFacts.

(** X21. With cooling on and the thermodynamics integrator in place, the
    time step returned after the first call is at most dt_max and at most
    the thermal step of every cell with a non-zero rate. *)
Theorem calculateTimeStep_thermal_limit (rev : Torch.Revision)
    (ops : Torch.FluidOps Fluid) (hydrodynamics radiation : Integrator.t Fluid)
    (libm : Cmath) (self : Thermo) (mpihandler : MPIW) (minimum : Q -> Q)
    (getRank : Z) (t : Torch.State Fluid) :
  Torch.first_time t = false ->
  Torch.cooling_on t = true ->
  (forall x, minimum x <= x) ->
  exists dt t',
    Torch.calculateTimeStep rev ops hydrodynamics radiation
      (thermodynamicsIntegrator libm self mpihandler) minimum getRank t
    = Torch.Ok dt t' /\
    dt <= Torch.dt_max t /\
    forall cell,
      In cell (cells (grid (Torch.fluid t))) -> ~ c_T cell RATE == 0 ->
      dt <= thermalStep self cell.
Proof.
  intros Hf Hc Hmin.
  destruct (TorchFacts.calculateTimeStep_later
              rev ops hydrodynamics radiation
              (thermodynamicsIntegrator libm self mpihandler) minimum
              getRank t Hf) as (t' & Hrun & _).
  eexists. exists t'. split; [exact Hrun|].
  set (m := componentMinimum _ _ _ t (Torch.fluid t)).
  pose proof (Hmin m) as Hm.
  assert (Hth : m <= Thermodynamics.calculateTimeStep
                       self (Torch.dt_max t) (Torch.fluid t)).
  { subst m. unfold componentMinimum. cbv zeta. rewrite Hc.
    apply std_min_le_r. }
  destruct (thermo_dt_fold self (cells (grid (Torch.fluid t)))
                           (Torch.dt_max t)) as (A & B & _).
  cbv zeta in A, B.
  unfold Thermodynamics.calculateTimeStep in Hth.
  split; [lra|]. intros cell Hin Hr. specialize (B cell Hin Hr). lra.
Qed.

Lemma calculateTimeStep_within_limits_witness :
  exists dt t',
    Torch.calculateTimeStep
      Torch.Part000 Sample.ops
      (Sample.idle "Hydrodynamics" 1) (Sample.idle "Radiation" (1 # 2))
      (Sample.idle "Thermodynamics" (1 # 4)) id 0
      (Sample.state [Sample.fcell 1 1 1 0] false false)
    = Torch.Ok dt t' /\
    dt <= 1 /\ dt <= 1 # 2 /\ dt <= 1 # 4.
Proof.
  destruct (calculateTimeStep_within_limits
              Torch.Part000 Sample.ops
              (Sample.idle "Hydrodynamics" 1)
              (Sample.idle "Radiation" (1 # 2))
              (Sample.idle "Thermodynamics" (1 # 4)) id 0
              (Sample.state [Sample.fcell 1 1 1 0] false false))
    as (dt & t' & Hrun & Hh & Hr & Hc).
  - reflexivity.
  - intros x. apply Qle_refl.
  - exists dt, t'. split; [exact Hrun|]. split; [exact Hh|].
    split; [apply Hr | apply Hc]; reflexivity.
Defined.

Lemma calculateTimeStep_thermal_limit_witness :
  let f := Sample.fluid (Sample.cell 0 0 0) (Sample.warm (-40) 3)
                        (Sample.warm 0 3) false in
  exists dt t',
    Torch.calculateTimeStep
      Torch.Part000 Example.fluidOps
      (Example.idle "Hydrodynamics" 50) (Example.idle "Radiation" 60)
      (thermodynamicsIntegrator Sample.libm (Sample.thermo true 0.5)
                                Sample.mpi)
      id 0 (Example.cooling f)
    = Torch.Ok dt t' /\
    dt <= 100 /\
    dt <= thermalStep (Sample.thermo true 0.5) (Sample.warm (-40) 3).
Proof.
  cbv zeta.
  destruct (calculateTimeStep_thermal_limit
              Torch.Part000 Example.fluidOps
              (Example.idle "Hydrodynamics" 50)
              (Example.idle "Radiation" 60)
              Sample.libm (Sample.thermo true 0.5) Sample.mpi id 0
              (Example.cooling
                 (Sample.fluid (Sample.cell 0 0 0) (Sample.warm (-40) 3)
                               (Sample.warm 0 3) false)))
    as (dt & t' & Hrun & Hmax & Hcell).
  - reflexivity.
  - reflexivity.
  - intros x. apply Qle_refl.
  - exists dt, t'. split; [exact Hrun|]. split; [exact Hmax|].
    apply Hcell.
    + right. left. reflexivity.
    + vm_compute. discriminate.
Defined.

(** ** Torch::hydroStep and the outer step of a single component *)

Section OuterStepFacts.

Context {F : Type}.
Variable rev : Torch.Revision.
Variable ops : Torch.FluidOps F.
Variable hydrodynamics radiation thermodynamics : Integrator.t F.
Variable minimum : Q -> Q.
Variable getRank : Z.

Lemma print_nothing (t : Torch.State F) : Torch.print t [] = t.
Proof. destruct t. unfold Torch.print. simpl. now rewrite app_nil_r. Qed.

Lemma nothing_dumped (l : list (GridCell float)) :
  Forall (fun cell => Torch.isDumped cell = false) l ->
  filter (fun cell => Torch.isDumped cell = true) l = [].
Proof.
  induction 1 as [|cell l Hc _ IH]; [reflexivity|].
  rewrite filter_cons, IH. destruct (decide _) as [E|E]; [congruence|].
  reflexivity.
Qed.

(** X22. An error in a grid none of whose cells has a velocity above 1e50
    ends the run without any report: nothing is printed, the newer
    revision throws a message that is a line feed and the older one exits
    with status 0. *)
Theorem checkValues_silent (componentname : string) (t : Torch.State F) :
  ~ errorFree ops (Torch.fluid t) ->
  Forall (fun cell => Torch.isDumped cell = false)
         (Torch.getGridCells ops (Torch.fluid t)) ->
  Torch.checkValues rev ops componentname t
  = match rev with
    | Torch.Part000 => Torch.Thrown nl t
    | Torch.Part001 => Torch.Exited 0 t
    end.
Proof.
  intros Hs Hd. unfold Torch.checkValues, errorFree in *.
  destruct (existsb _ _); [|congruence].
  rewrite (nothing_dumped _ Hd). cbn [map flat_map String.concat].
  rewrite print_nothing. destruct rev; reflexivity.
Qed.

Lemma hydroStep_checks (dt : Q) (hasCalculatedHeatFlux : bool)
    (t : Torch.State F) :
  Torch.hydroStep rev ops hydrodynamics dt hasCalculatedHeatFlux t
  = if existsb Torch.hasError (Torch.getGridCells ops (Torch.fluid t))
    then Torch.checkValues rev ops "hydro before" t
    else Torch.Ok tt
           (Torch.set_fluid t
              (hydroStepFluid ops hydrodynamics dt hasCalculatedHeatFlux
                              (Torch.fluid t))).
Proof.
  unfold Torch.hydroStep. unfold Torch.bind at 1.
  destruct (existsb Torch.hasError (Torch.getGridCells ops (Torch.fluid t)))
    eqn:E0.
  - unfold Torch.checkValues. rewrite E0. destruct rev; reflexivity.
  - rewrite (checkValues_errorFree rev ops _ t E0).
    unfold hydroStepFluid.
    destruct hasCalculatedHeatFlux; cbn [negb];
      unfold Torch.bind, Torch.onFluid, Torch.modify, Torch.ret;
      destruct t; reflexivity.
Qed.

(** X23. hydroStep checks the grid on entry only: it returns exactly when
    no cell has an error on entry, and an error on entry leaves the fluid
    as it was. *)
Theorem hydroStep_outcome (dt : Q) (hasCalculatedHeatFlux : bool)
    (t : Torch.State F) :
  let run := Torch.hydroStep rev ops hydrodynamics dt hasCalculatedHeatFlux t in
  (errorFree ops (Torch.fluid t) ->
   run = Torch.Ok tt
           (Torch.set_fluid t
              (hydroStepFluid ops hydrodynamics dt hasCalculatedHeatFlux
                              (Torch.fluid t)))) /\
  (~ errorFree ops (Torch.fluid t) ->
   fatal rev run /\ Torch.fluid (Torch.final run) = Torch.fluid t) /\
  Torch.substeps (Torch.final run) = Torch.substeps t.
Proof.
  cbv zeta. rewrite hydroStep_checks.
  destruct (existsb Torch.hasError (Torch.getGridCells ops (Torch.fluid t)))
    eqn:E0.
  - assert (N0 : ~ errorFree ops (Torch.fluid t))
      by (unfold errorFree; congruence).
    destruct (checkValues_error rev ops "hydro before" t N0)
      as (Hf & Hfl & Hsub).
    split; [unfold errorFree; congruence|].
    split; [intros _; split; [exact Hf | exact Hfl] | exact Hsub].
  - cbn [Torch.final Torch.set_fluid Torch.substeps].
    split; [reflexivity|].
    split; [unfold errorFree; congruence | reflexivity].
Qed.



End OuterStepFacts.

Lemma checkValues_silent_witness :
  let t := Sample.state [Sample.fcell 1 1 1 0; Sample.fcell 0 1 1 0]
                        false false in
  Torch.checkValues Torch.Part000 Sample.ops "Hydrodynamics after" t
  = Torch.Thrown nl t.
Proof.
  cbv zeta.
  apply (checkValues_silent
           Torch.Part000 Sample.ops "Hydrodynamics after"
           (Sample.state [Sample.fcell 1 1 1 0; Sample.fcell 0 1 1 0]
                         false false)).
  - unfold errorFree. vm_compute. discriminate.
  - repeat constructor.
Defined.

Lemma hydroStep_outcome_witness :
  let t := Example.hydroOnly [Sample.fcell 1 1 1 0] in
  Torch.hydroStep Torch.Part000 Sample.ops (Sample.idle "Hydrodynamics" 1)
                  (1 # 2) true t
  = Torch.Ok tt
      (Torch.set_fluid t
         (hydroStepFluid Sample.ops (Sample.idle "Hydrodynamics" 1) (1 # 2)
                         true (Torch.fluid t))).
Proof.
  cbv zeta.
  destruct (hydroStep_outcome
              Torch.Part000 Sample.ops (Sample.idle "Hydrodynamics" 1)
              (1 # 2) true (Example.hydroOnly [Sample.fcell 1 1 1 0]))
    as (H & _).
  apply H. reflexivity.
Defined.


(** ** The time step of the outer step *)

Section OuterTimeStep.

Context {F : Type}.
Variable rev : Torch.Revision.
Variable ops : Torch.FluidOps F.
Variable hydrodynamics radiation thermodynamics : Integrator.t F.
Variable minimum : Q -> Q.
Variable getRank : Z.

(** The state in which fullStep calls calculateTimeStep. *)
Lemma fullStep_asks (dt_nextCheckPoint : Q) (t : Torch.State F) :
  exists t4,
    Torch.fluid t4 = preludeFluid ops radiation thermodynamics t /\
    Torch.first_time t4 = Torch.first_time t /\
    Torch.dt_max t4 = Torch.dt_max t /\
    Torch.radiation_on t4 = Torch.radiation_on t /\
    Torch.cooling_on t4 = Torch.cooling_on t /\
    forall dt t',
      Torch.fullStep rev ops hydrodynamics radiation thermodynamics minimum
                     getRank dt_nextCheckPoint t
      = Torch.Ok dt t' ->
      exists dt_calc t5,
        Torch.calculateTimeStep rev ops hydrodynamics radiation
                                thermodynamics minimum getRank t4
        = Torch.Ok dt_calc t5 /\
        dt = Num.std_min dt_nextCheckPoint dt_calc.
Proof.
  unfold Torch.fullStep, preludeFluid.
  unfold Torch.bind at 1. unfold Torch.onFluid at 1. unfold Torch.modify at 1.
  unfold Torch.bind at 1. unfold Torch.onFluid at 1. unfold Torch.modify at 1.
  set (t2 := Torch.set_fluid _ _).
  unfold Torch.bind at 1.
  set (o3 := if Torch.cooling_on t2 then _ else _).
  assert (H3 : exists t3,
             o3 = Torch.Ok tt t3 /\
             t3 = Torch.set_fluid
                    t (if Torch.cooling_on t
                       then Integrator.preTimeStepCalculations
                              thermodynamics (Torch.fluid t2)
                       else Torch.fluid t2)).
  { subst o3 t2. cbn [Torch.cooling_on Torch.set_fluid Torch.fluid].
    destruct (Torch.cooling_on t);
      unfold Torch.onFluid, Torch.modify, Torch.ret;
      eexists; (split; [reflexivity|]); destruct t; reflexivity. }
  destruct H3 as (t3 & -> & E3).
  unfold Torch.bind at 1.
  set (o4 := if Torch.radiation_on t3 then _ else _).
  assert (H4 : exists t4,
             o4 = Torch.Ok tt t4 /\
             t4 = Torch.set_fluid
                    t (if Torch.radiation_on t
                       then Integrator.preTimeStepCalculations
                              radiation (Torch.fluid t3)
                       else Torch.fluid t3)).
  { subst o4. rewrite E3.
    cbn [Torch.radiation_on Torch.set_fluid Torch.fluid].
    destruct (Torch.radiation_on t);
      unfold Torch.onFluid, Torch.modify, Torch.ret;
      eexists; (split; [reflexivity|]); destruct t; reflexivity. }
  destruct H4 as (t4 & -> & E4).
  exists t4. rewrite E4, E3. subst t2.
  cbn [Torch.set_fluid Torch.fluid Torch.first_time Torch.dt_max
       Torch.radiation_on Torch.cooling_on].
  split; [reflexivity|]. split; [reflexivity|]. split; [reflexivity|].
  split; [reflexivity|]. split; [reflexivity|].
  intros dt t' Hrun.
  apply TorchFacts.bind_Ok in Hrun as (dt_calc & t5 & H5 & Hrun).
  exists dt_calc, t5. split; [exact H5|].
  cbv beta zeta in Hrun.
  destruct (Nat.eqb _ 1).
  - apply TorchFacts.bind_Ok in Hrun as (? & ? & _ & Hrun).
    unfold Torch.ret in Hrun. now injection Hrun as <- _.
  - apply TorchFacts.bind_Ok in Hrun as (? & ? & _ & Hrun).
    apply TorchFacts.bind_Ok in Hrun as (? & ? & _ & Hrun).
    apply TorchFacts.bind_Ok in Hrun as (? & ? & _ & Hrun).
    unfold Torch.ret in Hrun. now injection Hrun as <- _.
Qed.

(** X25. The time step that fullStep returns is the smaller of the
    distance to the next checkpoint and the time step of
    calculateTimeStep: in the first call the reduction of dt_max*1e-20,
    later the reduced minimum of the time steps that the active components
    ask for on the fluid prepared by fullStep. *)
Theorem fullStep_time_step (dt_nextCheckPoint dt : Q)
    (t t' : Torch.State F) :
  Torch.fullStep rev ops hydrodynamics radiation thermodynamics minimum
                 getRank dt_nextCheckPoint t
  = Torch.Ok dt t' ->
  dt = Num.std_min
         dt_nextCheckPoint
         (if Torch.first_time t
          then minimum (Torch.dt_max t * 1.0e-20)
          else minimum
                 (componentMinimum
                    hydrodynamics radiation thermodynamics t
                    (preludeFluid ops radiation thermodynamics t))) /\
  dt <= dt_nextCheckPoint.
Proof.
  intros Hrun.
  destruct (fullStep_asks dt_nextCheckPoint t)
    as (t4 & Hf & Hft & Hdm & Hro & Hco & Hask).
  destruct (Hask dt t' Hrun) as (dt_calc & t5 & H5 & ->).
  split; [|apply std_min_le_l]. f_equal.
  destruct (Torch.first_time t) eqn:E.
  - rewrite (TorchFacts.calculateTimeStep_first
               rev ops hydrodynamics radiation thermodynamics minimum
               getRank t4) in H5 by congruence.
    injection H5 as <- _. now rewrite Hdm.
  - destruct (TorchFacts.calculateTimeStep_later
                rev ops hydrodynamics radiation thermodynamics minimum
                getRank t4 ltac:(congruence)) as (t5' & H5' & _).
    rewrite H5' in H5. injection H5 as <- _.
    unfold componentMinimum. now rewrite Hf, Hdm, Hro, Hco.
Qed.

End OuterTimeStep.

Lemma fullStep_time_step_witness :
  let t := Sample.state [Sample.fcell 1 1 1 0; Sample.fcell 2 3 4 1]
                        true false in
  match Torch.fullStep Torch.Part000 Sample.ops
          (Sample.idle "Hydrodynamics" 1) (Sample.idle "Radiation" (1 # 2))
          (Sample.idle "Thermodynamics" (1 # 4)) id 0 (1 # 8) t with
  | Torch.Ok dt t' => dt <= 1 # 8
  | _ => False
  end.
Proof.
  cbv zeta.
  destruct (Torch.fullStep Torch.Part000 Sample.ops
              (Sample.idle "Hydrodynamics" 1)
              (Sample.idle "Radiation" (1 # 2))
              (Sample.idle "Thermodynamics" (1 # 4)) id 0 (1 # 8)
              (Sample.state [Sample.fcell 1 1 1 0; Sample.fcell 2 3 4 1]
                            true false))
    as [dt t'|what t'|status t'] eqn:E.
  - apply (fullStep_time_step
             Torch.Part000 Sample.ops
             (Sample.idle "Hydrodynamics" 1)
             (Sample.idle "Radiation" (1 # 2))
             (Sample.idle "Thermodynamics" (1 # 4)) id 0 (1 # 8) dt
             (Sample.state [Sample.fcell 1 1 1 0; Sample.fcell 2 3 4 1]
                           true false) t' E).
  - vm_compute in E. discriminate E.
  - vm_compute in E. discriminate E.
Defined.

(** ** The time covered by an outer step *)

Section SplittingFacts.

Context {F : Type}.









Variable rev : Torch.Revision.
Variable ops : Torch.FluidOps F.
Variable hydrodynamics radiation thermodynamics : Integrator.t F.
Variable minimum : Q -> Q.
Variable getRank : Z.


End SplittingFacts.


(** ** The rotation of the components *)

Section RotationFacts.

Context {F : Type}.
Variable rev : Torch.Revision.
Variable ops : Torch.FluidOps F.
Variable hydrodynamics radiation thermodynamics : Integrator.t F.
Variable minimum : Q -> Q.
Variable getRank : Z.

Local Abbreviation component :=
  (Torch.getComponent hydrodynamics radiation thermodynamics).




End RotationFacts.


(** ** File names *)

Module StdFacts.

Lemma find_last_of_absent c s : c ∉ s -> Std.find_last_of c s = None.
Proof.
  induction s as [|a s IH]; intros H; [reflexivity|].
  cbn [Std.find_last_of]. rewrite IH.
  - destruct (Ascii.eqb a c) eqn:E; [|reflexivity].
    apply Ascii.eqb_eq in E. subst a. exfalso. apply H. left.
  - intros Hin. apply H. now right.
Qed.

Lemma find_last_of_last c s1 s2 :
  c ∉ s2 -> Std.find_last_of c (s1 ++ c :: s2)%list = Some (length s1).
Proof.
  intros H. induction s1 as [|a s1 IH]; cbn [app Std.find_last_of length].
  - rewrite (find_last_of_absent c s2 H). now rewrite Ascii.eqb_refl.
  - now rewrite IH.
Qed.

Lemma digit_range a d :
  Std.digit a = Some d -> (48 <= nat_of_ascii a <= 57)%nat.
Proof.
  unfold Std.digit. destruct (Z.leb 48 _ && Z.leb _ 57) eqn:E; [|discriminate].
  intros _. apply andb_true_iff in E as (E1 & E2).
  apply Z.leb_le in E1, E2. lia.
Qed.

(** The text that starts with a digit has no white space and no sign to
    skip. *)
Lemma stoi_digits a s d :
  Std.digit a = Some d ->
  Std.stoi (a :: s)
  = let '(v, any) := Std.digits (a :: s) 0 false in
    if negb any then Std.InvalidArgument
    else if Z.ltb v (-2147483648) || Z.ltb 2147483647 v then Std.OutOfRange
         else Std.Value v.
Proof.
  intros Hd. pose proof (digit_range a d Hd) as Hr.
  unfold Std.stoi. cbn [Std.skip_space].
  assert (Hs : Std.isspace a = false).
  { unfold Std.isspace. cbv zeta.
    destruct (Nat.eqb_spec (nat_of_ascii a) 32); [lia|].
    destruct (Nat.leb_spec (nat_of_ascii a) 13); [lia|].
    now rewrite andb_false_r. }
  rewrite Hs.
  assert (Hm : Ascii.eqb a "-" = false).
  { apply Ascii.eqb_neq. intros ->.
    change (nat_of_ascii "-") with 45%nat in Hr. lia. }
  assert (Hp : Ascii.eqb a "+" = false).
  { apply Ascii.eqb_neq. intros ->.
    change (nat_of_ascii "+") with 43%nat in Hr. lia. }
  rewrite Hm, Hp. reflexivity.
Qed.

Lemma digits_zeros k s any :
  Std.digits (repeat "0"%char k ++ s)%list 0 any
  = Std.digits s 0 (any || negb (Nat.eqb k 0)).
Proof.
  revert any. induction k as [|k IH]; intros any; cbn [repeat app].
  - cbn. now rewrite orb_false_r.
  - cbn [Std.digits]. change (Std.digit "0") with (Some 0%Z).
    cbn [Z.mul Z.add]. rewrite IH. cbn. now rewrite orb_true_r.
Qed.

Definition nonnil (d : uint) : bool :=
  match d with Nil => false | _ => true end.

(** Reading the decimal text of [d] back. *)
Lemma digits_uint d :
  (forall p any,
      Std.digits (list_ascii_of_string (NilEmpty.string_of_uint d))
                 (Zpos p) any
      = (Zpos (Pos.of_uint_acc d p),
         any || nonnil d)) /\
  (forall any,
      Std.digits (list_ascii_of_string (NilEmpty.string_of_uint d)) 0 any
      = (Z.of_N (Pos.of_uint d), any || nonnil d)).
Proof.
  induction d as [|d [IHp IH0]|d [IHp IH0]|d [IHp IH0]|d [IHp IH0]
                  |d [IHp IH0]|d [IHp IH0]|d [IHp IH0]|d [IHp IH0]
                  |d [IHp IH0]|d [IHp IH0]];
    (split; [intros p any | intros any]);
    cbn [NilEmpty.string_of_uint list_ascii_of_string Std.digits
         Pos.of_uint Pos.of_uint_acc nonnil];
    try (cbn; now rewrite orb_false_r);
    match goal with
    | |- context [Std.digit ?c] =>
        let v := eval vm_compute in (Std.digit c) in
        change (Std.digit c) with v
    end;
    cbv iota beta;
    rewrite ?orb_true_r.
  all: match goal with
       | |- Std.digits _ ?acc true
            = (Z.pos (Pos.of_uint_acc _ ?q), _) =>
           replace acc with (Z.pos q) by lia; rewrite IHp; reflexivity
       | |- Std.digits _ ?acc true
            = (Z.of_N (N.pos (Pos.of_uint_acc _ ?q)), _) =>
           replace acc with (Z.pos q) by lia; rewrite IHp; reflexivity
       | |- Std.digits _ ?acc true = (Z.of_N (Pos.of_uint _), _) =>
           replace acc with 0%Z by lia; rewrite IH0; reflexivity
       end.
Qed.

Lemma uint_text_digits d :
  Forall (fun a => Std.digit a <> None)
         (list_ascii_of_string (NilEmpty.string_of_uint d)).
Proof.
  induction d; cbn [NilEmpty.string_of_uint list_ascii_of_string];
    constructor; try assumption; vm_compute; discriminate.
Qed.

(** The decimal text of a number that is not negative. *)
Lemma text_nonneg i :
  (0 <= i)%Z ->
  exists d,
    list_ascii_of_string (NilZero.string_of_int (Z.to_int i))
    = list_ascii_of_string (NilEmpty.string_of_uint d)
    /\ nonnil d = true /\ Z.of_N (Pos.of_uint d) = i.
Proof.
  intros Hi. destruct i as [|p|p]; [| |lia].
  - exists (D0 Nil). repeat split; reflexivity.
  - exists (Pos.to_uint p). cbn [Z.to_int NilZero.string_of_int].
    pose proof (Unsigned.to_uint_nonnil p) as Hn.
    split; [|split].
    + unfold NilZero.string_of_uint.
      destruct (Pos.to_uint p); [contradiction|reflexivity..].
    + destruct (Pos.to_uint p); [contradiction|reflexivity..].
    + now rewrite Unsigned.of_to.
Qed.

Lemma formatSuffix_text i :
  (0 <= i)%Z ->
  exists k d,
    formatSuffix i
    = (repeat "0"%char k
       ++ list_ascii_of_string (NilEmpty.string_of_uint d))%list
    /\ nonnil d = true /\ Z.of_N (Pos.of_uint d) = i.
Proof.
  intros Hi. destruct (text_nonneg i Hi) as (d & E & Hn & Hv).
  unfold formatSuffix, Std.put_int. cbv zeta. rewrite E. eauto.
Qed.

Lemma formatSuffix_digits i :
  (0 <= i)%Z -> Forall (fun a => Std.digit a <> None) (formatSuffix i).
Proof.
  intros Hi. destruct (formatSuffix_text i Hi) as (k & d & -> & _).
  apply Forall_app. split; [|apply uint_text_digits].
  apply Forall_forall. intros a Ha.
  apply list_elem_of_In, repeat_spec in Ha. subst a.
  vm_compute. discriminate.
Qed.

Lemma stoi_formatSuffix i :
  (0 <= i <= 2147483647)%Z -> Std.stoi (formatSuffix i) = Std.Value i.
Proof.
  intros Hi. pose proof (formatSuffix_digits i ltac:(lia)) as Hd.
  destruct (formatSuffix_text i ltac:(lia)) as (k & d & E & Hn & Hv).
  assert (Hdig : Std.digits (formatSuffix i) 0 false = (i, true)).
  { rewrite E, digits_zeros.
    destruct (digits_uint d) as (_ & ->). now rewrite Hn, orb_true_r, Hv. }
  destruct (formatSuffix i) as [|a s] eqn:Ef.
  - cbn in Hdig. discriminate.
  - apply Forall_cons in Hd as (Ha & _).
    destruct (Std.digit a) as [v|] eqn:Ev; [|contradiction].
    rewrite (stoi_digits a s v Ev), Hdig. cbn [negb].
    destruct (Z.ltb_spec i (-2147483648)); [lia|].
    destruct (Z.ltb_spec 2147483647 i); [lia|]. reflexivity.
Qed.

(** The step number is read from the text between the last underscore
    of the stem and the last dot. *)
Lemma stepIDFromFilename_word base word ext :
  "_"%char ∉ word -> "."%char ∉ ext ->
  stepIDFromFilename (fileName base word ext) = Std.stoi word.
Proof.
  intros Hw He. unfold stepIDFromFilename, fileName. cbv zeta.
  assert (E : (base ++ "_"%char :: word ++ "."%char :: ext)%list
              = ((base ++ "_"%char :: word) ++ "."%char :: ext)%list)
    by (rewrite <- app_assoc; reflexivity).
  rewrite E, (find_last_of_last "." _ ext He).
  unfold Std.substr. rewrite drop_0, take_app_length.
  rewrite (find_last_of_last "_" base word Hw).
  unfold Std.substr_from.
  assert (E' : (base ++ "_"%char :: word)%list
               = ((base ++ ["_"%char]) ++ word)%list)
    by (rewrite <- app_assoc; reflexivity).
  rewrite E', drop_app_length'; [reflexivity|].
  rewrite length_app. reflexivity.
Qed.

End StdFacts.

(** X28. A snapshot named with formatSuffix is read back as its step: for
    0 <= i <= INT_MAX, stepIDFromFilename of base_<formatSuffix i>.ext is
    i, whatever the base and for every extension without a dot. *)
Theorem stepIDFromFilename_formatSuffix (base ext : list ascii) (i : Z) :
  (0 <= i <= 2147483647)%Z ->
  "."%char ∉ ext ->
  stepIDFromFilename (fileName base (formatSuffix i) ext) = Std.Value i.
Proof.
  intros Hi He. rewrite StdFacts.stepIDFromFilename_word.
  - now apply StdFacts.stoi_formatSuffix.
  - intros Hin.
    pose proof (StdFacts.formatSuffix_digits i ltac:(lia)) as Hd.
    rewrite Forall_forall in Hd. apply (Hd _ Hin). reflexivity.
  - exact He.
Qed.

Lemma stepIDFromFilename_formatSuffix_witness :
  stepIDFromFilename
    (fileName (list_ascii_of_string "out/data2D")
              (formatSuffix 42) (list_ascii_of_string "txt"))
  = Std.Value 42.
Proof.
  apply (stepIDFromFilename_formatSuffix
           (list_ascii_of_string "out/data2D") (list_ascii_of_string "txt")
           42).
  - lia.
  - intros H. repeat (apply elem_of_cons in H as [H|H]; [discriminate H|]).
    inversion H.
Defined.

(** X29. A file name without an underscore gives step -1.  A name whose
    word after the last underscore starts with a character that is no
    white space, sign or digit makes std::stoi throw
    std::invalid_argument. *)
Theorem stepIDFromFilename_no_number (filename base word ext : list ascii)
    (a : ascii) :
  ("_"%char ∉ filename -> stepIDFromFilename filename = Std.Value (-1)) /\
  ("_"%char ∉ a :: word -> "."%char ∉ ext ->
   Std.isspace a = false -> Std.digit a = None ->
   a <> "-"%char -> a <> "+"%char ->
   stepIDFromFilename (fileName base (a :: word) ext)
   = Std.InvalidArgument).
Proof.
  split.
  - intros H. unfold stepIDFromFilename. cbv zeta.
    set (rawname := match Std.find_last_of "." filename with
                    | Some k => Std.substr 0 k filename
                    | None => filename
                    end).
    assert (Hr : "_"%char ∉ rawname).
    { subst rawname. destruct (Std.find_last_of "." filename); [|exact H].
      unfold Std.substr. rewrite drop_0. intros Hin. apply H.
      apply elem_of_take in Hin as (j & Hj & _).
      eapply list_elem_of_lookup_2; exact Hj. }
    rewrite (StdFacts.find_last_of_absent _ _ Hr). reflexivity.
  - intros Hw He Hs Hd Hm Hp.
    rewrite StdFacts.stepIDFromFilename_word; [|exact Hw|exact He].
    unfold Std.stoi. cbn [Std.skip_space]. rewrite Hs.
    apply Ascii.eqb_neq in Hm, Hp. rewrite Hm, Hp.
    cbn [Std.digits]. rewrite Hd. reflexivity.
Qed.

Lemma stepIDFromFilename_no_number_witness :
  stepIDFromFilename (list_ascii_of_string "initial.txt") = Std.Value (-1) /\
  stepIDFromFilename
    (fileName (list_ascii_of_string "data2D")
              (list_ascii_of_string "final") (list_ascii_of_string "txt"))
  = Std.InvalidArgument.
Proof.
  destruct (stepIDFromFilename_no_number
              (list_ascii_of_string "initial.txt")
              (list_ascii_of_string "data2D") (list_ascii_of_string "inal")
              (list_ascii_of_string "txt") "f"%char) as (H1 & H2).
  split.
  - apply H1. intros H.
    repeat (apply elem_of_cons in H as [H|H]; [discriminate H|]).
    inversion H.
  - apply H2; try reflexivity; try discriminate.
    + intros H.
      repeat (apply elem_of_cons in H as [H|H]; [discriminate H|]).
      inversion H.
    + intros H.
      repeat (apply elem_of_cons in H as [H|H]; [discriminate H|]).
      inversion H.
Defined.
